(** * CityScrape / BrightStone: the tenant-shared document and alert model

    A shallow embedding of the relational schema that the SQL migrations
    under [migrations/] build (001 single-copy document pipeline, 002 schema
    optimizations, 003 final optimizations), of the statements those
    migrations run, and of the parts of the web client that talk to it
    ([web/lib/api.ts], the NextAuth callbacks, the alert card and the
    property form).

    Tables are lists of rows in scan order; a nullable column is an
    [option]; a statement either yields the next database or raises one of
    PostgreSQL's error classes.  The declared constraints are part of the
    state: [ALTER TABLE .. ADD CONSTRAINT] validates the rows and then
    extends the schema, and every later statement is checked against the
    schema it runs under.  An [UPDATE] is written as a map over the rows,
    which keeps each row in its place; PostgreSQL may hand the rows of an
    updated table back in another order, so what is said below of such a
    table is said row by row and not of the order of its rows. *)

From Stdlib Require Import Ascii DecimalString.
From stdpp Require Import base decidable option list strings numbers gmap.

Open Scope Z_scope.
Open Scope string_scope.

(** ** Rows *)

Module Municipality.
Record t : Type := mk
  { id : Z; name : string; feed_url : option string }.
End Municipality.

Module Meeting.
(** [type] is the SQL column [type]. *)
Record t : Type := mk
  { id : Z; municipality_id : option Z; type : string }.
End Meeting.

Module Document.
(** [meeting_id] is [NOT NULL] since migration 001. *)
Record t : Type := mk
  { id : Z; meeting_id : Z; content_hash : option string;
    status : string; format : string }.
End Document.

Module Alert.
(** [P] is the type of the two match payload columns.  The statements
    that do not look into the payloads are written for any [P]; the
    migrations run on [jsonb]: migration 003 assigns [jsonb] values to the
    columns and builds GIN indexes on them, which PostgreSQL does for
    [jsonb] and refuses for [text] and [json]. *)
Record t (P : Type) : Type := mk
  { id : Z; company_id : Z; document_id : option Z;
    review_status : option string;
    property_matches : option P; rule_matches : option P }.
Arguments mk {P}.
Arguments id {P}.
Arguments company_id {P}.
Arguments document_id {P}.
Arguments review_status {P}.
Arguments property_matches {P}.
Arguments rule_matches {P}.
End Alert.

Module Property.
Record t : Type := mk
  { id : Z; company_id : Z; municipality_id : option Z;
    address : string; city : option string }.
End Property.

Module IngestJob.
(** [municipality] is the legacy name column that migration 002 replaces
    by [municipality_id]. *)
Record t : Type := mk
  { id : Z; company_id : Z; municipality : option string;
    municipality_id : option Z; status : string }.
End IngestJob.

Module CompanyMunicipality.
Record t : Type := mk { company_id : Z; municipality_id : Z }.
#[global] Instance eq_dec : EqDecision t.
Proof. solve_decision. Defined.
End CompanyMunicipality.

Module AuditTrail.
Record t : Type := mk
  { id : Z; company_id : option Z; document_id : option Z }.
End AuditTrail.

Module User.
(** [id] is a UUID, kept as text; the migrations touch no column of
    [users] but [company_id]. *)
Record t : Type := mk
  { id : string; company_id : option Z; role : string }.
End User.

(** ** Tables *)

Record tables (P : Type) : Type := mk_tables
  { companies : list Z;
    municipalities : list Municipality.t;
    meetings : list Meeting.t;
    documents : list Document.t;
    alerts : list (Alert.t P);
    properties : list Property.t;
    ingest_jobs : list IngestJob.t;
    company_municipalities : list CompanyMunicipality.t;
    audit_trails : list AuditTrail.t;
    users : list User.t;
    schema_migrations : list string }.
Arguments mk_tables {P}.
Arguments companies {P}.
Arguments municipalities {P}.
Arguments meetings {P}.
Arguments documents {P}.
Arguments alerts {P}.
Arguments properties {P}.
Arguments ingest_jobs {P}.
Arguments company_municipalities {P}.
Arguments audit_trails {P}.
Arguments users {P}.
Arguments schema_migrations {P}.

Section Setters.
Context {P : Type}.

Definition set_companies (v : list Z) (t : tables P) :=
  mk_tables v (municipalities t) (meetings t) (documents t) (alerts t)
    (properties t) (ingest_jobs t) (company_municipalities t)
    (audit_trails t) (users t) (schema_migrations t).

Definition set_municipalities (v : list Municipality.t) (t : tables P) :=
  mk_tables (companies t) v (meetings t) (documents t) (alerts t)
    (properties t) (ingest_jobs t) (company_municipalities t)
    (audit_trails t) (users t) (schema_migrations t).

Definition set_meetings (v : list Meeting.t) (t : tables P) :=
  mk_tables (companies t) (municipalities t) v (documents t) (alerts t)
    (properties t) (ingest_jobs t) (company_municipalities t)
    (audit_trails t) (users t) (schema_migrations t).

Definition set_documents (v : list Document.t) (t : tables P) :=
  mk_tables (companies t) (municipalities t) (meetings t) v (alerts t)
    (properties t) (ingest_jobs t) (company_municipalities t)
    (audit_trails t) (users t) (schema_migrations t).

Definition set_alerts {Q : Type} (v : list (Alert.t Q)) (t : tables P) :=
  mk_tables (companies t) (municipalities t) (meetings t) (documents t) v
    (properties t) (ingest_jobs t) (company_municipalities t)
    (audit_trails t) (users t) (schema_migrations t).

Definition set_properties (v : list Property.t) (t : tables P) :=
  mk_tables (companies t) (municipalities t) (meetings t) (documents t)
    (alerts t) v (ingest_jobs t) (company_municipalities t)
    (audit_trails t) (users t) (schema_migrations t).

Definition set_ingest_jobs (v : list IngestJob.t) (t : tables P) :=
  mk_tables (companies t) (municipalities t) (meetings t) (documents t)
    (alerts t) (properties t) v (company_municipalities t)
    (audit_trails t) (users t) (schema_migrations t).

Definition set_company_municipalities
    (v : list CompanyMunicipality.t) (t : tables P) :=
  mk_tables (companies t) (municipalities t) (meetings t) (documents t)
    (alerts t) (properties t) (ingest_jobs t) v
    (audit_trails t) (users t) (schema_migrations t).

Definition set_audit_trails (v : list AuditTrail.t) (t : tables P) :=
  mk_tables (companies t) (municipalities t) (meetings t) (documents t)
    (alerts t) (properties t) (ingest_jobs t) (company_municipalities t)
    v (users t) (schema_migrations t).

Definition set_users (v : list User.t) (t : tables P) :=
  mk_tables (companies t) (municipalities t) (meetings t) (documents t)
    (alerts t) (properties t) (ingest_jobs t) (company_municipalities t)
    (audit_trails t) v (schema_migrations t).

Definition set_schema_migrations (v : list string) (t : tables P) :=
  mk_tables (companies t) (municipalities t) (meetings t) (documents t)
    (alerts t) (properties t) (ingest_jobs t) (company_municipalities t)
    (audit_trails t) (users t) v.
End Setters.

(** ** Declared constraints and indexes

    One constructor per constraint the migrations declare, under its SQL
    name; the column-level [NOT NULL]s, which SQL leaves unnamed, are named
    [<table>_<column>_not_null], and the inline [REFERENCES] of
    [properties.municipality_id] gets PostgreSQL's default name.  The
    [NOT NULL]s that migration 001 sets ([documents.meeting_id] and the
    [company_id] of [alerts], [ingest_jobs] and [properties]) are no
    constructors: they are in the types of the rows, and migration 001
    raises their violation where it fills the column. *)

Inductive constraint : Type :=
  (* 001_single_document_pipeline *)
  | meetings_municipality_id_fkey
  | documents_meeting_id_fkey
  | company_municipalities_pkey
  | alerts_company_id_fkey
  | alerts_document_id_fkey
  | audit_trails_company_id_fkey
  | ingest_jobs_company_id_fkey
  | users_company_id_fkey
  | properties_company_id_fkey
  | properties_municipality_id_fkey
  | properties_company_address_unique
  | company_municipalities_company_id_fkey
  | company_municipalities_municipality_id_fkey
  (* 002_schema_optimizations *)
  | documents_content_hash_unique
  | properties_municipality_id_not_null
  | ingest_jobs_municipality_id_fkey
  | municipalities_feed_url_unique
  | alerts_review_status_check
  (* 003_final_optimizations *)
  | alerts_document_id_not_null
  | ingest_jobs_municipality_id_not_null.

#[global] Instance constraint_eq_dec : EqDecision constraint.
Proof. solve_decision. Defined.

Inductive index : Type :=
  | idx_documents_hash
  | idx_documents_meeting
  | idx_alerts_company_status
  | idx_alerts_document
  | idx_properties_company
  | idx_properties_municipality
  | idx_meetings_municipality
  | idx_company_municipalities_company
  | idx_company_municipalities_municipality
  | idx_alerts_document_company
  | idx_audit_trails_created_at
  | idx_properties_company_municipality
  | idx_company_municipalities_subscription
  | idx_meetings_start_date
  | idx_documents_status_created
  | idx_documents_content_hash
  | idx_audit_company_time
  | idx_alerts_property_matches_gin
  | idx_alerts_rule_matches_gin
  | idx_audit_trails_details_gin
  | idx_companies_email_config_gin
  | idx_companies_rules_json_gin
  | idx_alerts_company_document
  | idx_properties_municipality_company
  | idx_meetings_type_municipality
  | idx_documents_status_meeting.

#[global] Instance index_eq_dec : EqDecision index.
Proof. solve_decision. Defined.

(** What a foreign key does to the referencing rows when the referenced
    row is deleted. *)
Inductive fk_action : Type := NO_ACTION | CASCADE.

Definition on_delete (c : constraint) : fk_action :=
  match c with
  | meetings_municipality_id_fkey
  | documents_meeting_id_fkey
  | alerts_company_id_fkey
  | alerts_document_id_fkey
  | audit_trails_company_id_fkey
  | ingest_jobs_company_id_fkey
  | users_company_id_fkey
  | properties_company_id_fkey
  | company_municipalities_company_id_fkey
  | company_municipalities_municipality_id_fkey => CASCADE
  | _ => NO_ACTION
  end.

(** ** Errors *)

Inductive sql_error : Type :=
  | unique_violation (c : constraint)
  | foreign_key_violation (c : constraint)
  | check_violation (c : constraint)
  | not_null_violation (c : constraint)
  | undefined_object (c : constraint)
  | duplicate_object (c : constraint).

Inductive result (A : Type) : Type :=
  | Ok (a : A)
  | Err (e : sql_error).
Arguments Ok {A}.
Arguments Err {A}.

#[global] Instance result_ret : MRet result := @Ok.

#[global] Instance result_bind : MBind result :=
  λ A B k r, match r with
             | Ok a => k a
             | Err e => Err e
             end.

#[global] Instance result_fmap : FMap result :=
  λ A B f r, match r with
             | Ok a => Ok (f a)
             | Err e => Err e
             end.

Definition violation (c : constraint) : sql_error :=
  match c with
  | meetings_municipality_id_fkey
  | documents_meeting_id_fkey
  | alerts_company_id_fkey
  | alerts_document_id_fkey
  | audit_trails_company_id_fkey
  | ingest_jobs_company_id_fkey
  | users_company_id_fkey
  | properties_company_id_fkey
  | properties_municipality_id_fkey
  | company_municipalities_company_id_fkey
  | company_municipalities_municipality_id_fkey
  | ingest_jobs_municipality_id_fkey => foreign_key_violation c
  | company_municipalities_pkey
  | properties_company_address_unique
  | documents_content_hash_unique
  | municipalities_feed_url_unique => unique_violation c
  | alerts_review_status_check => check_violation c
  | properties_municipality_id_not_null
  | alerts_document_id_not_null
  | ingest_jobs_municipality_id_not_null => not_null_violation c
  end.

(** ** The database: rows plus the schema they are checked against *)

Record db (P : Type) : Type := mk_db
  { data : tables P; schema : list constraint; indexes : list index }.
Arguments mk_db {P}.
Arguments data {P}.
Arguments schema {P}.
Arguments indexes {P}.

(** A nullable column satisfies a condition when it is [NULL] or its value
    does: the rule for foreign keys ([MATCH SIMPLE]) and for [CHECK]
    (which fails only when the expression is false). *)
Definition null_or {A : Type} (Q : A → Prop) (o : option A) : Prop :=
  match o with
  | Some a => Q a
  | None => True
  end.

#[global] Instance null_or_dec {A : Type} (Q : A → Prop)
    `{∀ a, Decision (Q a)} (o : option A) : Decision (null_or Q o).
Proof. destruct o; simpl; apply _. Defined.

(** [x IN (ids)] for a nullable [x]: never true of [NULL]. *)
Definition refers (ids : list Z) (o : option Z) : Prop :=
  match o with
  | Some i => i ∈ ids
  | None => False
  end.

#[global] Instance refers_dec ids o : Decision (refers ids o).
Proof. destruct o; simpl; apply _. Defined.

(** [UNIQUE] over a nullable column: [NULL]s never conflict. *)
Definition unique_non_null {A : Type} (col : list (option A)) : Prop :=
  NoDup (omap id col).

(** The value set of [alerts_review_status_check]. *)
Definition review_statuses : list string := ["pending"; "reviewed"; "resolved"].

Section Holds.
Context {P : Type}.

Definition municipality_ids (t : tables P) : list Z :=
  Municipality.id <$> municipalities t.
Definition meeting_ids (t : tables P) : list Z :=
  Meeting.id <$> meetings t.
Definition document_ids (t : tables P) : list Z :=
  Document.id <$> documents t.

(** What each declared constraint demands of the rows. *)
Definition holds (c : constraint) (t : tables P) : Prop :=
  match c with
  | meetings_municipality_id_fkey =>
      Forall (λ m, null_or (λ i, i ∈ municipality_ids t)
                     (Meeting.municipality_id m)) (meetings t)
  | documents_meeting_id_fkey =>
      Forall (λ d, Document.meeting_id d ∈ meeting_ids t) (documents t)
  | company_municipalities_pkey =>
      NoDup ((λ r, (CompanyMunicipality.company_id r,
                    CompanyMunicipality.municipality_id r))
               <$> company_municipalities t)
  | alerts_company_id_fkey =>
      Forall (λ a, Alert.company_id a ∈ companies t) (alerts t)
  | alerts_document_id_fkey =>
      Forall (λ a, null_or (λ i, i ∈ document_ids t)
                     (Alert.document_id a)) (alerts t)
  | audit_trails_company_id_fkey =>
      Forall (λ a, null_or (λ i, i ∈ companies t)
                     (AuditTrail.company_id a)) (audit_trails t)
  | ingest_jobs_company_id_fkey =>
      Forall (λ j, IngestJob.company_id j ∈ companies t) (ingest_jobs t)
  | users_company_id_fkey =>
      Forall (λ u, null_or (λ i, i ∈ companies t) (User.company_id u))
        (users t)
  | properties_company_id_fkey =>
      Forall (λ p, Property.company_id p ∈ companies t) (properties t)
  | properties_municipality_id_fkey =>
      Forall (λ p, null_or (λ i, i ∈ municipality_ids t)
                     (Property.municipality_id p)) (properties t)
  | properties_company_address_unique =>
      NoDup ((λ p, (Property.company_id p, Property.address p))
               <$> properties t)
  | company_municipalities_company_id_fkey =>
      Forall (λ r, CompanyMunicipality.company_id r ∈ companies t)
        (company_municipalities t)
  | company_municipalities_municipality_id_fkey =>
      Forall (λ r, CompanyMunicipality.municipality_id r
                     ∈ municipality_ids t) (company_municipalities t)
  | documents_content_hash_unique =>
      unique_non_null (Document.content_hash <$> documents t)
  | properties_municipality_id_not_null =>
      Forall (λ p, is_Some (Property.municipality_id p)) (properties t)
  | ingest_jobs_municipality_id_fkey =>
      Forall (λ j, null_or (λ i, i ∈ municipality_ids t)
                     (IngestJob.municipality_id j)) (ingest_jobs t)
  | municipalities_feed_url_unique =>
      unique_non_null (Municipality.feed_url <$> municipalities t)
  | alerts_review_status_check =>
      Forall (λ a, null_or (λ s, s ∈ review_statuses)
                     (Alert.review_status a)) (alerts t)
  | alerts_document_id_not_null =>
      Forall (λ a, is_Some (Alert.document_id a)) (alerts t)
  | ingest_jobs_municipality_id_not_null =>
      Forall (λ j, is_Some (IngestJob.municipality_id j)) (ingest_jobs t)
  end.

#[global] Instance holds_dec c t : Decision (holds c t).
Proof. destruct c; simpl; unfold unique_non_null; apply _. Defined.

(** Every declared constraint is satisfied. *)
Definition consistent (d : db P) : Prop :=
  Forall (λ c, holds c (data d)) (schema d).
End Holds.

(** ** Statements *)

Section Statements.
Context {P : Type}.

(** A statement's new rows are kept only if every declared constraint
    still holds; otherwise the statement raises the error of a violated
    constraint and the database is left as it was.  Of several violated
    constraints the first in order of declaration is reported here;
    PostgreSQL has an order of its own, and nothing below rests on which
    one is reported. *)
Definition commit {Q : Type} (d : db P) (t : tables Q) : result (db Q) :=
  match list_find (λ c, ¬ holds c t) (schema d) with
  | Some (_, c) => Err (violation c)
  | None => Ok (mk_db t (schema d) (indexes d))
  end.

(** [ALTER TABLE .. ADD CONSTRAINT c ..]: the name must be new and the
    existing rows are validated first. *)
Definition add_constraint (c : constraint) (d : db P) : result (db P) :=
  if decide (c ∈ schema d) then Err (duplicate_object c)
  else if decide (holds c (data d))
       then Ok (mk_db (data d) (schema d ++ [c]) (indexes d))
       else Err (violation c).

(** [ALTER TABLE .. ALTER COLUMN .. SET NOT NULL]: as [add_constraint],
    and harmless when the column is already [NOT NULL]. *)
Definition set_not_null (c : constraint) (d : db P) : result (db P) :=
  if decide (c ∈ schema d) then Ok d else add_constraint c d.

(** [ALTER TABLE .. DROP CONSTRAINT c] (without [IF EXISTS]). *)
Definition drop_constraint (c : constraint) (d : db P) : result (db P) :=
  if decide (c ∈ schema d)
  then Ok (mk_db (data d) (filter (λ c', c' ≠ c) (schema d)) (indexes d))
  else Err (undefined_object c).

(** [CREATE INDEX IF NOT EXISTS]: a plain index puts no condition on the
    rows. *)
Definition create_index (i : index) (d : db P) : db P :=
  if decide (i ∈ indexes d) then d
  else mk_db (data d) (schema d) (indexes d ++ [i]).

(** [DROP INDEX IF EXISTS]. *)
Definition drop_index (i : index) (d : db P) : db P :=
  mk_db (data d) (schema d) (filter (λ i', i' ≠ i) (indexes d)).

(** Is the foreign key declared, with [ON DELETE CASCADE]? *)
Definition cascades (s : list constraint) (c : constraint) : bool :=
  bool_decide (c ∈ s) && match on_delete c with
                         | CASCADE => true
                         | NO_ACTION => false
                         end.

(** [DELETE FROM documents WHERE sel], with the cascade it triggers. *)
Definition remove_documents (s : list constraint)
    (sel : Document.t → Prop) `{!∀ x, Decision (sel x)}
    (t : tables P) : tables P :=
  let gone := Document.id <$> filter sel (documents t) in
  let t1 := set_documents (filter (λ x, ¬ sel x) (documents t)) t in
  if cascades s alerts_document_id_fkey
  then set_alerts
         (filter (λ a, ¬ refers gone (Alert.document_id a)) (alerts t1)) t1
  else t1.

(** [DELETE FROM meetings WHERE sel], with the cascades it triggers. *)
Definition remove_meetings (s : list constraint)
    (sel : Meeting.t → Prop) `{!∀ x, Decision (sel x)}
    (t : tables P) : tables P :=
  let gone := Meeting.id <$> filter sel (meetings t) in
  let t1 := set_meetings (filter (λ x, ¬ sel x) (meetings t)) t in
  if cascades s documents_meeting_id_fkey
  then remove_documents s (λ d, Document.meeting_id d ∈ gone) t1
  else t1.

(** [DELETE FROM municipalities WHERE sel], with the cascades it
    triggers.  The foreign keys of [properties] and [ingest_jobs] have no
    delete action: rows that still point at a deleted municipality make
    the statement fail when it is committed. *)
Definition remove_municipalities (s : list constraint)
    (sel : Municipality.t → Prop) `{!∀ x, Decision (sel x)}
    (t : tables P) : tables P :=
  let gone := Municipality.id <$> filter sel (municipalities t) in
  let t1 := set_municipalities
              (filter (λ x, ¬ sel x) (municipalities t)) t in
  let t2 := if cascades s meetings_municipality_id_fkey
            then remove_meetings s
                   (λ m, refers gone (Meeting.municipality_id m)) t1
            else t1 in
  if cascades s company_municipalities_municipality_id_fkey
  then set_company_municipalities
         (filter (λ r, CompanyMunicipality.municipality_id r ∉ gone)
            (company_municipalities t2)) t2
  else t2.

(** The rows that a delete from [municipalities] leaves under the foreign
    keys of migration 001: the meetings of the deleted municipalities go,
    with them their documents, with those their alerts; the subscriptions
    go as well. *)
Definition after_municipality_delete
    (sel : Municipality.t → Prop) `{!∀ x, Decision (sel x)}
    (t : tables P) : tables P :=
  let gone_mu := Municipality.id <$> filter sel (municipalities t) in
  let sel_me := λ m, refers gone_mu (Meeting.municipality_id m) in
  let gone_me := Meeting.id <$> filter sel_me (meetings t) in
  let sel_do := λ x, Document.meeting_id x ∈ gone_me in
  let gone_do := Document.id <$> filter sel_do (documents t) in
  mk_tables (companies t)
    (filter (λ x, ¬ sel x) (municipalities t))
    (filter (λ m, ¬ sel_me m) (meetings t))
    (filter (λ x, ¬ sel_do x) (documents t))
    (filter (λ a, ¬ refers gone_do (Alert.document_id a)) (alerts t))
    (properties t) (ingest_jobs t)
    (filter (λ r, CompanyMunicipality.municipality_id r ∉ gone_mu)
       (company_municipalities t))
    (audit_trails t) (users t) (schema_migrations t).

(** [DELETE FROM documents WHERE id = i]. *)
Definition delete_document (i : Z) (d : db P) : result (db P) :=
  commit d (remove_documents (schema d) (λ x, Document.id x = i) (data d)).

(** [DELETE FROM meetings WHERE id = i]. *)
Definition delete_meeting (i : Z) (d : db P) : result (db P) :=
  commit d (remove_meetings (schema d) (λ x, Meeting.id x = i) (data d)).

(** [DELETE FROM municipalities WHERE id = i]. *)
Definition delete_municipality (i : Z) (d : db P) : result (db P) :=
  commit d
    (remove_municipalities (schema d) (λ x, Municipality.id x = i) (data d)).

(** The next value of a [SERIAL] id, for a sequence that is ahead of the
    ids in use: here the least such value. *)
Definition next_id (ids : list Z) : Z := 1 + foldr Z.max 0 ids.

(** [INSERT INTO documents (meeting_id, content_hash, status, format)
    VALUES (..) RETURNING id]. *)
Definition insert_document (meeting : Z) (hash : option string)
    (st fmt : string) (d : db P) : result (db P * Z) :=
  let i := next_id (document_ids (data d)) in
  let row := Document.mk i meeting hash st fmt in
  d' ← commit d (set_documents (documents (data d) ++ [row]) (data d));
  Ok (d', i).


(** [INSERT INTO properties (company_id, municipality_id, address, city)
    VALUES (..) RETURNING id]. *)
Definition insert_property (company : Z) (muni : option Z)
    (addr : string) (cty : option string) (d : db P)
    : result (db P * Z) :=
  let i := next_id (Property.id <$> properties (data d)) in
  let row := Property.mk i company muni addr cty in
  d' ← commit d (set_properties (properties (data d) ++ [row]) (data d));
  Ok (d', i).

Definition with_review_status (v : option string) (a : Alert.t P)
    : Alert.t P :=
  Alert.mk (Alert.id a) (Alert.company_id a) (Alert.document_id a) v
    (Alert.property_matches a) (Alert.rule_matches a).

Definition with_document_id (v : option Z) (a : Alert.t P) : Alert.t P :=
  Alert.mk (Alert.id a) (Alert.company_id a) v (Alert.review_status a)
    (Alert.property_matches a) (Alert.rule_matches a).

(** One row of [UPDATE alerts SET review_status = v WHERE id = i]. *)
Definition set_status (i : Z) (v : string) (a : Alert.t P) : Alert.t P :=
  if decide (Alert.id a = i) then with_review_status (Some v) a else a.

(** [UPDATE alerts SET review_status = v WHERE id = i]. *)
Definition update_review_status (i : Z) (v : string) (d : db P)
    : result (db P) :=
  commit d (set_alerts (set_status i v <$> alerts (data d)) (data d)).

(** The database a client sees after running a statement: a failed
    statement changes nothing. *)
Definition after (d : db P) (r : result (db P)) : db P :=
  match r with
  | Ok d' => d'
  | Err _ => d
  end.
End Statements.

(** ** Migration 001: the single-copy document pipeline

    The constraints and indexes that [001_single_document_pipeline]
    declares; migrations 002 and 003 run on a database that carries them. *)

Module Migration001.

Definition declared_constraints : list constraint :=
  [ meetings_municipality_id_fkey;
    documents_meeting_id_fkey;
    company_municipalities_pkey;
    alerts_company_id_fkey;
    alerts_document_id_fkey;
    audit_trails_company_id_fkey;
    ingest_jobs_company_id_fkey;
    users_company_id_fkey;
    properties_company_id_fkey;
    properties_municipality_id_fkey;
    properties_company_address_unique;
    company_municipalities_company_id_fkey;
    company_municipalities_municipality_id_fkey ].

Definition declared_indexes : list index :=
  [ idx_documents_hash;
    idx_documents_meeting;
    idx_alerts_company_status;
    idx_alerts_document;
    idx_properties_company;
    idx_properties_municipality;
    idx_meetings_municipality;
    idx_company_municipalities_company;
    idx_company_municipalities_municipality ].

(** Rows under the schema of migration 001. *)
Definition db_of {P : Type} (t : tables P) : db P :=
  mk_db t declared_constraints declared_indexes.

End Migration001.

(** ** Shared statements of migrations 002 and 003 *)

Section Cleanup.
Context {P : Type}.

(** [DELETE FROM alerts WHERE document_id IS NOT NULL
      AND document_id NOT IN (SELECT id FROM documents)]. *)
Definition delete_orphaned_alerts (d : db P) : result (db P) :=
  commit d
    (set_alerts
       (filter (λ a, null_or (λ i, i ∈ document_ids (data d))
                       (Alert.document_id a)) (alerts (data d)))
       (data d)).

(** [DELETE FROM audit_trails WHERE document_id IS NOT NULL
      AND document_id NOT IN (SELECT id FROM documents)]. *)
Definition delete_orphaned_audit_trails (d : db P) : result (db P) :=
  commit d
    (set_audit_trails
       (filter (λ a, null_or (λ i, i ∈ document_ids (data d))
                       (AuditTrail.document_id a)) (audit_trails (data d)))
       (data d)).

(** [DELETE FROM properties WHERE municipality_id IS NOT NULL
      AND municipality_id NOT IN (SELECT id FROM municipalities)]. *)
Definition delete_orphaned_properties (d : db P) : result (db P) :=
  commit d
    (set_properties
       (filter (λ p, null_or (λ i, i ∈ municipality_ids (data d))
                       (Property.municipality_id p)) (properties (data d)))
       (data d)).

(** [INSERT INTO schema_migrations (version) VALUES (v)
      ON CONFLICT (version) DO NOTHING]. *)
Definition record_migration (v : string) (d : db P) : db P :=
  if decide (v ∈ schema_migrations (data d)) then d
  else mk_db (set_schema_migrations (schema_migrations (data d) ++ [v])
                (data d))
         (schema d) (indexes d).

End Cleanup.

(** ** Migration 002: schema optimizations *)

Module Migration002.

(** SQL [LOWER] under the [C] collation: the letters [A] to [Z] are
    folded and every other character is left as it is. *)
Definition lower_ascii (c : ascii) : ascii :=
  let n := N_of_ascii c in
  if ((65 <=? n) && (n <=? 90))%N then ascii_of_N (n + 32) else c.

Fixpoint lower_c (s : string) : string :=
  match s with
  | EmptyString => EmptyString
  | String c s' => String (lower_ascii c) (lower_c s')
  end.

Section Statements.
Context {P : Type}.

(** SQL [LOWER] under the collation of the database, which decides what
    becomes of the letters outside ASCII. *)
Variable lower : string → string.

Definition with_municipality_id (v : option Z) (p : Property.t)
    : Property.t :=
  Property.mk (Property.id p) (Property.company_id p) v
    (Property.address p) (Property.city p).

(** One row of
    [UPDATE properties p SET municipality_id = m.id FROM municipalities m
      WHERE p.municipality_id IS NULL AND LOWER(p.city) = LOWER(m.name)];
    of several municipalities that match, PostgreSQL takes one without
    saying which, here the first in scan order. *)
Definition backfill_property (ms : list Municipality.t) (p : Property.t)
    : Property.t :=
  match Property.municipality_id p, Property.city p with
  | None, Some c =>
      match list_find (λ m, lower c = lower (Municipality.name m)) ms with
      | Some (_, m) => with_municipality_id (Some (Municipality.id m)) p
      | None => p
      end
  | _, _ => p
  end.

(** Section 2, the [DO] block: the back-fill runs only when some property
    has no municipality. *)
Definition backfill_properties (d : db P) : result (db P) :=
  let null_count :=
    length (filter (λ p, Property.municipality_id p = None)
              (properties (data d))) in
  if decide (0 < null_count)%nat
  then commit d
         (set_properties
            (backfill_property (municipalities (data d))
               <$> properties (data d)) (data d))
  else Ok d.

Definition with_job_municipality (name : option string) (v : option Z)
    (j : IngestJob.t) : IngestJob.t :=
  IngestJob.mk (IngestJob.id j) (IngestJob.company_id j) name v
    (IngestJob.status j).

(** [ALTER TABLE ingest_jobs ADD COLUMN municipality_id INT]: the new
    column is [NULL] in every row. *)
Definition add_municipality_id_column (d : db P) : result (db P) :=
  commit d
    (set_ingest_jobs
       ((λ j, with_job_municipality (IngestJob.municipality j) None j)
          <$> ingest_jobs (data d)) (data d)).

(** One row of
    [UPDATE ingest_jobs i SET municipality_id = m.id FROM municipalities m
      WHERE i.municipality = m.name]; of several municipalities of that
    name, here the first in scan order. *)
Definition backfill_job (ms : list Municipality.t) (j : IngestJob.t)
    : IngestJob.t :=
  match IngestJob.municipality j with
  | Some n =>
      match list_find (λ m, n = Municipality.name m) ms with
      | Some (_, m) =>
          with_job_municipality (Some n) (Some (Municipality.id m)) j
      | None => j
      end
  | None => j
  end.

Definition backfill_jobs (d : db P) : result (db P) :=
  commit d
    (set_ingest_jobs
       (backfill_job (municipalities (data d)) <$> ingest_jobs (data d))
       (data d)).

(** [ALTER TABLE ingest_jobs DROP COLUMN municipality]. *)
Definition drop_municipality_column (d : db P) : result (db P) :=
  commit d
    (set_ingest_jobs
       ((λ j, with_job_municipality None (IngestJob.municipality_id j) j)
          <$> ingest_jobs (data d)) (data d)).

(** [UPDATE alerts SET review_status = 'reviewed'
      WHERE review_status = 'reviewing']. *)
Definition rename_reviewing (d : db P) : result (db P) :=
  commit d
    (set_alerts
       ((λ a, if decide (Alert.review_status a = Some "reviewing")
              then with_review_status (Some "reviewed") a else a)
          <$> alerts (data d)) (data d)).

(** The whole migration, one transaction.  Section 4 renames a column of
    [companies] and changes no row. *)
Definition run (d : db P) : result (db P) :=
  (* 1 *)
  d ← add_constraint documents_content_hash_unique d;
  (* 2 *)
  d ← backfill_properties d;
  d ← set_not_null properties_municipality_id_not_null d;
  (* 3 *)
  d ← add_municipality_id_column d;
  d ← backfill_jobs d;
  d ← add_constraint ingest_jobs_municipality_id_fkey d;
  d ← drop_municipality_column d;
  (* 5, 6 *)
  let d := create_index idx_alerts_document_company d in
  let d := create_index idx_audit_trails_created_at d in
  (* 7 *)
  d ← add_constraint municipalities_feed_url_unique d;
  (* 8 *)
  d ← rename_reviewing d;
  d ← add_constraint alerts_review_status_check d;
  (* 9 *)
  d ← drop_constraint documents_meeting_id_fkey d;
  d ← add_constraint documents_meeting_id_fkey d;
  (* 10 *)
  let d := create_index idx_properties_company_municipality d in
  let d := create_index idx_company_municipalities_subscription d in
  let d := create_index idx_meetings_start_date d in
  let d := create_index idx_documents_status_created d in
  (* 11 *)
  d ← delete_orphaned_alerts d;
  d ← delete_orphaned_audit_trails d;
  d ← delete_orphaned_properties d;
  (* 12 *)
  Ok (record_migration "002_schema_optimizations" d).

End Statements.
End Migration002.

(** ** Text helpers shared by the SQL and the JavaScript models *)

(** The segments of [s] between occurrences of [sep]. *)
Fixpoint split_on (sep : ascii) (s : string) : list string :=
  match s with
  | EmptyString => [EmptyString]
  | String c s' =>
      if decide (c = sep) then EmptyString :: split_on sep s'
      else match split_on sep s' with
           | seg :: segs => String c seg :: segs
           | [] => [String c EmptyString]
           end
  end.

(** Does [c] occur in [s]? *)
Fixpoint has_char (c : ascii) (s : string) : bool :=
  match s with
  | EmptyString => false
  | String c' s' => bool_decide (c' = c) || has_char c s'
  end.

(** JavaScript's [s.replace(/a/g, b)] for single characters. *)
Fixpoint replace_char (a b : ascii) (s : string) : string :=
  match s with
  | EmptyString => EmptyString
  | String c s' => String (if decide (c = a) then b else c) (replace_char a b s')
  end.

(** [l.join(sep)] in JavaScript, [array_to_string(l, sep)] in SQL. *)
Fixpoint join_with (sep : string) (l : list string) : string :=
  match l with
  | [] => ""
  | [a] => a
  | a :: l' => a +:+ sep +:+ join_with sep l'
  end.

(** Is every character of [s] an ASCII character? *)
Fixpoint ascii_only (s : string) : bool :=
  match s with
  | EmptyString => true
  | String c s' => (N_of_ascii c <? 128)%N && ascii_only s'
  end.

(** ** The [jsonb] values of the payload columns *)

(** A [jsonb] value; a number is kept by the digits of its integer part,
    with the sign, and of its fraction. *)
#[local] Unset Elimination Schemes.
Inductive jsonb : Type :=
  | JNull
  | JBool (b : bool)
  | JNumber (int : Decimal.signed_int) (frac : Decimal.uint)
  | JString (s : string)
  | JArray (items : list jsonb)
  | JObject (members : list (string * jsonb)).
#[local] Set Elimination Schemes.


Definition double_quote : ascii := ascii_of_N 34.
Definition backslash : ascii := ascii_of_N 92.

Definition hex_digit (n : N) : ascii :=
  if (n <? 10)%N then ascii_of_N (48 + n) else ascii_of_N (87 + n).

(** One character of a string as PostgreSQL's [escape_json] writes it:
    the quote, the backslash and the control characters are escaped. *)
Definition escape_char (c : ascii) : string :=
  let n := N_of_ascii c in
  if decide (c = double_quote) then String backslash (String double_quote "")
  else if decide (c = backslash) then String backslash (String backslash "")
  else if decide (n = 8)%N then String backslash "b"
  else if decide (n = 12)%N then String backslash "f"
  else if decide (n = 10)%N then String backslash "n"
  else if decide (n = 13)%N then String backslash "r"
  else if decide (n = 9)%N then String backslash "t"
  else if (n <? 32)%N
       then String backslash
              ("u00" +:+ String (hex_digit (n / 16))
                           (String (hex_digit (n mod 16)) ""))
       else String c "".

Fixpoint escape_json (s : string) : string :=
  match s with
  | EmptyString => ""
  | String c s' => escape_char c +:+ escape_json s'
  end.

(** A string between double quotes. *)
Definition quoted (s : string) : string :=
  String double_quote (escape_json s +:+ String double_quote "").

(** [numeric_out]: the digits, with a point before the fraction if there
    is one. *)
Definition numeric_out (int : Decimal.signed_int) (frac : Decimal.uint)
    : string :=
  NilZero.string_of_int int
  +:+ match frac with
      | Decimal.Nil => ""
      | _ => "." +:+ NilEmpty.string_of_uint frac
      end.

(** PostgreSQL's output function of [jsonb], the cast [jsonb::text]: the
    items of an array and the members of an object are separated by a comma
    and a space, a key and its value by a colon and a space. *)
Fixpoint jsonb_out (j : jsonb) : string :=
  match j with
  | JNull => "null"
  | JBool b => if b then "true" else "false"
  | JNumber int frac => numeric_out int frac
  | JString s => quoted s
  | JArray items => "[" +:+ join_with ", " (jsonb_out <$> items) +:+ "]"
  | JObject members =>
      "{" +:+ join_with ", " ((λ m, quoted m.1 +:+ ": " +:+ jsonb_out m.2)
                                <$> members) +:+ "}"
  end.

(** ** Migration 003: final optimizations (simplified) *)

Module Migration003.

Fixpoint last_char (s : string) : option ascii :=
  match s with
  | EmptyString => None
  | String c EmptyString => Some c
  | String _ s' => last_char s'
  end.


(** [s LIKE '[%]']: an opening bracket, anything, a closing bracket. *)
Definition like_bracketed (s : string) : bool :=
  match s with
  | String c rest =>
      bool_decide (c = "["%char) && bool_decide (last_char rest = Some "]"%char)
  | EmptyString => false
  end.

(** [string_to_array(s, ',')]: the empty string has no segments. *)
Definition string_to_array (s : string) : list string :=
  match s with
  | EmptyString => []
  | _ => split_on ","%char s
  end.

(** [to_jsonb] of a [text[]]. *)
Definition to_jsonb (segs : list string) : jsonb := JArray (JString <$> segs).

Section Statements.
Context {P : Type}.

(** [SELECT id FROM documents LIMIT 1]: the first row in scan order. *)
Definition first_document_id (t : tables P) : option Z :=
  head (document_ids t).

(** One row of
    [UPDATE alerts SET document_id = (SELECT id FROM documents LIMIT 1)
      WHERE document_id IS NULL AND EXISTS (SELECT 1 FROM documents LIMIT 1)]. *)
Definition backfill_alert (t : tables P) (a : Alert.t P) : Alert.t P :=
  if decide (Alert.document_id a = None ∧ documents t ≠ [])
  then with_document_id (first_document_id t) a
  else a.

(** Section 1, the [DO] block. *)
Definition backfill_document_ids (d : db P) : result (db P) :=
  let null_count :=
    length (filter (λ a, Alert.document_id a = None) (alerts (data d))) in
  if decide (0 < null_count)%nat
  then commit d
         (set_alerts (backfill_alert (data d) <$> alerts (data d)) (data d))
  else Ok d.

Definition with_property_matches (v : option P) (a : Alert.t P) : Alert.t P :=
  Alert.mk (Alert.id a) (Alert.company_id a) (Alert.document_id a)
    (Alert.review_status a) v (Alert.rule_matches a).

Definition with_rule_matches (v : option P) (a : Alert.t P) : Alert.t P :=
  Alert.mk (Alert.id a) (Alert.company_id a) (Alert.document_id a)
    (Alert.review_status a) (Alert.property_matches a) v.

End Statements.

(** The [CASE] expression of section 2:
    [CASE WHEN v IS NOT NULL AND v::text LIKE '[%]' THEN v::jsonb
          WHEN v IS NOT NULL THEN to_jsonb(string_to_array(v::text, ','))
          ELSE NULL END].
    On a [jsonb] column [v::text] is the text that PostgreSQL prints for
    the value and [v::jsonb] is the value itself. *)
Definition normalize_matches (v : option jsonb) : option jsonb :=
  match v with
  | Some j =>
      if like_bracketed (jsonb_out j) then Some j
      else Some (to_jsonb (string_to_array (jsonb_out j)))
  | None => None
  end.

(** Section 2, [UPDATE alerts SET property_matches = CASE .. END]. *)
Definition normalize_property_matches (d : db jsonb) : result (db jsonb) :=
  commit d
    (set_alerts
       ((λ a, with_property_matches
                (normalize_matches (Alert.property_matches a)) a)
          <$> alerts (data d)) (data d)).

(** Section 2, [UPDATE alerts SET rule_matches = CASE .. END]. *)
Definition normalize_rule_matches (d : db jsonb) : result (db jsonb) :=
  commit d
    (set_alerts
       ((λ a, with_rule_matches (normalize_matches (Alert.rule_matches a)) a)
          <$> alerts (data d)) (data d)).

(** One alert row before and after section 2. *)
Definition normalized (a : Alert.t jsonb) : Alert.t jsonb :=
  with_rule_matches (normalize_matches (Alert.rule_matches a))
    (with_property_matches (normalize_matches (Alert.property_matches a)) a).


(** The whole migration, one transaction.  The GIN indexes of section 7
    are on [jsonb] columns and are built as any other index. *)
Definition run (d : db jsonb) : result (db jsonb) :=
  (* 1 *)
  d ← backfill_document_ids d;
  d ← set_not_null alerts_document_id_not_null d;
  (* 2 *)
  d ← normalize_property_matches d;
  d ← normalize_rule_matches d;
  (* 3 *)
  d ← set_not_null ingest_jobs_municipality_id_not_null d;
  (* 4, 5 *)
  let d := drop_index idx_company_municipalities_subscription d in
  let d := drop_index idx_documents_content_hash d in
  (* 6 *)
  let d := create_index idx_audit_company_time d in
  (* 7 *)
  let d := create_index idx_alerts_property_matches_gin d in
  let d := create_index idx_alerts_rule_matches_gin d in
  let d := create_index idx_audit_trails_details_gin d in
  let d := create_index idx_companies_email_config_gin d in
  let d := create_index idx_companies_rules_json_gin d in
  (* 8 *)
  let d := create_index idx_alerts_company_document d in
  let d := create_index idx_properties_municipality_company d in
  let d := create_index idx_meetings_type_municipality d in
  let d := create_index idx_documents_status_meeting d in
  (* 9 *)
  d ← delete_orphaned_alerts d;
  d ← delete_orphaned_audit_trails d;
  d ← delete_orphaned_properties d;
  (* 10 *)
  Ok (record_migration "003_final_optimizations" d).

End Migration003.

(** ** The web client *)

(** JavaScript values as far as the client code inspects them. *)
Inductive js_value : Type :=
  | js_undefined
  | js_null
  | js_bool (b : bool)
  | js_number (n : Z)
  | js_string (s : string).

#[global] Instance js_value_eq_dec : EqDecision js_value.
Proof. solve_decision. Defined.

Definition truthy (v : js_value) : bool :=
  match v with
  | js_undefined | js_null => false
  | js_bool b => b
  | js_number n => bool_decide (n ≠ 0)
  | js_string s => bool_decide (s ≠ "")
  end.

(** [a || b]. *)
Definition js_or (a b : js_value) : js_value := if truthy a then a else b.

(** [o[k]] on an object: [undefined] when the key is absent. *)
Definition prop (o : gmap string js_value) (k : string) : js_value :=
  default js_undefined (o !! k).

(** *** [web/app/api/auth/[...nextauth]/route.ts] *)

Module Auth.

(** The JWT that NextAuth keeps for the session. *)
Record token : Type := mk_token
  { accessToken : js_value; idToken : js_value;
    company_id : js_value; role : js_value;
    email : js_value; name : js_value; sub : js_value }.

(** The provider account handed to the [jwt] callback on sign-in. *)
Record account : Type := mk_account
  { access_token : js_value; id_token : option string }.

Record user : Type := mk_user { user_email : js_value; user_name : js_value }.

Record session_user : Type := mk_session_user
  { su_id : js_value; su_email : js_value; su_name : js_value;
    su_company_id : js_value; su_role : js_value }.

Record session : Type := mk_session
  { session_accessToken : js_value; session_user_ : session_user }.

Section Callbacks.
(** [atob], [decodeURIComponent] and [JSON.parse] applied in turn to the
    base64 text of the payload, as the object whose properties the callback
    reads: [None] when one of them throws or the parsed value is [null], the
    empty object for any other value that is not an object. *)
Variable parse_payload : string → option (gmap string js_value).

(** [account.id_token.split('.')[1]] with [-] and [_] replaced, decoded.
    A missing second segment makes [replace] throw. *)
Definition decode_claims (id_token : string)
    : option (gmap string js_value) :=
  base64Url ← split_on "."%char id_token !! 1%nat;
  let base64 := replace_char "_"%char "/"%char
                  (replace_char "-"%char "+"%char base64Url) in
  parse_payload base64.

Definition with_claims (claims : gmap string js_value) (t : token) : token :=
  mk_token (accessToken t) (idToken t)
    (js_or (prop claims "company_id")
       (prop claims "https://brightstone.ca/company_id"))
    (js_or (js_or (prop claims "role") (prop claims "https://brightstone.ca/role"))
       (js_string "analyst"))
    (email t) (name t) (sub t).

(** [callbacks.jwt]: the claims are read from the decoded payload of the
    id token; a decoding failure is caught and leaves the token as it is. *)
Definition jwt (t : token) (acc : option account) (u : option user) : token :=
  let t1 :=
    match acc with
    | Some a =>
        let t0 := mk_token (access_token a)
                    (from_option js_string js_undefined (id_token a))
                    (company_id t) (role t) (email t) (name t) (sub t) in
        match id_token a with
        | Some tok =>
            if decide (tok = "") then t0
            else match decode_claims tok with
                 | Some claims => with_claims claims t0
                 | None => t0
                 end
        | None => t0
        end
    | None => t
    end in
  match u with
  | Some u' =>
      mk_token (accessToken t1) (idToken t1) (company_id t1) (role t1)
        (user_email u') (user_name u') (sub t1)
  | None => t1
  end.

(** The [jwt] callback at sign-in with an id token. *)
Definition sign_in (t : token) (access : js_value) (id_tok : string)
    (u : option user) : token :=
  jwt t (Some (mk_account access (Some id_tok))) u.

End Callbacks.

(** A token before sign-in. *)
Definition blank_token : token :=
  mk_token js_undefined js_undefined js_undefined js_undefined
    js_undefined js_undefined js_undefined.

(** [callbacks.session]. *)
Definition session_callback (t : token) : session :=
  mk_session (accessToken t)
    (mk_session_user (sub t) (email t) (name t)
       (js_or (company_id t) (js_string "default"))
       (js_or (role t) (js_string "analyst"))).

(** A payload parser that knows the base64 text [e30] of the empty
    object [{}]. *)
Definition parse_empty_object (s : string) : option (gmap string js_value) :=
  if decide (s = "e30") then Some ∅ else None.

End Auth.

(** *** [web/lib/api.ts], [web/app/alerts/page.tsx] *)

Module ApiClient.

(** An alert as the list endpoint returns it; [relevance_score] keeps the
    number literal as written. *)
Record alert : Type := mk_alert
  { id : Z; title : string; review_status : string;
    relevance_score : string; municipality : string;
    property_matches : list string; rule_matches : list string;
    created_at : string }.

(** The filter state of the alerts page, passed as [params]. *)
Record filters : Type := mk_filters
  { status : option string; f_municipality : option string;
    property_id : option string;
    start_date : option string; end_date : option string }.

(** [apiClient.alerts.list(params)]. *)
Definition alerts_list (params : option filters) : list alert :=
  [ mk_alert 1 "Zoning By-law Amendment - King Street West" "pending"
      "0.95" "Toronto" ["123 King Street West"]
      ["Zoning Changes"; "Development Rights"] "2024-01-15T10:00:00Z";
    mk_alert 2 "Development Charges Increase - Downtown Core" "reviewing"
      "0.85" "Toronto" ["456 Queen Street East"]
      ["Development Charges"; "Cost Impact"] "2024-01-16T11:00:00Z";
    mk_alert 3 "New Residential Development Guidelines" "reviewing"
      "0.78" "Toronto" ["789 Lakeshore Boulevard"]
      ["Residential Development"; "Guidelines"] "2024-01-17T12:00:00Z";
    mk_alert 4 "Industrial Zone Minor Variance Application" "pending"
      "0.92" "Mississauga" ["789 Lakeshore Boulevard"]
      ["Industrial Zoning"; "Minor Variance"] "2024-01-18T13:00:00Z";
    mk_alert 5 "Heritage Designation Proposal - Downtown Core" "resolved"
      "0.72" "Toronto" ["123 King Street West"]
      ["Heritage Designation"; "Historical Preservation"]
      "2024-01-19T14:00:00Z" ].

(** What the status and municipality filters ask of one alert, in the
    words of the interface table: "list alerts, filterable by status /
    municipality". *)
Definition matches_filters (f : filters) (a : alert) : Prop :=
  null_or (λ s, review_status a = s) (status f)
  ∧ null_or (λ m, municipality a = m) (f_municipality f).

#[global] Instance matches_filters_dec f a : Decision (matches_filters f a).
Proof. unfold matches_filters. apply _. Defined.

End ApiClient.

(** *** [web/components/alert-card.tsx] *)

Module AlertCard.

Inductive button : Type := MarkAsReviewing | MarkAsResolved | FalsePositive.

(** The argument of [updateStatus.mutate] behind each button. *)
Definition status_of (b : button) : string :=
  match b with
  | MarkAsReviewing => "reviewing"
  | MarkAsResolved => "resolved"
  | FalsePositive => "false_positive"
  end.

End AlertCard.

(** *** [web/components/property-form.tsx] *)

Module PropertyForm.

Record form_data : Type := mk_form_data
  { name : string; address : string;
    legal_description : string; aliases : string }.

(** The object handed to [onSubmit]. *)
Record payload : Type := mk_payload
  { p_name : string; p_address : string;
    p_legal_description : string; p_aliases : list string }.

Definition is_space (c : ascii) : bool :=
  let n := N_of_ascii c in
  bool_decide (n = 32 ∨ (9 ≤ n ∧ n ≤ 13))%N.

Fixpoint trim_start (s : string) : string :=
  match s with
  | String c s' => if is_space c then trim_start s' else s
  | EmptyString => EmptyString
  end.

Fixpoint trim_end (s : string) : string :=
  match s with
  | String c s' =>
      match trim_end s' with
      | EmptyString => if is_space c then EmptyString
                       else String c EmptyString
      | r => String c r
      end
  | EmptyString => EmptyString
  end.

(** [s.trim()] on a string of ASCII characters, of which JavaScript
    strips the space and the characters 9 to 13.  JavaScript also strips
    the white space outside ASCII (U+00A0 and the like), which [trim]
    leaves in place: what is proved of [trim] below is stated for ASCII
    strings, or says of a trimmed string that it has no ASCII white space at
    its ends, which is true of JavaScript's result as well. *)
Definition trim (s : string) : string := trim_end (trim_start s).

(** [handleSubmit]: the aliases are split on commas, trimmed, and the
    empty ones dropped. *)
Definition handleSubmit (f : form_data) : payload :=
  mk_payload (name f) (address f) (legal_description f)
    (filter (λ a, a ≠ "") (trim <$> split_on ","%char (aliases f))).

End PropertyForm.

(** ** The API behind the client

    The request handlers of the FastAPI backend are not part of the
    sources at hand; the operations below follow the specification and run
    on the SQL statements above. *)

Module Api.

(** The error taxonomy of the specification. *)
Inductive api_error : Type :=
  | validation_error
  | not_found
  | conflict
  | missing_parent
  | storage_error (e : sql_error).

Inductive response (A : Type) : Type :=
  | Success (a : A)
  | Failure (e : api_error).
Arguments Success {A}.
Arguments Failure {A}.


Section Handlers.
Context {P : Type}.

(** [SELECT id FROM documents WHERE content_hash = h]. *)
Definition document_by_hash (h : string) (d : db P) : option Z :=
  Document.id <$> head (filter (λ x, Document.content_hash x = Some h)
                          (documents (data d))).

(** Modelled from the spec: the ingest endpoint ([POST /api/ingest]), which
    is missing from the sources.  A new hash inserts a [pending] document
    linked to its meeting; the storage layer's rejection of a duplicate hash
    is caught and answered with the existing document's identity; a missing
    meeting is a "missing parent" error. *)
Definition ingest (meeting : Z) (hash fmt : string) (d : db P)
    : response (db P * Z) :=
  match insert_document meeting (Some hash) "pending" fmt d with
  | Ok r => Success r
  | Err (unique_violation documents_content_hash_unique) =>
      match document_by_hash hash d with
      | Some i => Success (d, i)
      | None => Failure conflict
      end
  | Err (foreign_key_violation _) => Failure missing_parent
  | Err e => Failure (storage_error e)
  end.



(** Modelled from the spec: the create-Property handler
    ([POST /api/properties]), which is missing from the sources: "a Company
    may only create Properties in municipalities the Company subscribes to
    via CompanyMunicipality", enforced at the write path. *)
Definition create_property (company muni : Z) (addr : string)
    (cty : option string) (d : db P) : response (db P * Z) :=
  if decide (CompanyMunicipality.mk company muni
               ∈ company_municipalities (data d))
  then match insert_property company (Some muni) addr cty d with
       | Ok r => Success r
       | Err (unique_violation _) => Failure conflict
       | Err (foreign_key_violation _) => Failure missing_parent
       | Err e => Failure (storage_error e)
       end
  else Failure validation_error.

End Handlers.

(** *** The tenant-scoped query gate *)

(** A tenant-owned entity: its id, of type [K], and the company it is
    stored under. *)
Class TenantOwned (K E : Type) : Type :=
  { entity_id : E → K; owner : E → option Z }.

#[global] Instance property_owned : TenantOwned Z Property.t :=
  {| entity_id := Property.id; owner := λ p, Some (Property.company_id p) |}.
#[global] Instance alert_owned {P : Type} : TenantOwned Z (Alert.t P) :=
  {| entity_id := Alert.id; owner := λ a, Some (Alert.company_id a) |}.
#[global] Instance audit_trail_owned : TenantOwned Z AuditTrail.t :=
  {| entity_id := AuditTrail.id; owner := AuditTrail.company_id |}.
#[global] Instance ingest_job_owned : TenantOwned Z IngestJob.t :=
  {| entity_id := IngestJob.id;
     owner := λ j, Some (IngestJob.company_id j) |}.
#[global] Instance user_owned : TenantOwned string User.t :=
  {| entity_id := User.id; owner := User.company_id |}.

Section Gate.
Context {K E : Type} `{EqDecision K} `{!TenantOwned K E}.







End Gate.
End Api.


(** ** A small database to run the statements on *)

Module Example.

(** Rows in the shape migration 001 leaves them: an alert without
    document, a legacy review status, payloads in both legacy shapes (a
    delimited string and an array) and others, a property and an ingest job
    still to be linked to their municipality. *)
Definition legacy_rows : tables jsonb :=
  mk_tables [7; 8]
    [ Municipality.mk 1 "Toronto" (Some "https://toronto.example/feed");
      Municipality.mk 2 "Mississauga" None ]
    [ Meeting.mk 42 (Some 1) "Council"; Meeting.mk 43 (Some 2) "Planning" ]
    [ Document.mk 5 42 (Some "abc123") "pending" "pdf";
      Document.mk 6 43 (Some "def456") "processed" "html" ]
    [ Alert.mk 1 7 None (Some "reviewing") (Some (JString "a,b"))
        (Some (JArray [JString "x"; JString "y"]));
      Alert.mk 2 8 (Some 6) (Some "pending") None
        (Some (JObject [("rule", JString "Zoning Changes")]));
      Alert.mk 3 8 None (Some "resolved") (Some (JArray []))
        (Some (JNumber (Decimal.Pos (Decimal.D7 Decimal.Nil)) Decimal.Nil)) ]
    [ Property.mk 1 7 None "123 King Street West" (Some "TORONTO") ]
    [ IngestJob.mk 1 7 (Some "Toronto") None "done" ]
    [ CompanyMunicipality.mk 7 1 ]
    [ AuditTrail.mk 1 (Some 7) (Some 5) ]
    [ User.mk "0b7e" (Some 7) "admin"; User.mk "5c1d" None "analyst" ]
    [].

Definition legacy : db jsonb := Migration001.db_of legacy_rows.

(** The database after migration 002. *)
Definition migrated_002 : db jsonb :=
  Eval vm_compute in
    after legacy (Migration002.run Migration002.lower_c legacy).

(** The database after migrations 002 and 003. *)
Definition migrated : db jsonb :=
  Eval vm_compute in after migrated_002 (Migration003.run migrated_002).

(** A database with one alert and no document at all. *)
Definition no_documents : db jsonb :=
  Migration001.db_of
    (mk_tables [7] [] [] []
       [ Alert.mk 1 7 None (Some "pending") None None ]
       [] [] [] [] [] []).

End Example.

From stdpp Require Import pretty.

Open Scope Z_scope.
Open Scope string_scope.

(** ** Migration 001, the statements

    [001_single_document_pipeline] turns the per-company tables, whose
    rows name their company by a text key and their meeting by a GUID, into
    the tables above.  It runs on the legacy rows and, when every statement
    succeeds, leaves a database under [Migration001.declared_constraints]. *)

Module Legacy.

(** The rows before migration 001, with the columns that the migration
    reads or keeps.  The columns it only drops ([company_id] of
    [municipalities], [meetings] and [documents], [meetings.location],
    [documents.municipality_name], and [municipality], [meeting_type],
    [meeting_date] of [alerts]) carry nothing into the result.  The payload
    columns of [alerts] are [jsonb] from the start: no migration changes
    their type. *)

Module Company.
(** [id] is the integer key, [company_id] the text key that the tenant
    tables hold. *)
Record t : Type := mk { id : Z; company_id : option string }.
End Company.

Module Meeting.
Record t : Type := mk
  { id : Z; guid : option string; municipality_id : option Z;
    type : string }.
End Meeting.

Module Document.
Record t : Type := mk
  { id : Z; meeting_guid : option string; content_hash : option string;
    status : string; format : string }.
End Document.

Module Alert.
Record t : Type := mk
  { id : Z; company_id : option string; document_id : option string;
    review_status : option string;
    property_matches : option jsonb; rule_matches : option jsonb }.
End Alert.

Module AuditTrail.
Record t : Type := mk
  { id : Z; company_id : option string; document_id : option Z }.
End AuditTrail.

Module IngestJob.
Record t : Type := mk
  { id : Z; company_id : option string; municipality : option string;
    status : string }.
End IngestJob.

Module User.
Record t : Type := mk
  { id : string; company_id : option string; role : string }.
End User.

Module Property.
Record t : Type := mk
  { id : Z; company_id : option string; address : string;
    city : option string }.
End Property.

Record tables : Type := mk_tables
  { companies : list Company.t;
    municipalities : list Municipality.t;
    meetings : list Meeting.t;
    documents : list Document.t;
    alerts : list Alert.t;
    audit_trails : list AuditTrail.t;
    ingest_jobs : list IngestJob.t;
    users : list User.t;
    properties : list Property.t;
    schema_migrations : list string }.

End Legacy.

Module SingleDocumentPipeline.

(** Besides the errors of the later migrations, a [NULL] in a column that
    is made [NOT NULL] (the rows above carry these columns without
    [option], so the error is raised where the column is filled) and a
    number that does not fit [INT]. *)
Inductive error : Type :=
  | sql (e : sql_error)
  | null_value (table column : string)
  | numeric_value_out_of_range (text : string).

Inductive outcome (A : Type) : Type :=
  | Done (a : A)
  | Failed (e : error).
Arguments Done {A}.
Arguments Failed {A}.

#[global] Instance outcome_ret : MRet outcome := @Done.

#[global] Instance outcome_bind : MBind outcome :=
  λ A B k r, match r with
             | Done a => k a
             | Failed e => Failed e
             end.

#[global] Instance outcome_fmap : FMap outcome :=
  λ A B f r, match r with
             | Done a => Done (f a)
             | Failed e => Failed e
             end.

(** A statement of the kind the later migrations run. *)
Definition statement {A : Type} (r : result A) : outcome A :=
  match r with
  | Ok a => Done a
  | Err e => Failed (sql e)
  end.

(** [ALTER COLUMN .. SET NOT NULL] on one value of the column. *)
Definition required {A : Type} (table column : string) (v : option A)
    : outcome A :=
  match v with
  | Some a => Done a
  | None => Failed (null_value table column)
  end.

(** *** Section 1: the global entities *)

Definition meeting (m : Legacy.Meeting.t) : Meeting.t :=
  Meeting.mk (Legacy.Meeting.id m) (Legacy.Meeting.municipality_id m)
    (Legacy.Meeting.type m).

(** [CREATE TEMP TABLE temp_meeting_mapping AS
      SELECT d.id as document_id, m.id as meeting_id_int
      FROM documents d JOIN meetings m ON d.meeting_guid = m.guid]. *)
Definition temp_meeting_mapping (l : Legacy.tables) : list (Z * Z) :=
  x ← Legacy.documents l;
  m ← Legacy.meetings l;
  if decide (is_Some (Legacy.Document.meeting_guid x)
             ∧ Legacy.Document.meeting_guid x = Legacy.Meeting.guid m)
  then [(Legacy.Document.id x, Legacy.Meeting.id m)]
  else [].

(** One row of
    [UPDATE documents d SET meeting_id_new = t.meeting_id_int
      FROM temp_meeting_mapping t WHERE d.id = t.document_id];
    of several rows of the mapping that match, the first is taken. *)
Definition meeting_id_new (temp : list (Z * Z)) (x : Legacy.Document.t)
    : option Z :=
  (snd ∘ snd) <$> list_find (λ t, t.1 = Legacy.Document.id x) temp.

Definition document (x : Legacy.Document.t) (meeting_id : Z) : Document.t :=
  Document.mk (Legacy.Document.id x) meeting_id
    (Legacy.Document.content_hash x) (Legacy.Document.status x)
    (Legacy.Document.format x).

(** *** Section 3: the tenant tables *)

(** [c.id] in
    [UPDATE .. SET company_id_int = c.id FROM companies c
      WHERE x.company_id = c.company_id]:
    the integer key of the first company that has the text key; [NULL]
    when none has, or when the text key is [NULL]. *)
Definition company_int (cs : list Legacy.Company.t) (key : option string)
    : option Z :=
  match key with
  | Some k =>
      (Legacy.Company.id ∘ snd)
        <$> list_find (λ c, Legacy.Company.company_id c = Some k) cs
  | None => None
  end.

Definition is_digit (c : ascii) : bool :=
  let n := N_of_ascii c in ((48 <=? n) && (n <=? 57))%N.

Fixpoint all_digits (s : string) : bool :=
  match s with
  | EmptyString => true
  | String c s' => is_digit c && all_digits s'
  end.

(** [s ~ '^\d+$']: one digit or more and nothing else. *)
Definition digits_only (s : string) : bool :=
  match s with
  | EmptyString => false
  | _ => all_digits s
  end.

(** The number that a string of digits denotes, after [acc]. *)
Fixpoint decimal (acc : Z) (s : string) : Z :=
  match s with
  | EmptyString => acc
  | String c s' => decimal (10 * acc + (Z.of_N (N_of_ascii c) - 48)) s'
  end.

Definition int_max : Z := 2147483647.

(** [CASE WHEN document_id ~ '^\d+$' THEN document_id::INT ELSE NULL END]. *)
Definition document_id_int (v : option string) : outcome (option Z) :=
  match v with
  | Some s =>
      if digits_only s
      then if decide (decimal 0 s ≤ int_max)%Z then Done (Some (decimal 0 s))
           else Failed (numeric_value_out_of_range s)
      else Done None
  | None => Done None
  end.

(** An alert once [company_id] is an integer; [document_id_int] has just
    been added and is [NULL]. *)
Definition alert (a : Legacy.Alert.t) (company : Z) : Alert.t jsonb :=
  Alert.mk (Legacy.Alert.id a) company None (Legacy.Alert.review_status a)
    (Legacy.Alert.property_matches a) (Legacy.Alert.rule_matches a).

Definition audit_trail (cs : list Legacy.Company.t) (a : Legacy.AuditTrail.t)
    : AuditTrail.t :=
  AuditTrail.mk (Legacy.AuditTrail.id a)
    (company_int cs (Legacy.AuditTrail.company_id a))
    (Legacy.AuditTrail.document_id a).

(** An ingest job after migration 001; [municipality_id] is the column
    that migration 002 adds. *)
Definition ingest_job (j : Legacy.IngestJob.t) (company : Z) : IngestJob.t :=
  IngestJob.mk (Legacy.IngestJob.id j) company (Legacy.IngestJob.municipality j)
    None (Legacy.IngestJob.status j).

(** A user once [company_id] is an integer; the column stays
    nullable. *)
Definition user (cs : list Legacy.Company.t) (u : Legacy.User.t) : User.t :=
  User.mk (Legacy.User.id u) (company_int cs (Legacy.User.company_id u))
    (Legacy.User.role u).

(** A property once [company_id] is an integer, with the new column
    [municipality_id], which is [NULL]. *)
Definition property (p : Legacy.Property.t) (company : Z) : Property.t :=
  Property.mk (Legacy.Property.id p) company None (Legacy.Property.address p)
    (Legacy.Property.city p).

(** *** Section 4: the subscriptions *)

Section Subscriptions.
Context {P : Type}.

(** [EXISTS (SELECT 1 FROM alerts a
       JOIN documents d ON a.document_id = d.id
       JOIN meetings mt ON d.meeting_id = mt.id
       WHERE mt.municipality_id = m AND a.company_id = c)]. *)
Definition has_alert_in (t : tables P) (c m : Z) : Prop :=
  Exists (λ a,
    Alert.company_id a = c
    ∧ Exists (λ x,
        Alert.document_id a = Some (Document.id x)
        ∧ Exists (λ mt,
            Document.meeting_id x = Meeting.id mt
            ∧ Meeting.municipality_id mt = Some m) (meetings t))
        (documents t))
    (alerts t).

#[global] Instance has_alert_in_dec t c m : Decision (has_alert_in t c m).
Proof. unfold has_alert_in. apply _. Defined.

(** [SELECT DISTINCT c.id, m.id FROM companies c CROSS JOIN municipalities m
      WHERE EXISTS (..)]. *)
Definition subscriptions_from_alerts (t : tables P)
    : list CompanyMunicipality.t :=
  remove_dups
    (c ← companies t;
     m ← municipality_ids t;
     if decide (has_alert_in t c m) then [CompanyMunicipality.mk c m]
     else []).

(** [INSERT INTO company_municipalities (company_id, municipality_id)
      SELECT DISTINCT .. ON CONFLICT DO NOTHING]: a pair that is already
    in the table is skipped. *)
Definition populate_company_municipalities (d : db P) : result (db P) :=
  let new := filter (λ r, r ∉ company_municipalities (data d))
               (subscriptions_from_alerts (data d)) in
  commit d
    (set_company_municipalities (company_municipalities (data d) ++ new)
       (data d)).

End Subscriptions.

(** *** The whole migration, one transaction

    A table enters the database when its columns have their new types;
    until then it is empty there.  A column that is made [NOT NULL] is
    checked where it is filled: the foreign key that SQL adds in between
    takes its values from the referenced table and cannot fail.  The legacy
    database declares none of the constraints that the migration adds.
    [company_municipalities] does not exist before and is created empty,
    with its primary key.  The dropped tables [notifications] and
    [flagged_item_comments] and the dropped indexes are none of the
    above. *)
Definition run (l : Legacy.tables) : outcome (db jsonb) :=
  let cs := Legacy.companies l in
  (* 1: municipalities and meetings lose their company columns *)
  let d : db jsonb :=
    mk_db
      (mk_tables (Legacy.Company.id <$> cs) (Legacy.municipalities l)
         (meeting <$> Legacy.meetings l) [] [] [] [] [] [] []
         (Legacy.schema_migrations l))
      [] [] in
  d ← statement (add_constraint meetings_municipality_id_fkey d);
  (* 1: documents are linked to their meeting by id *)
  ids ← mapM (λ x, required "documents" "meeting_id"
                     (meeting_id_new (temp_meeting_mapping l) x))
          (Legacy.documents l);
  d ← statement
        (commit d
           (set_documents (zip_with document (Legacy.documents l) ids)
              (data d)));
  d ← statement (add_constraint documents_meeting_id_fkey d);
  (* 2 *)
  d ← statement (add_constraint company_municipalities_pkey d);
  (* 3: alerts *)
  cids ← mapM (λ a, required "alerts" "company_id"
                      (company_int cs (Legacy.Alert.company_id a)))
           (Legacy.alerts l);
  d ← statement
        (commit d
           (set_alerts (zip_with alert (Legacy.alerts l) cids) (data d)));
  d ← statement (add_constraint alerts_company_id_fkey d);
  ids ← mapM (λ a, document_id_int (Legacy.Alert.document_id a))
          (Legacy.alerts l);
  d ← statement
        (commit d
           (set_alerts (zip_with with_document_id ids (alerts (data d)))
              (data d)));
  d ← statement (add_constraint alerts_document_id_fkey d);
  (* 3: audit_trails *)
  d ← statement
        (commit d
           (set_audit_trails (audit_trail cs <$> Legacy.audit_trails l)
              (data d)));
  d ← statement (add_constraint audit_trails_company_id_fkey d);
  (* 3: ingest_jobs *)
  cids ← mapM (λ j, required "ingest_jobs" "company_id"
                      (company_int cs (Legacy.IngestJob.company_id j)))
           (Legacy.ingest_jobs l);
  d ← statement
        (commit d
           (set_ingest_jobs
              (zip_with ingest_job (Legacy.ingest_jobs l) cids)
              (data d)));
  d ← statement (add_constraint ingest_jobs_company_id_fkey d);
  (* 3: users *)
  d ← statement
        (commit d (set_users (user cs <$> Legacy.users l) (data d)));
  d ← statement (add_constraint users_company_id_fkey d);
  (* 3: properties *)
  cids ← mapM (λ p, required "properties" "company_id"
                      (company_int cs (Legacy.Property.company_id p)))
           (Legacy.properties l);
  d ← statement
        (commit d
           (set_properties
              (zip_with property (Legacy.properties l) cids) (data d)));
  d ← statement (add_constraint properties_company_id_fkey d);
  (* 4 *)
  d ← statement (add_constraint properties_municipality_id_fkey d);
  d ← statement (add_constraint properties_company_address_unique d);
  d ← statement (add_constraint company_municipalities_company_id_fkey d);
  d ← statement (add_constraint company_municipalities_municipality_id_fkey d);
  d ← statement (populate_company_municipalities d);
  (* 6 *)
  let d := create_index idx_documents_hash d in
  let d := create_index idx_documents_meeting d in
  let d := create_index idx_alerts_company_status d in
  let d := create_index idx_alerts_document d in
  let d := create_index idx_properties_company d in
  let d := create_index idx_properties_municipality d in
  let d := create_index idx_meetings_municipality d in
  let d := create_index idx_company_municipalities_company d in
  let d := create_index idx_company_municipalities_municipality d in
  Done d.

End SingleDocumentPipeline.

(** ** Deleting a company

    The foreign keys that migration 001 puts on the [company_id] of
    [alerts], [audit_trails], [ingest_jobs], [users], [properties] and
    [company_municipalities] all carry [ON DELETE CASCADE]. *)

Section Companies.
Context {P : Type}.

(** [DELETE FROM companies WHERE sel], with the cascades it triggers; a
    company is its id. *)
Definition remove_companies (s : list constraint)
    (sel : Z → Prop) `{!∀ x, Decision (sel x)}
    (t : tables P) : tables P :=
  let gone := filter sel (companies t) in
  let t := set_companies (filter (λ x, ¬ sel x) (companies t)) t in
  let t := if cascades s alerts_company_id_fkey
           then set_alerts
                  (filter (λ a, Alert.company_id a ∉ gone) (alerts t)) t
           else t in
  let t := if cascades s audit_trails_company_id_fkey
           then set_audit_trails
                  (filter (λ a, ¬ refers gone (AuditTrail.company_id a))
                     (audit_trails t)) t
           else t in
  let t := if cascades s ingest_jobs_company_id_fkey
           then set_ingest_jobs
                  (filter (λ j, IngestJob.company_id j ∉ gone)
                     (ingest_jobs t)) t
           else t in
  let t := if cascades s users_company_id_fkey
           then set_users
                  (filter (λ u, ¬ refers gone (User.company_id u))
                     (users t)) t
           else t in
  let t := if cascades s properties_company_id_fkey
           then set_properties
                  (filter (λ p, Property.company_id p ∉ gone)
                     (properties t)) t
           else t in
  if cascades s company_municipalities_company_id_fkey
  then set_company_municipalities
         (filter (λ r, CompanyMunicipality.company_id r ∉ gone)
            (company_municipalities t)) t
  else t.

(** [DELETE FROM companies WHERE id = i]. *)
Definition delete_company (i : Z) (d : db P) : result (db P) :=
  commit d (remove_companies (schema d) (λ x, x = i) (data d)).

End Companies.

(** *** [web/components/property-form.tsx]: the initial state *)

Module PropertyFormState.

(** The [property] prop as far as the form reads it; a field the object
    lacks is [None]. *)
Record property : Type := mk_property
  { name : option string; address : option string;
    legal_description : option string; aliases : option (list string) }.

(** [v || ""] for a string or [undefined]. *)
Definition or_empty (v : option string) : string := default "" v.

(** The argument of [useState]: the fields of the property that is
    edited, with [aliases.join(", ")], and empty strings for a new one. *)
Definition initial (p : option property) : PropertyForm.form_data :=
  PropertyForm.mk_form_data
    (or_empty (p ≫= name))
    (or_empty (p ≫= address))
    (or_empty (p ≫= legal_description))
    (or_empty (join_with ", " <$> (p ≫= aliases))).

End PropertyFormState.

(** *** The status badge of [web/components/alert-card.tsx] *)

Module StatusBadge.

Inductive icon : Type := AlertCircle | CheckCircle | XCircle.

Definition statusColors : gmap string string :=
  list_to_map
    [ ("pending", "bg-yellow-100 text-yellow-800");
      ("reviewing", "bg-blue-100 text-blue-800");
      ("resolved", "bg-green-100 text-green-800");
      ("false_positive", "bg-gray-100 text-gray-800") ].

Definition statusIcons : gmap string icon :=
  list_to_map
    [ ("pending", AlertCircle);
      ("reviewing", AlertCircle);
      ("resolved", CheckCircle);
      ("false_positive", XCircle) ].

(** [statusIcons[alert.review_status]], the component that the badge
    renders; [None] is [undefined]. *)
Definition StatusIcon (review_status : string) : option icon :=
  statusIcons !! review_status.

End StatusBadge.

(** *** [web/app/properties/page.tsx], [web/components/navigation.tsx] *)

Module PropertiesPage.

(** [session?.user?.role === "admin"]: decides whether the page offers
    to add a property, whether a property card offers to edit or delete,
    and whether the navigation links to the settings. *)
Definition isAdmin (s : option Auth.session) : bool :=
  match s with
  | Some s' =>
      bool_decide (Auth.su_role (Auth.session_user_ s') = js_string "admin")
  | None => false
  end.

End PropertiesPage.

(** *** [web/components/alert-filters.tsx], [web/app/alerts/page.tsx] *)

Module AlertFilters.
Import ApiClient.

(** What the user can do to the filter bar. *)
Inductive event : Type :=
  | status_changed (value : string)
  | municipality_changed (value : string)
  | property_changed (value : string)
  | start_date_changed (value : string)
  | end_date_changed (value : string)
  | clear_filters.

(** [e.target.value || null]. *)
Definition or_null (value : string) : option string :=
  if decide (value = "") then None else Some value.

(** The argument of [onFiltersChange], which the page stores as the new
    filter state. *)
Definition onFiltersChange (f : filters) (e : event) : filters :=
  match e with
  | status_changed v =>
      mk_filters (or_null v) (f_municipality f) (property_id f)
        (start_date f) (end_date f)
  | municipality_changed v =>
      mk_filters (status f) (or_null v) (property_id f)
        (start_date f) (end_date f)
  | property_changed v =>
      mk_filters (status f) (f_municipality f) (or_null v)
        (start_date f) (end_date f)
  | start_date_changed v =>
      mk_filters (status f) (f_municipality f) (property_id f)
        (or_null v) (end_date f)
  | end_date_changed v =>
      mk_filters (status f) (f_municipality f) (property_id f)
        (start_date f) (or_null v)
  | clear_filters => mk_filters None None None None None
  end.

(** The filter state of a freshly opened alerts page. *)
Definition initial : filters := mk_filters None None None None None.

(** [value={filters.x || ""}]: what a control shows for a field. *)
Definition shown (v : option string) : string := default "" v.

End AlertFilters.

(** *** [web/lib/api.ts]: the request interceptor *)

Module ApiRequest.

(** [`${v}`] in a template literal. *)
Definition js_to_string (v : js_value) : string :=
  match v with
  | js_undefined => "undefined"
  | js_null => "null"
  | js_bool true => "true"
  | js_bool false => "false"
  | js_number n => pretty n
  | js_string s => s
  end.

(** The [Authorization] header that the interceptor puts on a request,
    [None] when it sets none: the fixed test token under
    [NODE_ENV === 'development'], else the access token of the session, if
    there is a session and its token is truthy. *)
Definition authorization (node_env : string) (s : option Auth.session)
    : option string :=
  if decide (node_env = "development") then Some "Bearer test-token"
  else match s with
       | Some s' =>
           if truthy (Auth.session_accessToken s')
           then Some ("Bearer " +:+ js_to_string (Auth.session_accessToken s'))
           else None
       | None => None
       end.

End ApiRequest.

(** *** The comment box of [web/components/alert-card.tsx] *)

Module CommentBox.

(** [disabled={!comment.trim()}] on the Add button. *)
Definition disabled (comment : string) : bool :=
  bool_decide (PropertyForm.trim comment = "").

End CommentBox.

(** ** Legacy rows to run migration 001 on *)

Module LegacyExample.

(** Two companies and the rows they own by text key: an alert whose
    document is named by a number, one whose [document_id] is no number, one
    without; an audit trail of a company that is gone. *)
Definition rows : Legacy.tables :=
  Legacy.mk_tables
    [ Legacy.Company.mk 7 (Some "brightstone");
      Legacy.Company.mk 8 (Some "lakeview") ]
    [ Municipality.mk 1 "Toronto" (Some "https://toronto.example/feed");
      Municipality.mk 2 "Mississauga" None ]
    [ Legacy.Meeting.mk 42 (Some "guid-42") (Some 1) "Council";
      Legacy.Meeting.mk 43 (Some "guid-43") (Some 2) "Planning" ]
    [ Legacy.Document.mk 5 (Some "guid-42") (Some "abc123") "pending" "pdf";
      Legacy.Document.mk 6 (Some "guid-43") (Some "def456") "processed" "html" ]
    [ Legacy.Alert.mk 1 (Some "brightstone") (Some "doc-5") (Some "reviewing")
        (Some (JString "a,b")) (Some (JArray [JString "x"; JString "y"]));
      Legacy.Alert.mk 2 (Some "lakeview") (Some "6") (Some "pending")
        None (Some (JObject [("rule", JString "Zoning Changes")]));
      Legacy.Alert.mk 3 (Some "lakeview") None (Some "resolved")
        (Some (JArray [])) (Some (JString "")) ]
    [ Legacy.AuditTrail.mk 1 (Some "brightstone") (Some 5);
      Legacy.AuditTrail.mk 2 (Some "gone") (Some 9) ]
    [ Legacy.IngestJob.mk 1 (Some "brightstone") (Some "Toronto") "done" ]
    [ Legacy.User.mk "0b7e" (Some "brightstone") "admin";
      Legacy.User.mk "5c1d" (Some "lakeview") "analyst";
      Legacy.User.mk "9f02" None "analyst" ]
    [ Legacy.Property.mk 1 (Some "brightstone") "123 King Street West"
        (Some "TORONTO") ]
    [].

(** The database after migration 001. *)
Definition migrated_001 : db jsonb :=
  Eval vm_compute in
    match SingleDocumentPipeline.run rows with
    | SingleDocumentPipeline.Done d => d
    | SingleDocumentPipeline.Failed _ =>
        mk_db (mk_tables [] [] [] [] [] [] [] [] [] [] []) [] []
    end.

(** The database after migrations 001 and 002. *)
Definition migrated_002 : db jsonb :=
  Eval vm_compute in
    after migrated_001 (Migration002.run Migration002.lower_c migrated_001).

(** The database after the three migrations. *)
Definition migrated : db jsonb :=
  Eval vm_compute in after migrated_002 (Migration003.run migrated_002).

(** The same rows with a second property of the company at the same
    address, in another city. *)
Definition shared_address : Legacy.tables :=
  Legacy.mk_tables (Legacy.companies rows) (Legacy.municipalities rows)
    (Legacy.meetings rows) (Legacy.documents rows) (Legacy.alerts rows)
    (Legacy.audit_trails rows) (Legacy.ingest_jobs rows) (Legacy.users rows)
    [ Legacy.Property.mk 1 (Some "brightstone") "123 King Street West"
        (Some "TORONTO");
      Legacy.Property.mk 2 (Some "brightstone") "123 King Street West"
        (Some "Mississauga") ]
    [].

End LegacyExample.

(** ** Inputs to run the client code on *)

Module ClientExample.

(** A payload parser that knows the base64 text of the object whose one
    member is the role [admin]. *)
Definition parse_admin (s : string) : option (gmap string js_value) :=
  if decide (s = "eyJyb2xlIjoiYWRtaW4ifQ")
  then Some {[ "role" := js_string "admin" ]}
  else None.

(** A property as the properties page hands it to the form. *)
Definition king_west : PropertyFormState.property :=
  PropertyFormState.mk_property (Some "King West")
    (Some "123 King Street West") None (Some ["Main Plaza"; "Block A"]).

End ClientExample.

(** * Properties *)

Open Scope list_scope.

(** ** Results and statements *)

Lemma bind_Ok_inv {A B : Type} (r : result A) (k : A → result B) (b : B) :
  r ≫= k = Ok b → ∃ a, r = Ok a ∧ k a = Ok b.
Proof. destruct r as [a|e]; simpl; [eauto | discriminate]. Qed.

Ltac bind_inv H a Ha :=
  apply bind_Ok_inv in H as (a & Ha & H).

Section StatementFacts.
Context {P : Type}.
Implicit Types (d : db P) (c : constraint).

Lemma commit_Ok {Q : Type} d (t : tables Q) (d' : db Q) :
  commit d t = Ok d' ↔
  d' = mk_db t (schema d) (indexes d) ∧ Forall (λ c, holds c t) (schema d).
Proof.
  unfold commit. split.
  - destruct (list_find _ _) as [[i c]|] eqn:E; [discriminate|].
    intros [= <-]. split; [done|].
    apply list_find_None in E.
    eapply Forall_impl; [exact E|]. intros c Hc. simpl in Hc.
    by apply dec_stable.
  - intros [-> Hall].
    destruct (list_find _ _) as [[i c]|] eqn:E; [|done].
    apply list_find_Some in E as (Hi & Hc & _).
    exfalso. apply Hc. exact (Forall_lookup_1 _ _ _ _ Hall Hi).
Qed.

Lemma commit_Err {Q : Type} d (t : tables Q) e :
  commit d t = Err e → ∃ c, c ∈ schema d ∧ ¬ holds c t ∧ e = violation c.
Proof.
  unfold commit.
  destruct (list_find _ _) as [[i c]|] eqn:E; [|discriminate].
  intros [= <-]. apply list_find_Some in E as (Hi & Hc & _).
  exists c. split_and!; [|done..]. eapply list_elem_of_lookup_2, Hi.
Qed.

Lemma commit_consistent {Q : Type} d (t : tables Q) (d' : db Q) :
  commit d t = Ok d' → consistent d'.
Proof. intros [-> ?]%commit_Ok. done. Qed.

Lemma commit_data {Q : Type} d (t : tables Q) (d' : db Q) :
  commit d t = Ok d' → data d' = t.
Proof. by intros [-> ?]%commit_Ok. Qed.

Lemma commit_schema {Q : Type} d (t : tables Q) (d' : db Q) :
  commit d t = Ok d' → schema d' = schema d.
Proof. by intros [-> ?]%commit_Ok. Qed.

Lemma add_constraint_Ok c d d' :
  add_constraint c d = Ok d' →
  d' = mk_db (data d) (schema d ++ [c]) (indexes d) ∧ holds c (data d).
Proof.
  unfold add_constraint. repeat case_decide; try discriminate.
  by intros [= <-].
Qed.

Lemma set_not_null_Ok c d d' :
  set_not_null c d = Ok d' →
  data d' = data d ∧ c ∈ schema d' ∧ schema d ⊆ schema d'.
Proof.
  unfold set_not_null. case_decide.
  - intros [= <-]. done.
  - intros [-> _]%add_constraint_Ok. simpl. set_solver.
Qed.

Lemma drop_constraint_Ok c d d' :
  drop_constraint c d = Ok d' →
  d' = mk_db (data d) (filter (λ c', c' ≠ c) (schema d)) (indexes d).
Proof. unfold drop_constraint. case_decide; [|discriminate]. by intros [= <-]. Qed.

Lemma create_index_data i d : data (create_index i d) = data d.
Proof. unfold create_index. by case_decide. Qed.

Lemma create_index_schema i d : schema (create_index i d) = schema d.
Proof. unfold create_index. by case_decide. Qed.

Lemma drop_index_data i d : data (drop_index i d) = data d.
Proof. done. Qed.

Lemma drop_index_schema i d : schema (drop_index i d) = schema d.
Proof. done. Qed.

Lemma record_migration_schema v d : schema (record_migration v d) = schema d.
Proof. unfold record_migration. by case_decide. Qed.

Lemma holds_set_schema_migrations c v (t : tables P) :
  holds c (set_schema_migrations v t) ↔ holds c t.
Proof. by destruct c. Qed.

Lemma record_migration_consistent v d :
  consistent d → consistent (record_migration v d).
Proof.
  unfold record_migration, consistent. case_decide; [done|]. simpl.
  intros Hd. eapply Forall_impl; [exact Hd|].
  intros c Hc. by apply holds_set_schema_migrations.
Qed.

Lemma record_migration_alerts v d :
  alerts (data (record_migration v d)) = alerts (data d).
Proof. unfold record_migration. by case_decide. Qed.

Lemma record_migration_documents v d :
  documents (data (record_migration v d)) = documents (data d).
Proof. unfold record_migration. by case_decide. Qed.

Lemma consistent_holds c d : consistent d → c ∈ schema d → holds c (data d).
Proof. unfold consistent. rewrite Forall_forall. auto. Qed.

End StatementFacts.

(** ** Migration 002 *)

Section Migration002Facts.
Import Migration002.
Context {P : Type}.
Variable lower : string → string.
Implicit Types (d : db P).

Lemma backfill_properties_schema d d' :
  backfill_properties lower d = Ok d' → schema d' = schema d.
Proof.
  unfold backfill_properties. case_decide.
  - by intros [-> _]%commit_Ok.
  - by intros [= <-].
Qed.

(** What a successful run of migration 002 leaves behind: every constraint
    that was declared before is still declared, the five new ones are, and
    all of them hold. *)
Lemma run_002_Ok d d' :
  run lower d = Ok d' →
  consistent d'
  ∧ schema d ⊆ schema d'
  ∧ documents_content_hash_unique ∈ schema d'
  ∧ properties_municipality_id_not_null ∈ schema d'
  ∧ ingest_jobs_municipality_id_fkey ∈ schema d'
  ∧ municipalities_feed_url_unique ∈ schema d'
  ∧ alerts_review_status_check ∈ schema d'
  ∧ documents_meeting_id_fkey ∈ schema d'.
Proof.
  unfold run. intros H.
  bind_inv H d1 H1. bind_inv H d2 H2. bind_inv H d3 H3. bind_inv H d4 H4.
  bind_inv H d5 H5. bind_inv H d6 H6. bind_inv H d7 H7. cbv zeta in H.
  bind_inv H d8 H8. bind_inv H d9 H9. bind_inv H d10 H10.
  bind_inv H d11 H11. bind_inv H d12 H12. cbv zeta in H.
  bind_inv H d13 H13. bind_inv H d14 H14. bind_inv H d15 H15.
  injection H as <-.
  pose proof (commit_consistent _ _ _ H15) as Hcons.
  apply add_constraint_Ok in H1 as [-> _].
  apply backfill_properties_schema in H2.
  apply set_not_null_Ok in H3 as (_ & Hin3 & Hs3).
  apply commit_schema in H4, H5, H7, H9, H13, H14, H15.
  apply add_constraint_Ok in H6 as [E6 _].
  apply add_constraint_Ok in H8 as [E8 _].
  apply add_constraint_Ok in H10 as [E10 _].
  apply drop_constraint_Ok in H11.
  apply add_constraint_Ok in H12 as [E12 _].
  subst d6 d8 d10 d11 d12. simpl in *.
  repeat rewrite create_index_schema in *. simpl in *.
  assert (schema d15
          = filter (λ c, c ≠ documents_meeting_id_fkey)
              (((schema d3 ++ [ingest_jobs_municipality_id_fkey])
                  ++ [municipalities_feed_url_unique])
                 ++ [alerts_review_status_check])
            ++ [documents_meeting_id_fkey]) as Hs.
  { rewrite H15, H14, H13, H9, H7, H5, H4. done. }
  simpl in H2.
  assert (∀ c, c ∈ schema d3 → c ∈ schema d15) as Hmono.
  { intros c Hc. rewrite Hs.
    destruct (decide (c = documents_meeting_id_fkey)) as [->|Hne].
    - set_solver.
    - apply elem_of_app. left. apply list_elem_of_filter. set_solver. }
  split_and!.
  - by apply record_migration_consistent.
  - rewrite record_migration_schema. intros c Hc. apply Hmono, Hs3.
    rewrite H2. set_solver.
  - rewrite record_migration_schema. apply Hmono, Hs3. rewrite H2. set_solver.
  - rewrite record_migration_schema. by apply Hmono.
  - rewrite record_migration_schema, Hs. apply elem_of_app. left.
    apply list_elem_of_filter. set_solver.
  - rewrite record_migration_schema, Hs. apply elem_of_app. left.
    apply list_elem_of_filter. set_solver.
  - rewrite record_migration_schema, Hs. apply elem_of_app. left.
    apply list_elem_of_filter. set_solver.
  - rewrite record_migration_schema, Hs. set_solver.
Qed.

(** X3.  After migration 002 every alert's review status is [NULL] or one of
    [pending], [reviewed], [resolved], and none is [reviewing] any more. *)
Theorem review_statuses_after_002 d d' :
  run lower d = Ok d' →
  Forall (λ a, null_or (λ s, s ∈ review_statuses) (Alert.review_status a))
    (alerts (data d'))
  ∧ Forall (λ a, Alert.review_status a ≠ Some "reviewing") (alerts (data d')).
Proof.
  intros (Hcons & _ & _ & _ & _ & _ & Hin & _)%run_002_Ok.
  pose proof (consistent_holds _ _ Hcons Hin) as Hh. simpl in Hh.
  split; [done|]. eapply Forall_impl; [exact Hh|].
  intros a Ha Hr. simpl in Ha. rewrite Hr in Ha. simpl in Ha.
  unfold review_statuses in Ha.
  repeat (apply elem_of_cons in Ha as [Ha|Ha]; [discriminate|]).
  by apply elem_of_nil in Ha.
Qed.

End Migration002Facts.
(** ** The text of a [jsonb] value *)

Section JsonbText.
Import Migration003.








End JsonbText.

(** ** Migration 003 *)

Section Migration003Facts.
Import Migration003.

Lemma backfill_document_ids_Ok {P : Type} (d d' : db P) :
  backfill_document_ids d = Ok d' →
  alerts (data d') = backfill_alert (data d) <$> alerts (data d)
  ∧ documents (data d') = documents (data d)
  ∧ schema d' = schema d.
Proof.
  unfold backfill_document_ids. case_decide as Hn.
  - intros [-> _]%commit_Ok. done.
  - intros [= <-]. split; [|done].
    assert (Forall (λ a, Alert.document_id a ≠ None) (alerts (data d))) as Hall.
    { apply Forall_forall. intros a Ha Hnone. apply Hn.
      assert (a ∈ filter (λ a, Alert.document_id a = None) (alerts (data d)))
        as Hin by by apply list_elem_of_filter.
      destruct (filter _ _); [by apply elem_of_nil in Hin | simpl; lia]. }
    symmetry. etrans; [|apply list_fmap_id].
    apply Forall_fmap_ext_1. eapply Forall_impl; [exact Hall|].
    intros a Ha. unfold backfill_alert. case_decide as Hc; [|done].
    by destruct Hc.
Qed.

Lemma normalize_property_matches_Ok (d d' : db jsonb) :
  normalize_property_matches d = Ok d' →
  alerts (data d')
  = (λ a, with_property_matches
            (normalize_matches (Alert.property_matches a)) a)
      <$> alerts (data d)
  ∧ documents (data d') = documents (data d)
  ∧ schema d' = schema d.
Proof. unfold normalize_property_matches. by intros [-> _]%commit_Ok. Qed.

Lemma normalize_rule_matches_Ok (d d' : db jsonb) :
  normalize_rule_matches d = Ok d' →
  alerts (data d')
  = (λ a, with_rule_matches (normalize_matches (Alert.rule_matches a)) a)
      <$> alerts (data d)
  ∧ documents (data d') = documents (data d)
  ∧ schema d' = schema d.
Proof. unfold normalize_rule_matches. by intros [-> _]%commit_Ok. Qed.

Lemma delete_orphaned_alerts_Ok {P : Type} (d d' : db P) :
  delete_orphaned_alerts d = Ok d' →
  alerts (data d')
  = filter (λ a, null_or (λ i, i ∈ document_ids (data d))
                   (Alert.document_id a)) (alerts (data d))
  ∧ documents (data d') = documents (data d)
  ∧ schema d' = schema d.
Proof. unfold delete_orphaned_alerts. by intros [-> _]%commit_Ok. Qed.

Lemma delete_orphaned_audit_trails_Ok {P : Type} (d d' : db P) :
  delete_orphaned_audit_trails d = Ok d' →
  alerts (data d') = alerts (data d)
  ∧ documents (data d') = documents (data d)
  ∧ schema d' = schema d.
Proof. unfold delete_orphaned_audit_trails. by intros [-> _]%commit_Ok. Qed.

Lemma delete_orphaned_properties_Ok {P : Type} (d d' : db P) :
  delete_orphaned_properties d = Ok d' →
  alerts (data d') = alerts (data d)
  ∧ documents (data d') = documents (data d)
  ∧ schema d' = schema d
  ∧ consistent d'.
Proof.
  unfold delete_orphaned_properties. intros H.
  pose proof (commit_consistent _ _ _ H). by apply commit_Ok in H as [-> _].
Qed.

(** What a successful run of migration 003 leaves behind: the alerts are
    the back-filled and normalized rows of before, less those whose document
    is missing; the documents are untouched; the schema has grown by the
    [NOT NULL] of [alerts.document_id] and every constraint holds. *)
Lemma run_003_Ok (d d' : db jsonb) :
  run d = Ok d' →
  alerts (data d')
  = filter (λ a, null_or (λ i, i ∈ document_ids (data d))
                   (Alert.document_id a))
      (normalized <$> (backfill_alert (data d) <$> alerts (data d)))
  ∧ documents (data d') = documents (data d)
  ∧ schema d ⊆ schema d'
  ∧ alerts_document_id_not_null ∈ schema d'
  ∧ consistent d'.
Proof.
  unfold run. intros H.
  bind_inv H d1 H1. bind_inv H d2 H2. bind_inv H d3 H3. bind_inv H d3' H3'.
  bind_inv H d4 H4. cbv zeta in H.
  bind_inv H d5 H5. bind_inv H d6 H6. bind_inv H d7 H7.
  injection H as <-.
  apply backfill_document_ids_Ok in H1 as (Ha1 & Hd1 & Hs1).
  apply set_not_null_Ok in H2 as (Ht2 & Hin2 & Hs2).
  apply normalize_property_matches_Ok in H3 as (Ha3 & Hd3 & Hs3).
  apply normalize_rule_matches_Ok in H3' as (Ha3' & Hd3' & Hs3').
  apply set_not_null_Ok in H4 as (Ht4 & Hin4 & Hs4).
  apply delete_orphaned_alerts_Ok in H5 as (Ha5 & Hd5 & Hs5).
  apply delete_orphaned_audit_trails_Ok in H6 as (Ha6 & Hd6 & Hs6).
  apply delete_orphaned_properties_Ok in H7 as (Ha7 & Hd7 & Hs7 & Hc7).
  rewrite !create_index_data, !drop_index_data in Ha5, Hd5.
  rewrite !create_index_schema, !drop_index_schema in Hs5.
  split_and!.
  - rewrite record_migration_alerts, Ha7, Ha6, Ha5, Ht4, Ha3', Ha3, Ht2, Ha1.
    unfold document_ids. rewrite Hd3', Hd3, Ht2, Hd1.
    by rewrite <- (list_fmap_compose _ _ (backfill_alert _ <$> _)).
  - rewrite record_migration_documents, Hd7, Hd6, Hd5, Ht4, Hd3', Hd3, Ht2.
    done.
  - rewrite record_migration_schema, Hs7, Hs6, Hs5.
    rewrite <- Hs1. etrans; [exact Hs2|]. rewrite <- Hs3, <- Hs3'. done.
  - rewrite record_migration_schema, Hs7, Hs6, Hs5.
    apply Hs4. by rewrite Hs3', Hs3.
  - by apply record_migration_consistent.
Qed.

End Migration003Facts.

Section Migration003Claims.
Import Migration003.

Lemma backfill_alert_payloads {P : Type} (t : tables P) (a : Alert.t P) :
  Alert.id (backfill_alert t a) = Alert.id a
  ∧ Alert.company_id (backfill_alert t a) = Alert.company_id a
  ∧ Alert.property_matches (backfill_alert t a) = Alert.property_matches a
  ∧ Alert.rule_matches (backfill_alert t a) = Alert.rule_matches a.
Proof. unfold backfill_alert. by case_decide. Qed.

(** C10.  When migration 003 runs on a database with at least one
    document, every alert whose [document_id] was [NULL] is still there
    afterwards and points at the first document in scan order, the same one
    for all of them; the column is [NOT NULL] from then on. *)
Theorem null_document_ids_take_first_document
    (d d' : db jsonb) (doc : Document.t) (docs : list Document.t) :
  documents (data d) = doc :: docs →
  run d = Ok d' →
  (∀ a, a ∈ alerts (data d) → Alert.document_id a = None →
     ∃ a', a' ∈ alerts (data d')
           ∧ Alert.id a' = Alert.id a
           ∧ Alert.company_id a' = Alert.company_id a
           ∧ Alert.document_id a' = Some (Document.id doc))
  ∧ Forall (λ a', is_Some (Alert.document_id a')) (alerts (data d'))
  ∧ alerts_document_id_not_null ∈ schema d'.
Proof.
  intros Hdocs (Ha' & _ & _ & Hin & Hcons)%run_003_Ok.
  split_and!; [|by apply (consistent_holds _ _ Hcons Hin)|done].
  intros a Ha Hnull.
  assert (Alert.document_id (backfill_alert (data d) a)
          = Some (Document.id doc)) as Hdoc.
  { unfold backfill_alert. rewrite decide_True by (by rewrite Hdocs).
    simpl. unfold first_document_id, document_ids. by rewrite Hdocs. }
  exists (normalized (backfill_alert (data d) a)). split_and!.
  - rewrite Ha'. apply list_elem_of_filter. split.
    + simpl. rewrite Hdoc. simpl. unfold document_ids. rewrite Hdocs.
      set_solver.
    + by apply list_elem_of_fmap_2, list_elem_of_fmap_2.
  - apply backfill_alert_payloads.
  - apply backfill_alert_payloads.
  - exact Hdoc.
Qed.


(** X5.  Without any document the back-fill has nothing to offer: an alert
    without document then stops the migration at [SET NOT NULL]. *)
Theorem no_document_no_backfill (d : db jsonb) (a : Alert.t jsonb) :
  consistent d →
  documents (data d) = [] →
  a ∈ alerts (data d) → Alert.document_id a = None →
  run d = Err (not_null_violation alerts_document_id_not_null).
Proof.
  intros Hd Hdocs Ha Hnull.
  assert (backfill_alert (data d) <$> alerts (data d) = alerts (data d))
    as Hsame.
  { etrans; [|apply list_fmap_id]. apply list_fmap_ext. intros i x _.
    unfold backfill_alert. rewrite decide_False; [done|].
    intros [_ Hne]. by apply Hne. }
  assert (alerts_document_id_not_null ∉ schema d) as Hout.
  { intros Hin. pose proof (consistent_holds _ _ Hd Hin) as Hh.
    simpl in Hh. rewrite Forall_forall in Hh. specialize (Hh a Ha).
    rewrite Hnull in Hh. by destruct Hh. }
  assert (backfill_document_ids d = Ok d) as Hfill.
  { unfold backfill_document_ids. case_decide; [|done].
    rewrite Hsame. apply commit_Ok. split; [|exact Hd].
    by destruct d as [[] ? ?]. }
  assert (set_not_null alerts_document_id_not_null d
          = Err (not_null_violation alerts_document_id_not_null)) as Hnn.
  { unfold set_not_null, add_constraint. rewrite !decide_False by done.
    rewrite decide_False; [done|].
    simpl. rewrite Forall_forall. intros Hall. specialize (Hall a Ha).
    rewrite Hnull in Hall. by destruct Hall. }
  unfold run. rewrite Hfill.
  change (Ok d ≫= ?k) with (k d). cbv beta. rewrite Hnn. reflexivity.
Qed.

End Migration003Claims.

(** ** The review status check *)

Section ReviewStatus.
Context {P : Type}.
Implicit Types (d : db P) (t : tables P).

(** A change to the rows of [alerts] that keeps the key columns matters
    only to the review status check. *)
Lemma holds_alerts_same_keys c t (f : Alert.t P → Alert.t P) :
  (∀ a, Alert.company_id (f a) = Alert.company_id a
        ∧ Alert.document_id (f a) = Alert.document_id a) →
  c ≠ alerts_review_status_check →
  holds c (set_alerts (f <$> alerts t) t) ↔ holds c t.
Proof.
  intros Hf Hc. destruct c; try done; simpl; rewrite Forall_fmap;
    apply Forall_iff; intros a; simpl; destruct (Hf a) as [H1 H2];
    rewrite ?H1, ?H2; done.
Qed.

Lemma set_status_keys i v (a : Alert.t P) :
  Alert.company_id (set_status i v a) = Alert.company_id a
  ∧ Alert.document_id (set_status i v a) = Alert.document_id a.
Proof. unfold set_status. by case_decide. Qed.

Lemma update_review_status_accepts i v d :
  consistent d → v ∈ review_statuses →
  update_review_status i v d
  = Ok (mk_db (set_alerts (set_status i v <$> alerts (data d)) (data d))
          (schema d) (indexes d)).
Proof.
  intros Hd Hv. unfold update_review_status. apply commit_Ok.
  split; [done|]. apply Forall_forall. intros c Hc.
  pose proof (consistent_holds _ _ Hd Hc) as Hh.
  destruct (decide (c = alerts_review_status_check)) as [->|Hne].
  - simpl in *. rewrite Forall_fmap. eapply Forall_impl; [exact Hh|].
    intros a Ha. simpl. unfold set_status. by case_decide.
  - apply holds_alerts_same_keys; [apply set_status_keys|done..].
Qed.

Lemma update_review_status_rejects i v d :
  consistent d → alerts_review_status_check ∈ schema d →
  i ∈ Alert.id <$> alerts (data d) → v ∉ review_statuses →
  update_review_status i v d
  = Err (check_violation alerts_review_status_check).
Proof.
  intros Hd Hin Hi Hv. unfold update_review_status.
  destruct (commit _ _) as [d'|e] eqn:E.
  - exfalso. apply commit_Ok in E as [_ Hall].
    rewrite Forall_forall in Hall. specialize (Hall _ Hin). simpl in Hall.
    apply list_elem_of_fmap in Hi as (a & -> & Ha).
    rewrite Forall_fmap, Forall_forall in Hall. specialize (Hall a Ha).
    simpl in Hall. unfold set_status in Hall.
    rewrite decide_True in Hall by done. by simpl in Hall.
  - apply commit_Err in E as (c & Hc & Hnot & ->).
    destruct (decide (c = alerts_review_status_check)) as [->|Hne]; [done|].
    exfalso. apply Hnot.
    apply holds_alerts_same_keys; [apply set_status_keys|done|].
    by apply consistent_holds.
Qed.

(** C4.  Under the check constraint of migration 002, an update of an
    existing alert's [review_status] goes through exactly for [pending],
    [reviewed] and [resolved]; it then changes that alert's status and
    nothing else.  Any other value is refused with a check violation and the
    database stays as it was. *)
Theorem review_status_update_checked d (i : Z) (v : string) :
  consistent d →
  alerts_review_status_check ∈ schema d →
  i ∈ Alert.id <$> alerts (data d) →
  (∀ d', update_review_status i v d = Ok d' → v ∈ review_statuses)
  ∧ (v ∈ review_statuses →
       ∃ d', update_review_status i v d = Ok d'
             ∧ alerts (data d') = set_status i v <$> alerts (data d))
  ∧ (v ∉ review_statuses →
       update_review_status i v d
       = Err (check_violation alerts_review_status_check)
       ∧ after d (update_review_status i v d) = d).
Proof.
  intros Hd Hin Hi. split_and!.
  - intros d' Hok. destruct (decide (v ∈ review_statuses)) as [|Hv]; [done|].
    by rewrite (update_review_status_rejects i v d Hd Hin Hi Hv) in Hok.
  - intros Hv. eexists. split; [by apply update_review_status_accepts|done].
  - intros Hv. by rewrite (update_review_status_rejects i v d Hd Hin Hi Hv).
Qed.

End ReviewStatus.

(** ** Deletes and their cascades *)

Lemma omap_sublist {A B : Type} (f : A → option B) (l1 l2 : list A) :
  l1 `sublist_of` l2 → omap f l1 `sublist_of` omap f l2.
Proof.
  induction 1 as [|x l1 l2 _ IH|x l1 l2 _ IH]; simpl.
  - constructor.
  - destruct (f x); [by constructor | done].
  - destruct (f x); [by constructor | done].
Qed.

Lemma unique_non_null_filter {A B : Type} (f : A → option B)
    (sel : A → Prop) `{!∀ x, Decision (sel x)} (l : list A) :
  unique_non_null (f <$> l) → unique_non_null (f <$> filter sel l).
Proof.
  unfold unique_non_null. intros Hl. eapply sublist_NoDup; [exact Hl|].
  apply omap_sublist, fmap_sublist, sublist_filter.
Qed.

Lemma NoDup_fmap_filter {A B : Type} (f : A → B)
    (sel : A → Prop) `{!∀ x, Decision (sel x)} (l : list A) :
  NoDup (f <$> l) → NoDup (f <$> filter sel l).
Proof.
  intros Hl. eapply sublist_NoDup; [exact Hl|].
  apply fmap_sublist, sublist_filter.
Qed.

Lemma Forall_filter_weaken {A : Type} (Q : A → Prop)
    (sel : A → Prop) `{!∀ x, Decision (sel x)} (l : list A) :
  Forall Q l → Forall Q (filter sel l).
Proof.
  rewrite !Forall_forall. intros Hl x [_ Hx]%list_elem_of_filter. auto.
Qed.

(** A key that is not among the deleted rows' keys is still among the
    keys of the rows that stay. *)
Lemma key_remains {A : Type} (key : A → Z)
    (sel : A → Prop) `{!∀ x, Decision (sel x)} (l : list A) (k : Z) :
  k ∈ key <$> l → k ∉ key <$> filter sel l →
  k ∈ key <$> filter (λ x, ¬ sel x) l.
Proof.
  intros (x & -> & Hx)%list_elem_of_fmap Hgone.
  apply list_elem_of_fmap. exists x. split; [done|].
  apply list_elem_of_filter. split; [|done].
  intros Hsel. apply Hgone, list_elem_of_fmap. exists x.
  split; [done|]. by apply list_elem_of_filter.
Qed.

Section Cascades.
Context {P : Type}.
Implicit Types (d : db P) (t : tables P) (s : list constraint).

Lemma cascades_declared s c :
  c ∈ s → on_delete c = CASCADE → cascades s c = true.
Proof.
  intros Hc Ha. unfold cascades. rewrite Ha.
  by rewrite bool_decide_eq_true_2.
Qed.

(** The rows that a delete from [documents] leaves, when the foreign key
    of [alerts] is declared. *)
Lemma remove_documents_cascade s (sel : Document.t → Prop)
    `{!∀ x, Decision (sel x)} t :
  alerts_document_id_fkey ∈ s →
  remove_documents s sel t
  = set_alerts
      (filter (λ a, ¬ refers (Document.id <$> filter sel (documents t))
                        (Alert.document_id a)) (alerts t))
      (set_documents (filter (λ x, ¬ sel x) (documents t)) t).
Proof.
  intros Hs. unfold remove_documents.
  by rewrite cascades_declared.
Qed.

(** The alerts that point at a removed document go with it, and so no
    alert is left pointing at a document that is not there. *)
Lemma alerts_fkey_after_removal (sel : Document.t → Prop)
    `{!∀ x, Decision (sel x)} (docs : list Document.t)
    (als : list (Alert.t P)) :
  Forall (λ a, null_or (λ i, i ∈ Document.id <$> docs)
                 (Alert.document_id a)) als →
  Forall (λ a, null_or (λ i, i ∈ Document.id <$> filter (λ x, ¬ sel x) docs)
                 (Alert.document_id a))
    (filter (λ a, ¬ refers (Document.id <$> filter sel docs)
                      (Alert.document_id a)) als).
Proof.
  intros Hfk. apply Forall_forall. intros a [Hkeep Ha]%list_elem_of_filter.
  rewrite Forall_forall in Hfk. specialize (Hfk a Ha).
  destruct (Alert.document_id a) as [j|]; simpl in *; [|done].
  by apply key_remains.
Qed.

Lemma holds_remove_documents s (sel : Document.t → Prop)
    `{!∀ x, Decision (sel x)} t c :
  Forall (λ c, holds c t) s → c ∈ s →
  holds c (remove_documents s sel t).
Proof.
  intros Hall Hc.
  assert (holds c t) as Hh by (rewrite Forall_forall in Hall; auto).
  unfold remove_documents.
  destruct (cascades s alerts_document_id_fkey) eqn:Hcas.
  - destruct c; simpl in *; try done;
      try (by apply Forall_filter_weaken);
      try (by apply unique_non_null_filter).
    by apply alerts_fkey_after_removal.
  - destruct c; simpl in *; try done;
      try (by apply Forall_filter_weaken);
      try (by apply unique_non_null_filter).
    unfold cascades in Hcas. simpl in Hcas.
    by rewrite bool_decide_eq_true_2 in Hcas.
Qed.

(** Deleting a document always goes through and takes its alerts along. *)
Lemma delete_document_Ok (i : Z) d :
  consistent d →
  delete_document i d
  = Ok (mk_db (remove_documents (schema d) (λ x, Document.id x = i) (data d))
          (schema d) (indexes d)).
Proof.
  intros Hd. unfold delete_document. apply commit_Ok. split; [done|].
  apply Forall_forall. intros c Hc. by apply holds_remove_documents.
Qed.

End Cascades.

Lemma fkey_after_removal {A B : Type} (key : A → Z) (fk : B → option Z)
    (sel : A → Prop) `{!∀ x, Decision (sel x)}
    (refd : list A) (rows : list B) :
  Forall (λ b, null_or (λ i, i ∈ key <$> refd) (fk b)) rows →
  Forall (λ b, null_or (λ i, i ∈ key <$> filter (λ x, ¬ sel x) refd) (fk b))
    (filter (λ b, ¬ refers (key <$> filter sel refd) (fk b)) rows).
Proof.
  intros Hfk. apply Forall_forall. intros b [Hkeep Hb]%list_elem_of_filter.
  rewrite Forall_forall in Hfk. specialize (Hfk b Hb).
  destruct (fk b) as [j|]; simpl in *; [|done].
  by apply key_remains.
Qed.

Lemma fkey_after_removal_not_null {A B : Type} (key : A → Z) (fk : B → Z)
    (sel : A → Prop) `{!∀ x, Decision (sel x)}
    (refd : list A) (rows : list B) :
  Forall (λ b, fk b ∈ key <$> refd) rows →
  Forall (λ b, fk b ∈ key <$> filter (λ x, ¬ sel x) refd)
    (filter (λ b, ¬ fk b ∈ key <$> filter sel refd) rows).
Proof.
  intros Hfk. apply Forall_forall. intros b [Hkeep Hb]%list_elem_of_filter.
  rewrite Forall_forall in Hfk. by apply key_remains; [apply Hfk|].
Qed.

(** Rows that do not point at the deleted key keep their reference. *)
Lemma fkey_untouched {A B : Type} (key : A → Z) (fk : B → option Z)
    (i : Z) (refd : list A) (rows : list B) :
  Forall (λ b, fk b ≠ Some i) rows →
  Forall (λ b, null_or (λ j, j ∈ key <$> refd) (fk b)) rows →
  Forall (λ b, null_or (λ j, j ∈ key <$> filter (λ x, ¬ key x = i) refd)
                 (fk b)) rows.
Proof.
  rewrite !Forall_forall. intros Hne Hfk b Hb.
  specialize (Hne b Hb). specialize (Hfk b Hb).
  destruct (fk b) as [j|]; simpl in *; [|done].
  apply key_remains; [done|].
  intros (x & -> & [Hx _]%list_elem_of_filter)%list_elem_of_fmap.
  by rewrite Hx in Hne.
Qed.

Section MunicipalityCascade.
Context {P : Type}.
Implicit Types (d : db P) (t : tables P) (s : list constraint).

Ltac declared Hs := apply Hs; unfold Migration001.declared_constraints;
  set_solver.

Lemma remove_municipalities_cascade s (sel : Municipality.t → Prop)
    `{!∀ x, Decision (sel x)} t :
  Migration001.declared_constraints ⊆ s →
  remove_municipalities s sel t = after_municipality_delete sel t.
Proof.
  intros Hs. unfold remove_municipalities, remove_meetings, remove_documents.
  rewrite !cascades_declared by (done || declared Hs). done.
Qed.

(** Only the two foreign keys without delete action can be broken by a
    delete of a municipality. *)
Lemma holds_after_municipality_delete_cascading (i : Z) t c :
  c ≠ properties_municipality_id_fkey →
  c ≠ ingest_jobs_municipality_id_fkey →
  holds c t →
  holds c (after_municipality_delete (λ x, Municipality.id x = i) t).
Proof.
  intros Hp Hj Hh. unfold after_municipality_delete.
  destruct c; simpl in *; unfold municipality_ids, meeting_ids, document_ids;
    simpl; try done;
    try (by apply Forall_filter_weaken);
    try (by apply unique_non_null_filter);
    try (by apply NoDup_fmap_filter).
  - by apply (fkey_after_removal Municipality.id Meeting.municipality_id).
  - by apply (fkey_after_removal_not_null Meeting.id Document.meeting_id).
  - by apply (fkey_after_removal Document.id (@Alert.document_id P)).
  - by apply (fkey_after_removal_not_null Municipality.id
                CompanyMunicipality.municipality_id).
Qed.

Lemma holds_after_municipality_delete (i : Z) t c :
  holds c t →
  Forall (λ p, Property.municipality_id p ≠ Some i) (properties t) →
  Forall (λ j, IngestJob.municipality_id j ≠ Some i) (ingest_jobs t) →
  holds c (after_municipality_delete (λ x, Municipality.id x = i) t).
Proof.
  intros Hh Hp Hj.
  destruct (decide (c = properties_municipality_id_fkey)) as [->|Hc1].
  { by apply (fkey_untouched Municipality.id Property.municipality_id). }
  destruct (decide (c = ingest_jobs_municipality_id_fkey)) as [->|Hc2].
  { by apply (fkey_untouched Municipality.id IngestJob.municipality_id). }
  by apply holds_after_municipality_delete_cascading.
Qed.

End MunicipalityCascade.

Section CascadeIntegrity.
Context {P : Type}.
Implicit Types (d : db P) (t : tables P).

Lemma referenced_row_is_deleted {A : Type} (key : A → Z)
    (rows : list A) (i : Z) :
  i ∈ key <$> rows → i ∈ key <$> filter (λ x, key x = i) rows.
Proof.
  intros (x & -> & Hx)%list_elem_of_fmap. apply list_elem_of_fmap.
  exists x. split; [done|]. by apply list_elem_of_filter.
Qed.

(** C5.  On a consistent database that carries the foreign keys of
    migration 001: deleting a document always succeeds and leaves no alert
    pointing at it; a delete of a municipality that goes through leaves none
    of its meetings, none of their documents and none of the alerts on those
    documents; either way every foreign key still holds afterwards, so no
    orphaned meeting, document or alert remains.  The delete of a
    municipality goes through whenever no property and no ingest job points
    at it. *)
Theorem cascade_integrity d :
  consistent d →
  Migration001.declared_constraints ⊆ schema d →
  (∀ i, ∃ d', delete_document i d = Ok d'
      ∧ (∀ x, x ∈ documents (data d') → Document.id x ≠ i)
      ∧ (∀ a, a ∈ alerts (data d') → Alert.document_id a ≠ Some i)
      ∧ holds alerts_document_id_fkey (data d')
      ∧ consistent d' ∧ schema d' = schema d)
  ∧ (∀ i d', delete_municipality i d = Ok d' →
      (∀ x, x ∈ municipalities (data d') → Municipality.id x ≠ i)
      ∧ (∀ m, m ∈ meetings (data d') → Meeting.municipality_id m ≠ Some i)
      ∧ (∀ m x, m ∈ meetings (data d) → Meeting.municipality_id m = Some i →
           x ∈ documents (data d) → Document.meeting_id x = Meeting.id m →
           (x ∉ documents (data d'))
           ∧ (∀ a, a ∈ alerts (data d) →
                   Alert.document_id a = Some (Document.id x) →
                   a ∉ alerts (data d')))
      ∧ holds meetings_municipality_id_fkey (data d')
      ∧ holds documents_meeting_id_fkey (data d')
      ∧ holds alerts_document_id_fkey (data d')
      ∧ consistent d' ∧ schema d' = schema d)
  ∧ (∀ i,
      Forall (λ p, Property.municipality_id p ≠ Some i)
        (properties (data d)) →
      Forall (λ j, IngestJob.municipality_id j ≠ Some i)
        (ingest_jobs (data d)) →
      ∃ d', delete_municipality i d = Ok d').
Proof.
  intros Hd Hs.
  assert (alerts_document_id_fkey ∈ schema d) as Hafk
    by (apply Hs; unfold Migration001.declared_constraints; set_solver).
  assert (documents_meeting_id_fkey ∈ schema d) as Hdfk
    by (apply Hs; unfold Migration001.declared_constraints; set_solver).
  assert (meetings_municipality_id_fkey ∈ schema d) as Hmfk
    by (apply Hs; unfold Migration001.declared_constraints; set_solver).
  split_and!.
  - intros i. eexists. split; [by apply delete_document_Ok|].
    assert (consistent
              (mk_db (remove_documents (schema d)
                        (λ x, Document.id x = i) (data d))
                 (schema d) (indexes d))) as Hd'.
    { apply Forall_forall. intros c Hc. by apply holds_remove_documents. }
    rewrite remove_documents_cascade in Hd' |- * by done. simpl.
    split_and!; [| |exact (consistent_holds _ _ Hd' Hafk)|exact Hd'|done].
    + by intros x [Hx _]%list_elem_of_filter.
    + intros a [Hkeep Ha]%list_elem_of_filter Hdoc. apply Hkeep.
      rewrite Hdoc. simpl. apply referenced_row_is_deleted.
      pose proof (consistent_holds _ _ Hd Hafk) as Hfk. simpl in Hfk.
      rewrite Forall_forall in Hfk. specialize (Hfk a Ha).
      by rewrite Hdoc in Hfk.
  - intros i d' Hdel. unfold delete_municipality in Hdel.
    pose proof (commit_consistent _ _ _ Hdel) as Hd'.
    apply commit_Ok in Hdel as [-> _].
    rewrite remove_municipalities_cascade in Hd' |- * by done.
    assert (∀ m, m ∈ meetings (data d) →
                 Meeting.municipality_id m = Some i →
                 refers (Municipality.id
                           <$> filter (λ x, Municipality.id x = i)
                                 (municipalities (data d)))
                   (Meeting.municipality_id m)) as Hgone.
    { intros m Hm Hmu. rewrite Hmu. simpl. apply referenced_row_is_deleted.
      pose proof (consistent_holds _ _ Hd Hmfk) as Hfk. simpl in Hfk.
      rewrite Forall_forall in Hfk. specialize (Hfk m Hm).
      by rewrite Hmu in Hfk. }
    simpl. split_and!;
      [| | |by apply (consistent_holds _ _ Hd' Hmfk)
           |by apply (consistent_holds _ _ Hd' Hdfk)
           |by apply (consistent_holds _ _ Hd' Hafk)|done..].
    + by intros x [Hx _]%list_elem_of_filter.
    + intros m [Hkeep Hm]%list_elem_of_filter Hmu. apply Hkeep. by apply Hgone.
    + intros m x Hm Hmu Hx Hxm.
      assert (Document.meeting_id x
              ∈ Meeting.id
                  <$> filter (λ m, refers
                                (Municipality.id
                                   <$> filter (λ x, Municipality.id x = i)
                                         (municipalities (data d)))
                                (Meeting.municipality_id m))
                        (meetings (data d))) as Hsel.
      { rewrite Hxm. apply list_elem_of_fmap. exists m. split; [done|].
        apply list_elem_of_filter. split; [by apply Hgone | done]. }
      split.
      * intros [Hkeep _]%list_elem_of_filter. by apply Hkeep.
      * intros a Ha Hdoc [Hkeep _]%list_elem_of_filter. apply Hkeep.
        rewrite Hdoc. simpl. apply list_elem_of_fmap. exists x.
        split; [done|]. by apply list_elem_of_filter.
  - intros i Hp Hj. eexists. unfold delete_municipality. apply commit_Ok.
    split; [done|]. rewrite remove_municipalities_cascade by done.
    apply Forall_forall. intros c Hc.
    apply holds_after_municipality_delete; [by apply consistent_holds|done..].
Qed.

(** X2.  A municipality that a property points at cannot be deleted: the
    foreign key of [properties] has no delete action, the statement fails
    with a foreign key violation and nothing is deleted. *)
Theorem referenced_municipality_is_kept d (i : Z) (p : Property.t) :
  consistent d →
  Migration001.declared_constraints ⊆ schema d →
  p ∈ properties (data d) → Property.municipality_id p = Some i →
  ∃ c, (c = properties_municipality_id_fkey
        ∨ c = ingest_jobs_municipality_id_fkey)
       ∧ delete_municipality i d = Err (foreign_key_violation c)
       ∧ after d (delete_municipality i d) = d.
Proof.
  intros Hd Hs Hp Hmu.
  assert (properties_municipality_id_fkey ∈ schema d) as Hpfk
    by (apply Hs; unfold Migration001.declared_constraints; set_solver).
  unfold delete_municipality.
  rewrite remove_municipalities_cascade by done.
  destruct (commit _ _) as [d'|e] eqn:E.
  - exfalso. apply commit_Ok in E as [_ Hall].
    rewrite Forall_forall in Hall. specialize (Hall _ Hpfk). simpl in Hall.
    rewrite Forall_forall in Hall. specialize (Hall p Hp).
    rewrite Hmu in Hall. simpl in Hall. unfold municipality_ids in Hall.
    simpl in Hall.
    apply list_elem_of_fmap in Hall as (x & Hx & [Hne _]%list_elem_of_filter).
    by apply Hne.
  - apply commit_Err in E as (c & Hc & Hnot & ->).
    assert (c = properties_municipality_id_fkey
            ∨ c = ingest_jobs_municipality_id_fkey) as Hcases.
    { destruct (decide (c = properties_municipality_id_fkey)); [by left|].
      destruct (decide (c = ingest_jobs_municipality_id_fkey)); [by right|].
      exfalso. apply Hnot.
      apply holds_after_municipality_delete_cascading; [done..|].
      by apply consistent_holds. }
    exists c. split_and!; [done| |done].
    by destruct Hcases as [-> | ->].
Qed.

End CascadeIntegrity.

(** ** Ingestion and the unique content hash *)

Lemma filter_none {A : Type} (Q : A → Prop) `{!∀ x, Decision (Q x)}
    (l : list A) :
  Forall (λ x, ¬ Q x) l → filter Q l = [].
Proof.
  induction 1 as [|x l Hx _ IH]; [done|]. by rewrite filter_cons_False.
Qed.

Section Ingest.
Import Api.
Context {P : Type}.
Implicit Types (d : db P) (t : tables P).

(** Under [UNIQUE (content_hash)] the rows with a given hash are at most
    one. *)
Lemma unique_hash_filter (l : list Document.t) (x : Document.t) (h : string) :
  unique_non_null (Document.content_hash <$> l) →
  x ∈ l → Document.content_hash x = Some h →
  filter (λ y, Document.content_hash y = Some h) l = [x].
Proof.
  unfold unique_non_null. induction l as [|y l IH]; intros Hnd Hx Hh.
  - by apply elem_of_nil in Hx.
  - rewrite fmap_cons in Hnd. simpl in Hnd.
    assert (∀ z, z ∈ l → Document.content_hash z = Some h →
                 h ∈ omap id (Document.content_hash <$> l)) as Hin.
    { intros z Hz Hzh. apply list_elem_of_omap. exists (Some h).
      split; [|done]. apply list_elem_of_fmap. eauto. }
    apply elem_of_cons in Hx as [<-|Hx].
    + rewrite Hh in Hnd. simpl in Hnd. apply NoDup_cons in Hnd as [Hnot _].
      rewrite filter_cons_True by done. f_equal.
      apply filter_none, Forall_forall. intros z Hz Hzh. eauto.
    + destruct (Document.content_hash y) as [hy|] eqn:Hy; simpl in Hnd.
      * apply NoDup_cons in Hnd as [Hnot Hnd].
        rewrite filter_cons_False; [by apply IH|].
        rewrite Hy. intros [= ->]. eauto.
      * rewrite filter_cons_False by (by rewrite Hy). by apply IH.
Qed.

Lemma unique_hash_at_most_one (l : list Document.t) (h : string) :
  unique_non_null (Document.content_hash <$> l) →
  (length (filter (λ y, Document.content_hash y = Some h) l) ≤ 1)%nat.
Proof.
  intros Hu. destruct (filter _ l) as [|x k] eqn:E; [simpl; lia|].
  assert (x ∈ filter (λ y, Document.content_hash y = Some h) l) as Hx
    by (rewrite E; left).
  apply list_elem_of_filter in Hx as [Hh Hx].
  rewrite (unique_hash_filter l x h Hu Hx Hh) in E. by injection E as <-.
Qed.

(** Adding a document row can break only the constraints of
    [documents]. *)
Lemma holds_add_document c t (row : Document.t) :
  c ≠ documents_content_hash_unique → c ≠ documents_meeting_id_fkey →
  holds c t → holds c (set_documents (documents t ++ [row]) t).
Proof.
  intros H1 H2. destruct c; try done. simpl.
  unfold document_ids. simpl. intros Hfk.
  eapply Forall_impl; [exact Hfk|]. intros a Ha. simpl in Ha.
  destruct (Alert.document_id a) as [j|]; simpl in *; [|done].
  rewrite fmap_app. apply elem_of_app. by left.
Qed.

(** On a consistent database whose schema has the unique constraint, an
    ingest that succeeds leaves exactly one document with the ingested hash
    and a second ingest of the same content returns it. *)
Lemma ingest_idempotent d (meeting : Z) (h fmt : string) d1 (i : Z) :
  consistent d → documents_content_hash_unique ∈ schema d →
  ingest meeting h fmt d = Success (d1, i) →
  consistent d1 ∧ schema d1 = schema d
  ∧ (∃ x, filter (λ y, Document.content_hash y = Some h)
            (documents (data d1)) = [x]
          ∧ Document.id x = i)
  ∧ ingest meeting h fmt d1 = Success (d1, i).
Proof.
  intros Hd Hu. unfold ingest at 1.
  destruct (insert_document _ _ _ _ d) as [[d' i']|e] eqn:E.
  - intros [= -> ->]. unfold insert_document in E.
    bind_inv E d' Hc. injection E as -> <-.
    pose proof (commit_consistent _ _ _ Hc) as Hd1.
    apply commit_Ok in Hc as [-> Hall]. simpl.
    set (row := Document.mk (next_id (document_ids (data d))) meeting
                  (Some h) "pending" fmt) in *.
    set (t1 := set_documents (documents (data d) ++ [row]) (data d)) in *.
    assert (filter (λ y, Document.content_hash y = Some h) (documents t1)
            = [row]) as Hone.
    { apply unique_hash_filter; [|simpl; set_solver|done].
      rewrite Forall_forall in Hall. apply (Hall _ Hu). }
    split_and!; [done|done|by exists row|].
    unfold ingest.
    destruct (insert_document meeting (Some h) "pending" fmt
                (mk_db t1 (schema d) (indexes d))) as [[d2 i2]|e] eqn:E2.
    + exfalso. unfold insert_document in E2. bind_inv E2 d2' Hc2.
      apply commit_Ok in Hc2 as [_ Hall2]. simpl in Hall2.
      rewrite Forall_forall in Hall2. specialize (Hall2 _ Hu).
      simpl in Hall2. unfold unique_non_null in Hall2.
      rewrite !fmap_app, !omap_app in Hall2. simpl in Hall2.
      apply NoDup_app in Hall2 as (_ & Hdisj & _).
      eapply Hdisj; [apply elem_of_app; right; left | left].
    + unfold insert_document in E2.
      destruct (commit _ _) as [?|e2] eqn:Hc2; [discriminate|].
      simpl in E2. injection E2 as <-.
      apply commit_Err in Hc2 as (c & Hc & Hnot & ->). simpl in Hc.
      assert (c = documents_content_hash_unique) as ->.
      { destruct (decide (c = documents_content_hash_unique)); [done|].
        exfalso. apply Hnot. simpl.
        destruct (decide (c = documents_meeting_id_fkey)) as [->|Hne].
        - rewrite Forall_forall in Hall. specialize (Hall _ Hc).
          simpl in *. unfold meeting_ids in *. simpl in *.
          apply Forall_app. split; [done|].
          apply Forall_singleton. simpl.
          apply Forall_app in Hall as [_ Hrow].
          rewrite Forall_singleton in Hrow. exact Hrow.
        - apply (holds_add_document c t1); [done..|].
          rewrite Forall_forall in Hall. by apply Hall. }
      unfold document_by_hash. simpl in Hone |- *. by rewrite Hone.
  - destruct e as [c| | | | |]; try discriminate.
    destruct c; try discriminate.
    destruct (document_by_hash h d) as [j|] eqn:Hj; [|discriminate].
    intros [= <- <-]. split_and!; [done|done| |].
    + unfold document_by_hash in Hj.
      destruct (filter _ _) as [|x k] eqn:Ef; [discriminate|].
      simpl in Hj. injection Hj as <-.
      assert (x ∈ filter (λ y, Document.content_hash y = Some h)
                    (documents (data d))) as Hx by (rewrite Ef; left).
      apply list_elem_of_filter in Hx as [Hh Hx].
      exists x. split; [|done]. rewrite <- Ef.
      apply unique_hash_filter; [|done..].
      apply (consistent_holds _ _ Hd Hu).
    + unfold ingest. by rewrite E, Hj.
Qed.

(** A new hash for an existing meeting is stored as a [pending]
    document under a fresh id. *)
Lemma ingest_new_document d (meeting : Z) (h fmt : string) :
  consistent d →
  meeting ∈ meeting_ids (data d) →
  Forall (λ x, Document.content_hash x ≠ Some h) (documents (data d)) →
  ingest meeting h fmt d
  = Success
      (mk_db
         (set_documents
            (documents (data d)
             ++ [Document.mk (next_id (document_ids (data d))) meeting
                   (Some h) "pending" fmt]) (data d))
         (schema d) (indexes d),
       next_id (document_ids (data d))).
Proof.
  intros Hd Hm Hnew. unfold ingest, insert_document.
  set (row := Document.mk _ meeting (Some h) "pending" fmt).
  assert (commit d (set_documents (documents (data d) ++ [row]) (data d))
          = Ok (mk_db (set_documents (documents (data d) ++ [row]) (data d))
                  (schema d) (indexes d))) as ->; [|done].
  apply commit_Ok. split; [done|]. apply Forall_forall. intros c Hc.
  pose proof (consistent_holds _ _ Hd Hc) as Hh.
  destruct (decide (c = documents_content_hash_unique)) as [->|Hne1].
  { simpl in *. unfold unique_non_null in *.
    rewrite fmap_app, omap_app. simpl. apply NoDup_app.
    split_and!; [done| |apply NoDup_singleton].
    intros x (o & (y & -> & Hy)%list_elem_of_fmap & Ho)%list_elem_of_omap
             [->|[]%elem_of_nil]%elem_of_cons.
    rewrite Forall_forall in Hnew. by apply (Hnew y Hy). }
  destruct (decide (c = documents_meeting_id_fkey)) as [->|Hne2].
  { simpl in *. apply Forall_app. split; [done|]. by apply Forall_singleton. }
  by apply holds_add_document.
Qed.

(** A hash that is stored already: the insert is refused by the unique
    constraint and the ingest answers with the stored document, leaving the
    database as it is. *)
Lemma ingest_existing d (meeting : Z) (h fmt : string) (x : Document.t) :
  consistent d → documents_content_hash_unique ∈ schema d →
  meeting ∈ meeting_ids (data d) →
  x ∈ documents (data d) → Document.content_hash x = Some h →
  ingest meeting h fmt d = Success (d, Document.id x).
Proof.
  intros Hd Hu Hm Hx Hh. unfold ingest, insert_document.
  set (row := Document.mk _ meeting (Some h) "pending" fmt).
  set (t1 := set_documents (documents (data d) ++ [row]) (data d)).
  assert (¬ holds documents_content_hash_unique t1) as Hbroken.
  { simpl. unfold unique_non_null. rewrite fmap_app, omap_app. simpl.
    intros Hnd. apply NoDup_app in Hnd as (_ & Hdisj & _).
    apply (Hdisj h); [|left]. apply list_elem_of_omap. exists (Some h).
    split; [|done]. apply list_elem_of_fmap. eauto. }
  destruct (commit d t1) as [d'|e] eqn:E.
  - exfalso. apply commit_Ok in E as [_ Hall].
    rewrite Forall_forall in Hall. by apply Hbroken, Hall.
  - apply commit_Err in E as (c & Hc & Hnot & ->).
    assert (c = documents_content_hash_unique) as ->.
    { destruct (decide (c = documents_content_hash_unique)); [done|].
      exfalso. apply Hnot.
      destruct (decide (c = documents_meeting_id_fkey)) as [->|Hne].
      - simpl. apply Forall_app. split.
        + apply (consistent_holds documents_meeting_id_fkey _ Hd Hc).
        + by apply Forall_singleton.
      - apply holds_add_document; [done..|by apply consistent_holds]. }
    simpl. unfold document_by_hash.
    rewrite (unique_hash_filter _ x h); [done| |done|done].
    apply (consistent_holds documents_content_hash_unique _ Hd Hu).
Qed.

End Ingest.

(** C1.  After migrations 002 and 003 no two documents share a content
    hash.  On such a database the ingest of a hash that is not stored yet,
    for a meeting of the table, adds one [pending] document with that hash
    and returns its id; the ingest of a hash that is stored adds nothing
    and returns the id of the stored document.  So an ingest that
    succeeds leaves exactly one document with the ingested hash and returns
    its id, and ingesting the same content again changes nothing and returns
    the same id. *)
Theorem ingest_deduplicates
    (lower : string → string) (d0 d2 d : db jsonb) :
  Migration002.run lower d0 = Ok d2 →
  Migration003.run d2 = Ok d →
  (∀ h, (length (filter (λ x, Document.content_hash x = Some h)
                   (documents (data d))) ≤ 1)%nat)
  ∧ (∀ meeting h fmt,
       meeting ∈ meeting_ids (data d) →
       Forall (λ x, Document.content_hash x ≠ Some h) (documents (data d)) →
       ∃ d1 i,
         Api.ingest meeting h fmt d = Api.Success (d1, i)
         ∧ documents (data d1)
           = (documents (data d)
              ++ [Document.mk i meeting (Some h) "pending" fmt])
         ∧ Api.ingest meeting h fmt d1 = Api.Success (d1, i))
  ∧ (∀ meeting h fmt x,
       meeting ∈ meeting_ids (data d) →
       x ∈ documents (data d) → Document.content_hash x = Some h →
       Api.ingest meeting h fmt d = Api.Success (d, Document.id x))
  ∧ (∀ meeting h fmt d1 i,
       Api.ingest meeting h fmt d = Api.Success (d1, i) →
       (∃ x, filter (λ y, Document.content_hash y = Some h)
               (documents (data d1)) = [x]
             ∧ Document.id x = i)
       ∧ Api.ingest meeting h fmt d1 = Api.Success (d1, i)
       ∧ (∀ h', (length (filter (λ x, Document.content_hash x = Some h')
                           (documents (data d1))) ≤ 1)%nat)).
Proof.
  intros H2 H3.
  apply run_002_Ok in H2 as (_ & _ & Hu2 & _).
  apply run_003_Ok in H3 as (_ & _ & Hsub & _ & Hd).
  assert (documents_content_hash_unique ∈ schema d) as Hu by by apply Hsub.
  split_and!.
  - intros h. apply unique_hash_at_most_one.
    apply (consistent_holds documents_content_hash_unique _ Hd Hu).
  - intros meeting h fmt Hm Hnew.
    pose proof (ingest_new_document d meeting h fmt Hd Hm Hnew) as Hfirst.
    eexists _, _. split; [exact Hfirst|]. split; [done|].
    by destruct (ingest_idempotent d meeting h fmt _ _ Hd Hu Hfirst)
      as (_ & _ & _ & Hagain).
  - intros meeting h fmt x. by apply ingest_existing.
  - intros meeting h fmt d1 i Hin.
    destruct (ingest_idempotent d meeting h fmt d1 i Hd Hu Hin)
      as (Hd1 & Hs1 & Hone & Hagain).
    split_and!; [done..|].
    intros h'. apply unique_hash_at_most_one.
    apply (consistent_holds documents_content_hash_unique _ Hd1).
    by rewrite Hs1.
Qed.

(** ** Alerts per company and document *)

Section AlertsPerPair.
Import Api.
Context {P : Type}.
Implicit Types (d : db P) (t : tables P).





End AlertsPerPair.

(** ** Tenant isolation *)

Section TenantIsolation.
Import Api.
Context {K E : Type} `{EqDecision K} `{!TenantOwned K E}.
Implicit Types (l : list E) (e : E).












End TenantIsolation.

(** ** Subscription scoping of property creation *)

Section PropertyCreation.
Import Api.
Context {P : Type}.
Implicit Types (d : db P) (t : tables P).

Lemma holds_add_property c t (row : Property.t) :
  Property.company_id row ∈ companies t →
  null_or (λ i, i ∈ municipality_ids t) (Property.municipality_id row) →
  is_Some (Property.municipality_id row) →
  (Property.company_id row, Property.address row)
    ∉ (λ p, (Property.company_id p, Property.address p)) <$> properties t →
  holds c t → holds c (set_properties (properties t ++ [row]) t).
Proof.
  intros Hco Hmu Hnn Hfresh.
  destruct c; simpl; try done; intros Hh;
    try ((apply Forall_app; split; [exact Hh|]); by apply Forall_singleton).
  rewrite fmap_app. apply NoDup_app. split_and!; [done| |apply NoDup_singleton].
  intros x Hx [->|[]%elem_of_nil]%elem_of_cons. done.
Qed.

(** C7.  A create-Property by company [C] in municipality [M] succeeds
    only if [C] subscribes to [M]; without the subscription row it is
    refused before anything is written.  With the row, on a consistent
    database under the constraints of migration 001, the create goes through
    for an address the company has not used yet. *)
Theorem property_creation_needs_subscription
    d (company muni : Z) (addr : string) (cty : option string) :
  (∀ d' i, create_property company muni addr cty d = Success (d', i) →
           CompanyMunicipality.mk company muni
             ∈ company_municipalities (data d))
  ∧ (CompanyMunicipality.mk company muni ∉ company_municipalities (data d) →
       create_property company muni addr cty d = Failure validation_error)
  ∧ (consistent d → Migration001.declared_constraints ⊆ schema d →
     CompanyMunicipality.mk company muni ∈ company_municipalities (data d) →
     (company, addr)
       ∉ (λ p, (Property.company_id p, Property.address p))
           <$> properties (data d) →
     ∃ d' i, create_property company muni addr cty d = Success (d', i)
             ∧ properties (data d')
               = properties (data d)
                 ++ [Property.mk i company (Some muni) addr cty]).
Proof.
  split_and!.
  - intros d' i. unfold create_property. by case_decide.
  - intros Hno. unfold create_property. by rewrite decide_False.
  - intros Hd Hs Hsub Hfresh. unfold create_property.
    rewrite decide_True by done. unfold insert_property.
    set (row := Property.mk _ company (Some muni) addr cty).
    assert (commit d (set_properties (properties (data d) ++ [row]) (data d))
            = Ok (mk_db (set_properties (properties (data d) ++ [row])
                           (data d)) (schema d) (indexes d))) as ->.
    { apply commit_Ok. split; [done|]. apply Forall_forall. intros c Hc.
      assert (company_municipalities_company_id_fkey ∈ schema d) as Hc1
        by (apply Hs; unfold Migration001.declared_constraints; set_solver).
      assert (company_municipalities_municipality_id_fkey ∈ schema d) as Hc2
        by (apply Hs; unfold Migration001.declared_constraints; set_solver).
      pose proof (consistent_holds _ _ Hd Hc1) as Hf1.
      pose proof (consistent_holds _ _ Hd Hc2) as Hf2.
      simpl in Hf1, Hf2. rewrite Forall_forall in Hf1, Hf2.
      apply holds_add_property; simpl;
        [exact (Hf1 _ Hsub)|exact (Hf2 _ Hsub)|done|done|
         by apply consistent_holds]. }
    simpl. eexists _, _. split; done.
Qed.

End PropertyCreation.

(** ** Identity claims *)

Section IdentityClaims.
Import Auth.

Lemma split_on_app (sep : ascii) (a b : string) :
  has_char sep a = false →
  split_on sep (a +:+ String sep b) = a :: split_on sep b.
Proof.
  induction a as [|c a IH]; simpl.
  - intros _. by rewrite decide_True.
  - intros [Hc Ha]%orb_false_elim. apply bool_decide_eq_false in Hc.
    rewrite decide_False by done. by rewrite IH.
Qed.

(** The payload segment of a three-part token. *)
Lemma payload_segment (h p s : string) :
  has_char "."%char h = false → has_char "."%char p = false →
  split_on "."%char (h +:+ String "."%char (p +:+ String "."%char s))
    !! 1%nat = Some p.
Proof. intros Hh Hp. by rewrite !split_on_app. Qed.

Variable parse_payload : string → option (gmap string js_value).

Lemma sign_in_claims t access (h p s : string) u claims :
  has_char "."%char h = false → has_char "."%char p = false →
  parse_payload
    (replace_char "_"%char "/"%char (replace_char "-"%char "+"%char p))
  = Some claims →
  company_id
    (sign_in parse_payload t access
       (h +:+ String "."%char (p +:+ String "."%char s)) u)
  = js_or (prop claims "company_id")
      (prop claims "https://brightstone.ca/company_id")
  ∧ role
      (sign_in parse_payload t access
         (h +:+ String "."%char (p +:+ String "."%char s)) u)
    = js_or (js_or (prop claims "role")
               (prop claims "https://brightstone.ca/role"))
        (js_string "analyst").
Proof.
  intros Hh Hp Hparse. unfold sign_in, jwt. simpl.
  rewrite decide_False by (by destruct h).
  unfold decode_claims. rewrite payload_segment by done. simpl.
  rewrite Hparse. by destruct u.
Qed.

(** X30.  At sign-in the company and the role are read from the claims
    in the payload of the id token: the company is the [company_id] claim
    or else the namespaced one, the role likewise with [analyst] as
    fallback.  The session takes both from the token and from nothing else,
    and a token without a company claim gets the company [default]. *)
Theorem company_id_comes_from_the_claims
    t access (h p s : string) u claims :
  has_char "."%char h = false → has_char "."%char p = false →
  parse_payload
    (replace_char "_"%char "/"%char (replace_char "-"%char "+"%char p))
  = Some claims →
  let signed :=
    sign_in parse_payload t access
      (h +:+ String "."%char (p +:+ String "."%char s)) u in
  company_id signed
  = js_or (prop claims "company_id")
      (prop claims "https://brightstone.ca/company_id")
  ∧ role signed
    = js_or (js_or (prop claims "role")
               (prop claims "https://brightstone.ca/role"))
        (js_string "analyst")
  ∧ su_company_id (session_user_ (session_callback signed))
    = js_or (company_id signed) (js_string "default")
  ∧ su_role (session_user_ (session_callback signed))
    = js_or (role signed) (js_string "analyst")
  ∧ (truthy (prop claims "company_id") = false →
     truthy (prop claims "https://brightstone.ca/company_id") = false →
     su_company_id (session_user_ (session_callback signed))
     = js_string "default").
Proof.
  intros Hh Hp Hparse signed.
  destruct (sign_in_claims t access h p s u claims Hh Hp Hparse) as [Hc Hr].
  subst signed. simpl. split_and!; [done..|].
  intros H1 H2. rewrite Hc. unfold js_or. by rewrite H1, H2.
Qed.

(** X1.  The signature segment of the id token is not read: two tokens that
    differ in it alone give the same company and role. *)
Lemma signature_segment_is_not_read t access (h p s s' : string) u :
  has_char "."%char h = false → has_char "."%char p = false →
  company_id
    (sign_in parse_payload t access
       (h +:+ String "."%char (p +:+ String "."%char s)) u)
  = company_id
      (sign_in parse_payload t access
         (h +:+ String "."%char (p +:+ String "."%char s')) u)
  ∧ role
      (sign_in parse_payload t access
         (h +:+ String "."%char (p +:+ String "."%char s)) u)
    = role
        (sign_in parse_payload t access
           (h +:+ String "."%char (p +:+ String "."%char s')) u).
Proof.
  intros Hh Hp. unfold sign_in, jwt. simpl.
  rewrite !decide_False by (by destruct h).
  unfold decode_claims. rewrite !payload_segment by done. simpl.
  destruct (parse_payload _); by destruct u.
Qed.

End IdentityClaims.


(** ** The alerts list of the client *)

(** C8, what the code does: [apiClient.alerts.list] returns the same five
    alerts whatever the filters are, among them alerts that the filters
    exclude; asked for the resolved alerts of Toronto it also returns pending
    ones and one of Mississauga. *)
Theorem alerts_list_ignores_filters :
  (∀ p q, ApiClient.alerts_list p = ApiClient.alerts_list q)
  ∧ (let f := ApiClient.mk_filters (Some "resolved") (Some "Toronto")
                None None None in
     ApiClient.id <$> ApiClient.alerts_list (Some f) = [1; 2; 3; 4; 5]
     ∧ ApiClient.id
         <$> filter (ApiClient.matches_filters f)
               (ApiClient.alerts_list (Some f)) = [5]).
Proof. split; [done|]. by vm_compute. Qed.

(** ** The statements at work on the example database *)

Ltac compute_decision :=
  match goal with
  | |- ?Q => apply (bool_decide_unpack Q); vm_compute; exact I
  end.

Lemma migration_002_runs :
  Migration002.run Migration002.lower_c Example.legacy
  = Ok Example.migrated_002.
Proof. vm_compute. reflexivity. Qed.

Lemma migration_003_runs :
  Migration003.run Example.migrated_002 = Ok Example.migrated.
Proof. vm_compute. reflexivity. Qed.

Lemma example_consistent : consistent Example.migrated.
Proof. compute_decision. Qed.

Lemma example_carries_001 :
  Migration001.declared_constraints ⊆ schema Example.migrated.
Proof.
  intros c Hc. unfold Migration001.declared_constraints in Hc.
  repeat (apply elem_of_cons in Hc as [->|Hc]; [compute_decision|]).
  by apply elem_of_nil in Hc.
Qed.

(** C1 on the example: a document with the new hash [0f3c9a] for
    meeting 42 is stored as one more row, and ingesting it again answers
    the same id and changes nothing; ingesting the hash [abc123], which
    document 5 has, answers 5 and changes nothing. *)
Lemma ingest_deduplicates_witness :
  (∃ d1 i,
     Api.ingest 42 "0f3c9a" "pdf" Example.migrated = Api.Success (d1, i)
     ∧ documents (data d1)
       = (documents (data Example.migrated)
          ++ [Document.mk i 42 (Some "0f3c9a") "pending" "pdf"])
     ∧ Api.ingest 42 "0f3c9a" "pdf" d1 = Api.Success (d1, i))
  ∧ Api.ingest 42 "abc123" "pdf" Example.migrated
    = Api.Success (Example.migrated, 5).
Proof.
  destruct (ingest_deduplicates Migration002.lower_c
              Example.legacy Example.migrated_002 Example.migrated
              migration_002_runs migration_003_runs)
    as (_ & Hnew & Hold & _).
  split.
  - destruct (Hnew 42 "0f3c9a" "pdf") as (d1 & i & Hfirst & Hdocs & Hagain);
      [compute_decision..|].
    by exists d1, i.
  - exact (Hold 42 "abc123" "pdf"
             (Document.mk 5 42 (Some "abc123") "pending" "pdf")
             ltac:(compute_decision) ltac:(vm_compute; left) eq_refl).
Defined.




(** C4 on the example: alert 1 can be resolved, and the two statuses the
    alert card sends besides [resolved] are refused. *)
Lemma review_status_update_checked_witness :
  (∃ d', update_review_status 1 "resolved" Example.migrated = Ok d')
  ∧ update_review_status 1 (AlertCard.status_of AlertCard.MarkAsReviewing)
      Example.migrated
    = Err (check_violation alerts_review_status_check)
  ∧ update_review_status 1 (AlertCard.status_of AlertCard.FalsePositive)
      Example.migrated
    = Err (check_violation alerts_review_status_check).
Proof.
  assert (alerts_review_status_check ∈ schema Example.migrated) as Hin
    by compute_decision.
  assert (1 ∈ Alert.id <$> alerts (data Example.migrated)) as Hi
    by compute_decision.
  pose proof (review_status_update_checked Example.migrated 1 "resolved"
                example_consistent Hin Hi) as (_ & Hok & _).
  pose proof (review_status_update_checked Example.migrated 1
                (AlertCard.status_of AlertCard.MarkAsReviewing)
                example_consistent Hin Hi) as (_ & _ & Hr1).
  pose proof (review_status_update_checked Example.migrated 1
                (AlertCard.status_of AlertCard.FalsePositive)
                example_consistent Hin Hi) as (_ & _ & Hr2).
  split_and!.
  - destruct Hok as (d' & Hd' & _); [compute_decision|]. by exists d'.
  - apply Hr1. compute_decision.
  - apply Hr2. compute_decision.
Defined.

(** C5 on the example: deleting Mississauga, which no property and no
    ingest job points at, goes through and takes meeting 43, document 6 and
    alert 2 along. *)
Lemma cascade_integrity_witness :
  ∃ d', delete_municipality 2 Example.migrated = Ok d'
        ∧ Meeting.id <$> meetings (data d') = [42]
        ∧ Document.id <$> documents (data d') = [5]
        ∧ Alert.id <$> alerts (data d') = [1; 3]
        ∧ consistent d'.
Proof.
  destruct (cascade_integrity Example.migrated example_consistent
              example_carries_001) as (_ & Hchain & Hgoes).
  destruct (Hgoes 2) as [d' Hd']; [compute_decision..|].
  exists d'. destruct (Hchain 2 d' Hd') as (_ & _ & _ & _ & _ & _ & Hc & _).
  assert (delete_municipality 2 Example.migrated = Ok d') as Hrun by done.
  vm_compute in Hrun. injection Hrun as <-.
  split_and!; [exact Hd'|reflexivity..|exact Hc].
Defined.

(** A sign-in with a token whose payload [e30] is the empty object: the
    session is one of the company [default] with the role [analyst]. *)
Lemma company_id_comes_from_the_claims_witness :
  Auth.su_company_id
    (Auth.session_user_
       (Auth.session_callback
          (Auth.sign_in Auth.parse_empty_object Auth.blank_token
             (js_string "access") "header.e30.signature" None)))
  = js_string "default"
  ∧ Auth.su_role
      (Auth.session_user_
         (Auth.session_callback
            (Auth.sign_in Auth.parse_empty_object Auth.blank_token
               (js_string "access") "header.e30.signature" None)))
    = js_string "analyst".
Proof.
  destruct (company_id_comes_from_the_claims Auth.parse_empty_object
              Auth.blank_token (js_string "access")
              "header" "e30" "signature" None ∅
              eq_refl eq_refl eq_refl)
    as (_ & Hrole & _ & Hsrole & Hdefault).
  split; [exact (Hdefault eq_refl eq_refl)|].
  etrans; [exact Hsrole|]. by rewrite Hrole.
Defined.

(** The same sign-in with a forged signature segment. *)
Lemma signature_segment_is_not_read_witness :
  Auth.company_id
    (Auth.sign_in Auth.parse_empty_object Auth.blank_token
       (js_string "access") "header.e30.signature" None)
  = Auth.company_id
      (Auth.sign_in Auth.parse_empty_object Auth.blank_token
         (js_string "access") "header.e30.forged" None).
Proof.
  exact (proj1 (signature_segment_is_not_read Auth.parse_empty_object
                  Auth.blank_token (js_string "access")
                  "header" "e30" "signature" "forged" None
                  eq_refl eq_refl)).
Defined.

(** C7 on the example: company 7 subscribes to Toronto (1) and may add a
    property there; company 8 has no subscription and is refused, although
    the tables themselves would take the row. *)
Lemma property_creation_needs_subscription_witness :
  (∃ d' i, Api.create_property 7 1 "456 Queen Street East" None
             Example.migrated = Api.Success (d', i))
  ∧ Api.create_property 8 1 "456 Queen Street East" None Example.migrated
    = Api.Failure Api.validation_error
  ∧ ∃ d' i, insert_property 8 (Some 1) "456 Queen Street East" None
              Example.migrated = Ok (d', i).
Proof.
  destruct (property_creation_needs_subscription Example.migrated 7 1
              "456 Queen Street East" None) as (_ & _ & Hok).
  destruct (property_creation_needs_subscription Example.migrated 8 1
              "456 Queen Street East" None) as (_ & Hno & _).
  split_and!.
  - destruct Hok as (d' & i & Hd' & _);
      [exact example_consistent|exact example_carries_001|
       compute_decision..|].
    by exists d', i.
  - apply Hno. compute_decision.
  - eexists _, _. vm_compute. reflexivity.
Defined.

(** X4.  The pattern [[%]] asks for both brackets: it holds of the texts
    that open with one and close with the other. *)
Lemma like_bracketed_spec (t : string) :
  Migration003.like_bracketed t = true ↔
  ∃ mid, t = String "["%char (mid +:+ "]").
Proof.
  assert (∀ s, Migration003.last_char s = Some "]"%char ↔
               ∃ mid, s = mid +:+ "]") as Hlast.
  { induction s as [|c s IH]; simpl.
    - split; [discriminate|]. intros [[|? ?] ?]; discriminate.
    - destruct s as [|c' s'].
      + split.
        * intros [= ->]. by exists "".
        * intros [[|? [|? ?]] Hm]; simpl in Hm; try discriminate.
          by injection Hm as ->.
      + rewrite IH. split.
        * intros [mid ->]. by exists (String c mid).
        * intros [[|c0 mid] Hm]; simpl in Hm; [discriminate|].
          injection Hm as -> Hm. by exists mid. }
  destruct t as [|c t]; simpl.
  - split; [discriminate|]. by intros [? ?].
  - rewrite andb_true_iff, !bool_decide_eq_true, Hlast. split.
    + intros [-> [mid ->]]. by exists mid.
    + intros [mid [= -> ->]]. eauto.
Qed.


(** C10 on the example: alerts 1 and 3 had no document; after the
    migration both point at document 5, the first of the table. *)
Lemma null_document_ids_take_first_document_witness :
  Alert.document_id <$> alerts (data Example.migrated_002)
  = [None; Some 6; None]
  ∧ Alert.document_id <$> alerts (data Example.migrated)
    = [Some 5; Some 6; Some 5]
  ∧ Forall (λ a, is_Some (Alert.document_id a))
      (alerts (data Example.migrated)).
Proof.
  split_and!; [reflexivity..|].
  apply (null_document_ids_take_first_document
           Example.migrated_002 Example.migrated
           (Document.mk 5 42 (Some "abc123") "pending" "pdf")
           [Document.mk 6 43 (Some "def456") "processed" "html"]
           eq_refl migration_003_runs).
Defined.

(** Toronto, which property 1 points at, cannot be deleted. *)
Lemma referenced_municipality_is_kept_witness :
  delete_municipality 1 Example.migrated
  = Err (foreign_key_violation properties_municipality_id_fkey)
  ∧ after Example.migrated (delete_municipality 1 Example.migrated)
    = Example.migrated.
Proof.
  destruct (referenced_municipality_is_kept Example.migrated 1
              (Property.mk 1 7 (Some 1) "123 King Street West"
                 (Some "TORONTO"))
              example_consistent example_carries_001
              ltac:(vm_compute; left) eq_refl)
    as (c & _ & _ & Hsame).
  split; [by vm_compute | exact Hsame].
Defined.

(** The legacy status [reviewing] of alert 1 is [reviewed] after
    migration 002. *)
Lemma review_statuses_after_002_witness :
  Alert.review_status <$> alerts (data Example.legacy)
  = [Some "reviewing"; Some "pending"; Some "resolved"]
  ∧ Alert.review_status <$> alerts (data Example.migrated_002)
    = [Some "reviewed"; Some "pending"; Some "resolved"]
  ∧ Forall (λ a, Alert.review_status a ≠ Some "reviewing")
      (alerts (data Example.migrated_002)).
Proof.
  split_and!; [reflexivity..|].
  exact (proj2 (review_statuses_after_002 Migration002.lower_c
                  Example.legacy Example.migrated_002 migration_002_runs)).
Defined.

(** The property form hands on a name, an address, a legal description
    and the aliases, split and trimmed; a municipality is not among them. *)
Lemma handleSubmit_example :
  PropertyForm.handleSubmit
    (PropertyForm.mk_form_data "King West" "123 King Street West" ""
       " Main Plaza, ,Block A ")
  = PropertyForm.mk_payload "King West" "123 King Street West" ""
      ["Main Plaza"; "Block A"].
Proof. reflexivity. Qed.

(** Migration 003 on a database without documents. *)
Lemma no_document_no_backfill_witness :
  Migration003.run Example.no_documents
  = Err (not_null_violation alerts_document_id_not_null).
Proof.
  assert (consistent Example.no_documents) as Hd by compute_decision.
  assert (Alert.mk 1 7 None (Some "pending") None None
            ∈ alerts (data Example.no_documents)) as Ha by left.
  exact (no_document_no_backfill Example.no_documents _ Hd eq_refl Ha
           eq_refl).
Defined.

(** ** Migration 002: what becomes of the rows *)

Section Migration002Rows.
Import Migration002.
Context {P : Type}.
Variable lower : string → string.
Implicit Types (d : db P).

Lemma filter_nil_Forall {A : Type} (Q : A → Prop) `{!∀ x, Decision (Q x)}
    (l : list A) :
  ¬ (0 < length (filter Q l))%nat → Forall (λ x, ¬ Q x) l.
Proof.
  intros Hn. apply Forall_forall. intros a Ha HQ. apply Hn.
  assert (a ∈ filter Q l) as Hin by by apply list_elem_of_filter.
  destruct (filter Q l); [by apply elem_of_nil in Hin | simpl; lia].
Qed.

Lemma backfill_properties_rows d d' :
  backfill_properties lower d = Ok d' →
  data d'
  = set_properties
      (backfill_property lower (municipalities (data d)) <$> properties (data d))
      (data d).
Proof.
  unfold backfill_properties. case_decide as Hn.
  - by intros [-> _]%commit_Ok.
  - intros [= <-]. apply filter_nil_Forall in Hn.
    replace (backfill_property lower (municipalities (data d)) <$> properties (data d))
      with (properties (data d)); [by destruct (data d)|].
    symmetry. etrans; [|apply list_fmap_id].
    apply Forall_fmap_ext_1. eapply Forall_impl; [exact Hn|].
    intros p Hp. simpl in Hp. unfold backfill_property.
    destruct (Property.municipality_id p); [done|]. by destruct Hp.
Qed.

Lemma backfilled_properties_not_null d d2 d3 :
  backfill_properties lower d = Ok d2 →
  set_not_null properties_municipality_id_not_null d2 = Ok d3 →
  Forall (λ p, is_Some (Property.municipality_id p)) (properties (data d2)).
Proof.
  intros H2 H3. unfold set_not_null in H3. case_decide as Hc.
  - unfold backfill_properties in H2. case_decide as Hn.
    + apply commit_Ok in H2 as [-> Hall]. simpl in *.
      rewrite Forall_forall in Hall. exact (Hall _ Hc).
    + injection H2 as <-. apply filter_nil_Forall in Hn.
      eapply Forall_impl; [exact Hn|]. intros p Hp. simpl in Hp.
      destruct (Property.municipality_id p); [done|]. by destruct Hp.
  - by apply add_constraint_Ok in H3 as [_ Hh].
Qed.

(** The rows that a successful run of migration 002 leaves, table by
    table, and the [NOT NULL] that the back-filled properties passed. *)
Lemma run_002_rows d d' :
  run lower d = Ok d' →
  let ms := municipalities (data d) in
  municipalities (data d') = ms
  ∧ documents (data d') = documents (data d)
  ∧ Forall (λ p, is_Some (Property.municipality_id p))
      (backfill_property lower ms <$> properties (data d))
  ∧ properties (data d')
    = filter (λ p, null_or (λ i, i ∈ municipality_ids (data d))
                     (Property.municipality_id p))
        (backfill_property lower ms <$> properties (data d))
  ∧ ingest_jobs (data d')
    = (λ j, let j2 := backfill_job ms
                        (with_job_municipality (IngestJob.municipality j)
                           None j) in
            with_job_municipality None (IngestJob.municipality_id j2) j2)
        <$> ingest_jobs (data d)
  ∧ audit_trails (data d')
    = filter (λ a, null_or (λ i, i ∈ document_ids (data d))
                     (AuditTrail.document_id a)) (audit_trails (data d))
  ∧ alerts (data d')
    = filter (λ a, null_or (λ i, i ∈ document_ids (data d))
                     (Alert.document_id a))
        ((λ a, if decide (Alert.review_status a = Some "reviewing")
               then with_review_status (Some "reviewed") a else a)
           <$> alerts (data d))
  ∧ ∀ v, v ∈ schema_migrations (data d')
         ↔ v ∈ schema_migrations (data d) ∨ v = "002_schema_optimizations".
Proof.
  unfold run. intros H.
  bind_inv H d1 H1. bind_inv H d2 H2. bind_inv H d3 H3. bind_inv H d4 H4.
  bind_inv H d5 H5. bind_inv H d6 H6. bind_inv H d7 H7. cbv zeta in H.
  bind_inv H d8 H8. bind_inv H d9 H9. bind_inv H d10 H10.
  bind_inv H d11 H11. bind_inv H d12 H12. cbv zeta in H.
  bind_inv H d13 H13. bind_inv H d14 H14. bind_inv H d15 H15.
  injection H as <-.
  pose proof (backfilled_properties_not_null _ _ _ H2 H3) as Hnn.
  apply add_constraint_Ok in H1 as [-> _].
  apply backfill_properties_rows in H2. simpl in H2.
  apply set_not_null_Ok in H3 as (E3 & _ & _).
  apply commit_data in H4, H5, H7, H9, H13, H14, H15.
  apply add_constraint_Ok in H6 as [-> _].
  apply add_constraint_Ok in H8 as [-> _].
  apply add_constraint_Ok in H10 as [-> _].
  apply drop_constraint_Ok in H11 as ->.
  apply add_constraint_Ok in H12 as [-> _].
  simpl in *. rewrite !create_index_data in *. simpl in *.
  rewrite H2 in Hnn. simpl in Hnn.
  assert (data (record_migration "002_schema_optimizations" d15)
          = set_schema_migrations
              (schema_migrations
                 (data (record_migration "002_schema_optimizations" d15)))
              (data d15)) as Hrec.
  { unfold record_migration. case_decide; [|done]. by destruct (data d15). }
  assert (∀ v, v ∈ schema_migrations
                     (data (record_migration "002_schema_optimizations" d15))
               ↔ v ∈ schema_migrations (data d15)
                 ∨ v = "002_schema_optimizations") as Hv.
  { intros v. unfold record_migration. case_decide as Hin; simpl.
    - split; [tauto|]. by intros [?| ->].
    - by rewrite elem_of_app, list_elem_of_singleton. }
  split_and!.
  1, 2, 4-7:
    rewrite Hrec, H15, H14, H13, H9, H7, H5, H4, E3, H2; simpl;
    by rewrite <- ?list_fmap_compose.
  - exact Hnn.
  - intros v. by rewrite Hv, H15, H14, H13, H9, H7, H5, H4, E3, H2.
Qed.

End Migration002Rows.

(** ** Migration 002, continued *)

Section Migration002More.
Import Migration002.
Context {P : Type}.
Variable lower : string → string.
Implicit Types (d : db P).


(** X7.  After migration 002 every property belongs to a municipality of
    the table, and a property that had none was given a municipality whose
    name is its city, up to what [LOWER] makes equal under the collation of
    the database. *)
Theorem properties_are_linked_by_city d d' :
  run lower d = Ok d' →
  (∀ p, p ∈ properties (data d') →
     ∃ m, m ∈ municipalities (data d')
          ∧ Property.municipality_id p = Some (Municipality.id m))
  ∧ (∀ p, p ∈ properties (data d) → Property.municipality_id p = None →
       ∃ c m, Property.city p = Some c
              ∧ m ∈ municipalities (data d)
              ∧ lower c = lower (Municipality.name m)
              ∧ with_municipality_id (Some (Municipality.id m)) p
                ∈ properties (data d')).
Proof.
  intros H. apply run_002_rows in H as (Hm & _ & Hnn & Hp & _). cbv zeta in *.
  rewrite Forall_forall in Hnn. split.
  - intros p Hin. rewrite Hp in Hin.
    apply list_elem_of_filter in Hin as [Href Hin].
    destruct (Hnn _ Hin) as [i Hi]. rewrite Hi in Href. simpl in Href.
    apply list_elem_of_fmap in Href as (m & -> & Hmin).
    exists m. by rewrite Hm.
  - intros p Hin Hnone.
    assert (backfill_property lower (municipalities (data d)) p
            ∈ backfill_property lower (municipalities (data d)) <$> properties (data d))
      as Hin' by (apply list_elem_of_fmap; eauto).
    pose proof (Hnn _ Hin') as [i Hi].
    unfold backfill_property in Hi, Hin'. rewrite Hnone in Hi, Hin'.
    destruct (Property.city p) as [c|]; [|simpl in Hi; congruence].
    destruct (list_find _ _) as [[k m]|] eqn:E; [|simpl in Hi; congruence].
    apply list_find_Some in E as (Hk & Hlow & _).
    exists c, m. split_and!; [done| |done|].
    + eapply list_elem_of_lookup_2, Hk.
    + rewrite Hp. apply list_elem_of_filter. split; [|done]. simpl.
      apply list_elem_of_fmap. exists m. split; [done|].
      eapply list_elem_of_lookup_2, Hk.
Qed.

(** X8.  Migration 002 replaces the municipality name of every ingest job
    by the id of the municipality of exactly that name, or by [NULL] when
    no municipality has it; the rest of the job is kept. *)
Theorem jobs_are_linked_by_name d d' :
  run lower d = Ok d' →
  Forall2
    (λ j j',
       IngestJob.id j' = IngestJob.id j
       ∧ IngestJob.company_id j' = IngestJob.company_id j
       ∧ IngestJob.status j' = IngestJob.status j
       ∧ IngestJob.municipality j' = None
       ∧ match IngestJob.municipality j with
         | Some n =>
             (∃ m, m ∈ municipalities (data d)
                   ∧ Municipality.name m = n
                   ∧ IngestJob.municipality_id j' = Some (Municipality.id m))
             ∨ (Forall (λ m, Municipality.name m ≠ n) (municipalities (data d))
                ∧ IngestJob.municipality_id j' = None)
         | None => IngestJob.municipality_id j' = None
         end)
    (ingest_jobs (data d)) (ingest_jobs (data d')).
Proof.
  intros H. apply run_002_rows in H as (_ & _ & _ & _ & Hj & _).
  cbv zeta in Hj. rewrite Hj. apply Forall2_fmap_r, Forall_Forall2_diag.
  apply Forall_forall. intros j _.
  unfold backfill_job. simpl.
  destruct (IngestJob.municipality j) as [n|]; [|done].
  destruct (list_find _ _) as [[k m]|] eqn:E; simpl.
  - apply list_find_Some in E as (Hk & Hname & _).
    split_and!; try done. left. exists m. split_and!; [|done..].
    eapply list_elem_of_lookup_2, Hk.
  - split_and!; try done. right. split; [|done].
    apply list_find_None in E. eapply Forall_impl; [exact E|].
    intros m Hm ?. by apply Hm.
Qed.

(** X9.  The clean-up at the end of migration 002 leaves no dangling
    reference: every alert and every audit trail that names a document
    names one of the table, and every property that names a municipality
    names one of the table -- also where no foreign key is declared, as
    on [audit_trails.document_id]. *)
Theorem cleanup_leaves_no_orphans d d' :
  run lower d = Ok d' →
  Forall (λ a, null_or (λ i, i ∈ document_ids (data d'))
                 (Alert.document_id a)) (alerts (data d'))
  ∧ Forall (λ a, null_or (λ i, i ∈ document_ids (data d'))
                   (AuditTrail.document_id a)) (audit_trails (data d'))
  ∧ Forall (λ p, null_or (λ i, i ∈ municipality_ids (data d'))
                   (Property.municipality_id p)) (properties (data d')).
Proof.
  intros H. apply run_002_rows in H as (Hm & Hd & _ & Hp & _ & Ht & Ha & _).
  cbv zeta in *. unfold document_ids, municipality_ids.
  rewrite Hm, Hd, Hp, Ht, Ha. split_and!.
  - apply Forall_forall. by intros a [? _]%list_elem_of_filter.
  - apply Forall_forall. by intros a [? _]%list_elem_of_filter.
  - apply Forall_forall. by intros a [? _]%list_elem_of_filter.
Qed.

End Migration002More.

(** ** Migration 003, continued *)

Section Migration003More.
Import Migration003.

Lemma add_constraint_fields {P : Type} c (d d' : db P) :
  add_constraint c d = Ok d' →
  data d' = data d ∧ schema d' = schema d ++ [c] ∧ indexes d' = indexes d.
Proof. by intros [-> _]%add_constraint_Ok. Qed.

Lemma commit_fields {P Q : Type} (d : db P) (t : tables Q) (d' : db Q) :
  commit d t = Ok d' →
  data d' = t ∧ schema d' = schema d ∧ indexes d' = indexes d.
Proof. by intros [-> _]%commit_Ok. Qed.

Lemma set_not_null_indexes {P : Type} c (d d' : db P) :
  set_not_null c d = Ok d' → indexes d' = indexes d.
Proof.
  unfold set_not_null. case_decide.
  - by intros [= <-].
  - by intros [-> _]%add_constraint_Ok.
Qed.

Lemma set_not_null_holds {P : Type} c (d d' : db P) :
  consistent d → set_not_null c d = Ok d' → holds c (data d).
Proof.
  intros Hc. unfold set_not_null. case_decide as Hin.
  - intros _. by apply consistent_holds.
  - by intros [_ ?]%add_constraint_Ok.
Qed.

Lemma elem_of_create_index {P : Type} (i j : index) (d : db P) :
  i ∈ indexes (create_index j d) ↔ i = j ∨ i ∈ indexes d.
Proof.
  unfold create_index. case_decide as Hj; simpl.
  - split; [tauto|]. by intros [->|].
  - rewrite elem_of_app, list_elem_of_singleton. tauto.
Qed.

Lemma elem_of_drop_index {P : Type} (i j : index) (d : db P) :
  i ∈ indexes (drop_index j d) ↔ i ∈ indexes d ∧ i ≠ j.
Proof. unfold drop_index. simpl. rewrite list_elem_of_filter. tauto. Qed.

Lemma record_migration_indexes {P : Type} v (d : db P) :
  indexes (record_migration v d) = indexes d.
Proof. unfold record_migration. by case_decide. Qed.

Lemma record_migration_ingest_jobs {P : Type} v (d : db P) :
  ingest_jobs (data (record_migration v d)) = ingest_jobs (data d).
Proof. unfold record_migration. by case_decide. Qed.

Lemma backfill_document_ids_rows {P : Type} (d d' : db P) :
  backfill_document_ids d = Ok d' →
  data d' = set_alerts (backfill_alert (data d) <$> alerts (data d)) (data d)
  ∧ indexes d' = indexes d.
Proof.
  intros H. pose proof H as (Ha & _ & _)%backfill_document_ids_Ok.
  unfold backfill_document_ids in H. case_decide.
  - by apply commit_Ok in H as [-> _].
  - injection H as <-. rewrite <- Ha. by destruct (data d).
Qed.

Lemma delete_orphaned_alerts_rows {P : Type} (d d' : db P) :
  delete_orphaned_alerts d = Ok d' →
  ingest_jobs (data d') = ingest_jobs (data d) ∧ indexes d' = indexes d
  ∧ schema_migrations (data d') = schema_migrations (data d).
Proof. unfold delete_orphaned_alerts. by intros [-> _]%commit_Ok. Qed.

Lemma delete_orphaned_audit_trails_rows {P : Type} (d d' : db P) :
  delete_orphaned_audit_trails d = Ok d' →
  ingest_jobs (data d') = ingest_jobs (data d) ∧ indexes d' = indexes d
  ∧ schema_migrations (data d') = schema_migrations (data d).
Proof. unfold delete_orphaned_audit_trails. by intros [-> _]%commit_Ok. Qed.

Lemma delete_orphaned_properties_rows {P : Type} (d d' : db P) :
  delete_orphaned_properties d = Ok d' →
  ingest_jobs (data d') = ingest_jobs (data d) ∧ indexes d' = indexes d
  ∧ schema_migrations (data d') = schema_migrations (data d).
Proof. unfold delete_orphaned_properties. by intros [-> _]%commit_Ok. Qed.

(** A second look at a successful run of migration 003: the rows that
    section 2 writes pass every constraint that was declared, the ingest
    jobs are untouched and all have a municipality, and the indexes are
    those of before, less the two dropped, plus the ten created. *)
Lemma run_003_rows (d d' : db jsonb) :
  run d = Ok d' →
  let l := normalized <$> (backfill_alert (data d) <$> alerts (data d)) in
  Forall (λ c, holds c (set_alerts l (data d))) (schema d)
  ∧ alerts (data d')
    = filter (λ a, null_or (λ i, i ∈ document_ids (data d))
                     (Alert.document_id a)) l
  ∧ ingest_jobs (data d') = ingest_jobs (data d)
  ∧ Forall (λ j, is_Some (IngestJob.municipality_id j))
      (ingest_jobs (data d))
  ∧ (∀ i, i ∈ indexes d'
         ↔ i ∈ [ idx_audit_company_time;
                 idx_alerts_property_matches_gin;
                 idx_alerts_rule_matches_gin;
                 idx_audit_trails_details_gin;
                 idx_companies_email_config_gin;
                 idx_companies_rules_json_gin;
                 idx_alerts_company_document;
                 idx_properties_municipality_company;
                 idx_meetings_type_municipality;
                 idx_documents_status_meeting ]
           ∨ (i ∈ indexes d
              ∧ i ≠ idx_company_municipalities_subscription
              ∧ i ≠ idx_documents_content_hash))
  ∧ ∀ v, v ∈ schema_migrations (data d')
         ↔ v ∈ schema_migrations (data d)
           ∨ v = "003_final_optimizations".
Proof.
  intros H l. unfold run in H.
  bind_inv H d1 H1. bind_inv H d2 H2. bind_inv H d3 H3.
  bind_inv H d3' H3'. bind_inv H d4 H4.
  cbv zeta in H.
  match type of H with
  | delete_orphaned_alerts ?x ≫= _ = _ => set (dI := x) in *
  end.
  bind_inv H d5 H5. bind_inv H d6 H6. bind_inv H d7 H7.
  injection H as <-.
  pose proof H1 as (_ & _ & S1)%backfill_document_ids_Ok.
  apply backfill_document_ids_rows in H1 as (E1 & I1).
  pose proof (set_not_null_indexes _ _ _ H2) as I2.
  apply set_not_null_Ok in H2 as (E2 & _ & S2).
  unfold normalize_property_matches in H3.
  apply commit_fields in H3 as (E3 & S3 & I3).
  unfold normalize_rule_matches in H3'.
  pose proof (commit_consistent _ _ _ H3') as Hc3.
  pose proof H3' as [_ Hall]%commit_Ok.
  apply commit_fields in H3' as (E3' & S3' & I3').
  pose proof (set_not_null_holds _ _ _ Hc3 H4) as Hjobs.
  pose proof (set_not_null_indexes _ _ _ H4) as I4.
  apply set_not_null_Ok in H4 as (E4 & _ & _).
  assert (data dI = data d4) as EI.
  { unfold dI. by rewrite !create_index_data, !drop_index_data. }
  pose proof (delete_orphaned_alerts_rows _ _ H5) as (J5 & I5 & M5).
  pose proof (delete_orphaned_audit_trails_rows _ _ H6) as (J6 & I6 & M6).
  pose proof (delete_orphaned_properties_rows _ _ H7) as (J7 & I7 & M7).
  apply delete_orphaned_alerts_Ok in H5 as (A5 & D5 & _).
  apply delete_orphaned_audit_trails_Ok in H6 as (A6 & _).
  apply delete_orphaned_properties_Ok in H7 as (A7 & _).
  assert (data d3' = set_alerts l (data d)) as D3.
  { rewrite E3', E3, E2, E1. simpl. unfold l.
    by rewrite <- (list_fmap_compose _ _ (backfill_alert _ <$> _)). }
  rewrite <- E3', D3 in Hall.
  split_and!.
  - rewrite Forall_forall in Hall. apply Forall_forall. intros c Hc.
    apply Hall. rewrite S3. apply S2. by rewrite S1.
  - rewrite record_migration_alerts, A7, A6, A5, EI, E4, D3. done.
  - rewrite record_migration_ingest_jobs, J7, J6, J5, EI, E4, D3. done.
  - unfold holds in Hjobs. rewrite D3 in Hjobs. exact Hjobs.
  - intros i. rewrite record_migration_indexes, I7, I6, I5. unfold dI.
    rewrite !elem_of_create_index, !elem_of_drop_index.
    rewrite I4, I3', I3, I2, I1.
    rewrite !elem_of_cons, elem_of_nil. clear. intuition idtac.
  - intros v.
    transitivity (v ∈ schema_migrations (data d7)
                  ∨ v = "003_final_optimizations").
    + unfold record_migration. case_decide as Hin; simpl.
      * split; [tauto|]. by intros [?| ->].
      * by rewrite elem_of_app, list_elem_of_singleton.
    + by rewrite M7, M6, M5, EI, E4, D3.
Qed.

Lemma filter_Forall_id {A : Type} (Q : A → Prop) `{!∀ x, Decision (Q x)}
    (l : list A) :
  Forall Q l → filter Q l = l.
Proof.
  induction 1 as [|a l Ha _ IH]; [done|].
  rewrite filter_cons_True by done. by rewrite IH.
Qed.

(** X10.  Under the foreign key of [alerts.document_id] migration 003
    deletes no alert: the alerts after a successful run are, one for one,
    those of before, each with its id, company and review status, and an
    alert that had a document still has that document. *)
Theorem migration_003_keeps_alerts (d d' : db jsonb) :
  alerts_document_id_fkey ∈ schema d →
  run d = Ok d' →
  ∃ l, alerts (data d') ≡ₚ l
       ∧ Forall2
           (λ a a',
              Alert.id a' = Alert.id a
              ∧ Alert.company_id a' = Alert.company_id a
              ∧ Alert.review_status a' = Alert.review_status a
              ∧ (Alert.document_id a ≠ None
                 → Alert.document_id a' = Alert.document_id a))
           (alerts (data d)) l.
Proof.
  intros Hfk (Hall & Ha & _)%run_003_rows.
  rewrite Forall_forall in Hall. specialize (Hall _ Hfk). simpl in Hall.
  exists (alerts (data d')). split; [done|].
  rewrite Ha, filter_Forall_id by exact Hall.
  apply Forall2_fmap_r, Forall2_fmap_r, Forall_Forall2_diag, Forall_forall.
  intros a _. simpl.
  unfold backfill_alert. case_decide as Hn; simpl.
  - split_and!; try done. intros Hne. by destruct Hn.
  - done.
Qed.

(** X11.  Migrations 002 and 003 both succeed only on a database in which
    every ingest job names a municipality of the table: 002 links the jobs
    by name and leaves [NULL] where the name is unknown, and 003, which
    back-fills nothing, then makes the link [NOT NULL].  Migration 003
    itself leaves the jobs as they are. *)
Theorem jobs_must_name_a_municipality
    (lower : string → string) (d d2 d3 : db jsonb) :
  Migration002.run lower d = Ok d2 →
  run d2 = Ok d3 →
  Forall (λ j, ∃ m, m ∈ municipalities (data d)
                    ∧ IngestJob.municipality j = Some (Municipality.name m))
    (ingest_jobs (data d))
  ∧ ingest_jobs (data d3) = ingest_jobs (data d2).
Proof.
  intros (_ & _ & _ & _ & Hj & _)%run_002_rows
         (_ & _ & Hsame & Hnn & _)%run_003_rows.
  split; [|done]. cbv zeta in Hj. rewrite Hj in Hnn.
  rewrite Forall_fmap in Hnn. eapply Forall_impl; [exact Hnn|].
  intros j [i Hi]. simpl in Hi. unfold Migration002.backfill_job in Hi.
  simpl in Hi. destruct (IngestJob.municipality j) as [n|]; [|done].
  destruct (list_find _ _) as [[k m]|] eqn:E; [|done].
  apply list_find_Some in E as (Hk & -> & _).
  exists m. split; [|done]. eapply list_elem_of_lookup_2, Hk.
Qed.

(** X12.  The indexes after migration 003: the ten it creates, and those
    of before except [idx_company_municipalities_subscription], which
    migration 002 created, and [idx_documents_content_hash]. *)
Theorem indexes_after_003 (d d' : db jsonb) :
  run d = Ok d' →
  ∀ i, i ∈ indexes d'
       ↔ i ∈ [ idx_audit_company_time;
               idx_alerts_property_matches_gin;
               idx_alerts_rule_matches_gin;
               idx_audit_trails_details_gin;
               idx_companies_email_config_gin;
               idx_companies_rules_json_gin;
               idx_alerts_company_document;
               idx_properties_municipality_company;
               idx_meetings_type_municipality;
               idx_documents_status_meeting ]
         ∨ (i ∈ indexes d
            ∧ i ≠ idx_company_municipalities_subscription
            ∧ i ≠ idx_documents_content_hash).
Proof. by intros (_ & _ & _ & _ & Hi & _)%run_003_rows. Qed.

End Migration003More.

(** ** The property form *)

Section PropertyFormFacts.
Import PropertyForm.

Lemma split_on_nonempty (sep : ascii) (s : string) : split_on sep s ≠ [].
Proof.
  induction s as [|c s IH]; simpl; [done|].
  case_decide; [done|]. by destruct (split_on sep s).
Qed.

Lemma split_on_segments (sep : ascii) (s : string) :
  Forall (λ seg, has_char sep seg = false) (split_on sep s).
Proof.
  induction s as [|c s IH]; simpl.
  - by repeat constructor.
  - case_decide as Hc.
    + by constructor.
    + destruct (split_on sep s) as [|seg segs].
      * repeat constructor. simpl. by rewrite bool_decide_eq_false_2.
      * inversion IH as [|? ? Hseg Hsegs]; subst.
        constructor; [|done]. simpl. by rewrite bool_decide_eq_false_2.
Qed.

Lemma split_on_absent (sep : ascii) (s : string) :
  has_char sep s = false → split_on sep s = [s].
Proof.
  induction s as [|c s IH]; simpl; [done|].
  intros [Hc Hs]%orb_false_elim. apply bool_decide_eq_false in Hc.
  rewrite decide_False by done. by rewrite IH.
Qed.

Lemma has_char_trim_start (c : ascii) (s : string) :
  has_char c s = false → has_char c (trim_start s) = false.
Proof.
  induction s as [|c' s IH]; simpl; [done|].
  intros [Hc Hs]%orb_false_elim. destruct (is_space c').
  - by apply IH.
  - simpl. by rewrite Hc, Hs.
Qed.

Lemma has_char_trim_end (c : ascii) (s : string) :
  has_char c s = false → has_char c (trim_end s) = false.
Proof.
  induction s as [|c' s IH]; simpl; [done|].
  intros [Hc Hs]%orb_false_elim. specialize (IH Hs).
  destruct (trim_end s) as [|c'' r].
  - destruct (is_space c'); simpl; [done|]. by rewrite Hc.
  - simpl. simpl in IH. by rewrite Hc, IH.
Qed.

Lemma trim_end_idemp (s : string) : trim_end (trim_end s) = trim_end s.
Proof.
  induction s as [|c s IH]; simpl; [done|].
  destruct (trim_end s) as [|c' r] eqn:E.
  - destruct (is_space c) eqn:Hc; simpl; [done|]. by rewrite Hc.
  - simpl in *. by rewrite IH.
Qed.

(** A string that does not begin with white space. *)
Lemma trim_start_fixed (s : string) :
  match s with String c _ => is_space c = false | EmptyString => True end →
  trim_start s = s.
Proof. destruct s as [|c s]; simpl; [done|]. by intros ->. Qed.

Lemma trim_start_clean (s : string) :
  match trim_start s with
  | String c _ => is_space c = false
  | EmptyString => True
  end.
Proof.
  induction s as [|c s IH]; simpl; [done|].
  destruct (is_space c) eqn:Hc; [done|]. simpl. done.
Qed.

Lemma trim_end_clean (s : string) :
  match s with String c _ => is_space c = false | EmptyString => True end →
  match trim_end s with
  | String c _ => is_space c = false
  | EmptyString => True
  end.
Proof.
  destruct s as [|c s]; simpl; [done|]. intros Hc.
  destruct (trim_end s); by rewrite ?Hc.
Qed.

Lemma trim_idemp (s : string) : trim (trim s) = trim s.
Proof.
  unfold trim.
  rewrite (trim_start_fixed (trim_end (trim_start s))).
  - apply trim_end_idemp.
  - apply trim_end_clean, trim_start_clean.
Qed.

(** X13.  Whatever is typed into the aliases field, the aliases that
    [handleSubmit] hands on are clean: none is empty, none begins or ends
    with white space, none contains a comma. *)
Theorem submitted_aliases_are_clean (f : form_data) :
  Forall (λ a, a ≠ "" ∧ trim a = a ∧ has_char ","%char a = false)
    (p_aliases (handleSubmit f)).
Proof.
  unfold handleSubmit. simpl. apply Forall_forall.
  intros a [Hne Hin]%list_elem_of_filter.
  apply list_elem_of_fmap in Hin as (seg & -> & Hseg).
  split_and!; [done|apply trim_idemp|].
  pose proof (split_on_segments ","%char (aliases f)) as Hall.
  rewrite Forall_forall in Hall.
  by apply has_char_trim_end, has_char_trim_start, Hall.
Qed.

Import PropertyFormState.

Lemma trim_leading_space (s : string) : trim (String " "%char s) = trim s.
Proof. done. Qed.

Lemma split_on_leading (sep c : ascii) (s : string) :
  c ≠ sep →
  split_on sep (String c s)
  = match split_on sep s with
    | seg :: segs => String c seg :: segs
    | [] => [String c EmptyString]
    end.
Proof. intros Hc. simpl. by rewrite decide_False. Qed.

Lemma submitted_aliases_of_join (l : list string) :
  Forall (λ a, a ≠ "" ∧ trim a = a ∧ has_char ","%char a = false) l →
  filter (λ a, a ≠ "") (trim <$> split_on ","%char (join_with ", " l)) = l.
Proof.
  induction 1 as [|a l (Hne & Htrim & Hcomma) Hl IH]; [done|].
  destruct l as [|b l].
  - simpl. rewrite split_on_absent by done. simpl.
    rewrite Htrim. by rewrite filter_cons_True, filter_nil.
  - change (join_with ", " (a :: b :: l))
      with (a +:+ String ","%char (String " "%char (join_with ", " (b :: l)))).
    rewrite split_on_app by done. rewrite fmap_cons, Htrim.
    rewrite filter_cons_True by done. f_equal.
    rewrite split_on_leading by done.
    pose proof (split_on_nonempty ","%char (join_with ", " (b :: l))) as Hsegs.
    destruct (split_on ","%char (join_with ", " (b :: l))) as [|seg segs];
      [done|].
    rewrite fmap_cons, trim_leading_space. exact IH.
Qed.

(** X14.  Opening the form on a property and submitting it unchanged hands
    back the property's aliases as they were, provided they are written in
    ASCII and are clean (not empty, no white space at either end, no comma);
    the other fields come back as they were, a missing one as the empty
    string. *)
Theorem unchanged_form_keeps_aliases (p : property) (l : list string) :
  PropertyFormState.aliases p = Some l →
  Forall (λ a, ascii_only a = true
               ∧ a ≠ "" ∧ trim a = a ∧ has_char ","%char a = false) l →
  handleSubmit (initial (Some p))
  = mk_payload (or_empty (PropertyFormState.name p))
      (or_empty (PropertyFormState.address p))
      (or_empty (PropertyFormState.legal_description p)) l.
Proof.
  intros Hp Hl. unfold handleSubmit, initial. simpl. rewrite Hp. simpl.
  rewrite submitted_aliases_of_join; [done|].
  eapply Forall_impl; [exact Hl|]. by intros a (_ & H).
Qed.

End PropertyFormFacts.

(** ** Roles, status badges and filters *)

Section RoleFacts.
Import Auth.
Variable parse_payload : string → option (gmap string js_value).

(** X15.  Who is an administrator: after a sign-in whose id token decodes
    to [claims], the pages treat the user as administrator exactly when the
    [role] claim -- or, if that one is missing or falsy, the namespaced
    role claim -- is the string [admin]. *)
Theorem admin_needs_the_role_claim t access (h p s : string) u claims :
  has_char "."%char h = false → has_char "."%char p = false →
  parse_payload
    (replace_char "_"%char "/"%char (replace_char "-"%char "+"%char p))
  = Some claims →
  PropertiesPage.isAdmin
    (Some (session_callback
             (sign_in parse_payload t access
                (h +:+ String "."%char (p +:+ String "."%char s)) u)))
  = true
  ↔ js_or (prop claims "role") (prop claims "https://brightstone.ca/role")
    = js_string "admin".
Proof.
  intros Hh Hp Hparse.
  destruct (sign_in_claims parse_payload t access h p s u claims Hh Hp Hparse)
    as [_ Hr].
  unfold PropertiesPage.isAdmin, session_callback. simpl. rewrite Hr.
  rewrite bool_decide_eq_true.
  set (r := js_or (prop claims "role")
              (prop claims "https://brightstone.ca/role")).
  unfold js_or at 1 2. destruct (truthy r) eqn:Ht.
  - by rewrite Ht.
  - simpl. split; [discriminate|]. intros E. by rewrite E in Ht.
Qed.

(** X16.  An id token without a dot has no payload segment: decoding
    throws, the callback catches it, and the token keeps the company and
    the role it had, while the access token and the id token are stored all
    the same.  From a blank token the session is then one of the company
    [default] with the role [analyst]. *)
Theorem id_token_without_payload t access (tok : string) u :
  has_char "."%char tok = false →
  let signed := sign_in parse_payload t access tok u in
  company_id signed = company_id t
  ∧ role signed = role t
  ∧ accessToken signed = access
  ∧ idToken signed = js_string tok
  ∧ (company_id t = js_undefined → role t = js_undefined →
     su_company_id (session_user_ (session_callback signed))
     = js_string "default"
     ∧ su_role (session_user_ (session_callback signed))
       = js_string "analyst").
Proof.
  intros Htok signed.
  assert (company_id signed = company_id t ∧ role signed = role t
          ∧ accessToken signed = access ∧ idToken signed = js_string tok)
    as (Hc & Hr & Ha & Hi).
  { subst signed. unfold sign_in, jwt. simpl.
    case_decide; [by destruct u|].
    unfold decode_claims. rewrite split_on_absent by done. simpl.
    by destruct u. }
  split_and!; [done..|]. intros Hc0 Hr0.
  unfold session_callback. simpl. by rewrite Hc, Hr, Hc0, Hr0.
Qed.

End RoleFacts.

Section StatusFacts.
Context {P : Type}.
Implicit Types (d : db P).

Lemma status_after_002_cases (lower : string → string) d d' a s :
  Migration002.run lower d = Ok d' →
  a ∈ alerts (data d') → Alert.review_status a = Some s →
  s = "pending" ∨ s = "reviewed" ∨ s = "resolved".
Proof.
  intros (Hcons & _ & _ & _ & _ & _ & Hin & _)%run_002_Ok Ha Hs.
  pose proof (consistent_holds _ _ Hcons Hin) as Hh. simpl in Hh.
  rewrite Forall_forall in Hh. specialize (Hh _ Ha). rewrite Hs in Hh.
  simpl in Hh. unfold review_statuses in Hh.
  rewrite !elem_of_cons, elem_of_nil in Hh. tauto.
Qed.

(** X17.  The status badge and the schema disagree on the statuses: after
    migration 002 an alert's badge has an icon and a colour unless the
    alert is [reviewed], the status that the migration puts in the place of
    [reviewing]; for a reviewed alert both look-ups are [undefined]. *)
Theorem reviewed_alerts_have_no_badge (lower : string → string) d d' a s :
  Migration002.run lower d = Ok d' →
  a ∈ alerts (data d') → Alert.review_status a = Some s →
  (StatusBadge.StatusIcon s = None ↔ s = "reviewed")
  ∧ (StatusBadge.statusColors !! s = None ↔ s = "reviewed").
Proof.
  intros Hrun Ha Hs.
  destruct (status_after_002_cases _ _ _ _ _ Hrun Ha Hs) as [->|[->| ->]];
    unfold StatusBadge.StatusIcon; vm_compute; split; split; congruence.
Qed.

(** X18.  Of the three status buttons of the alert card only "Mark as
    Resolved" sends a value that the check constraint of migration 002
    admits: on an existing alert the update with the value of that button
    goes through, and with the value of either other button it is refused
    with a check violation. *)
Theorem only_resolved_passes_the_check d (i : Z) (b : AlertCard.button) :
  consistent d →
  alerts_review_status_check ∈ schema d →
  i ∈ Alert.id <$> alerts (data d) →
  (b = AlertCard.MarkAsResolved →
     ∃ d', update_review_status i (AlertCard.status_of b) d = Ok d'
           ∧ alerts (data d')
             = set_status i "resolved" <$> alerts (data d))
  ∧ (b ≠ AlertCard.MarkAsResolved →
       update_review_status i (AlertCard.status_of b) d
       = Err (check_violation alerts_review_status_check)).
Proof.
  intros Hd Hin Hi. split.
  - intros ->. eexists. split.
    + apply update_review_status_accepts; [done|]. simpl.
      unfold review_statuses. rewrite !elem_of_cons. auto.
    + done.
  - intros Hb. apply update_review_status_rejects; try done.
    unfold review_statuses. rewrite !elem_of_cons, elem_of_nil.
    destruct b; simpl; [|done|]; intros [?|[?|[?|[]]]]; discriminate.
Qed.

End StatusFacts.

Section FilterFacts.
Import ApiClient AlertFilters.

Lemma or_null_shown (v : option string) :
  v ≠ Some "" → or_null (shown v) = v.
Proof.
  unfold or_null, shown. destruct v as [s|]; simpl.
  - intros Hs. rewrite decide_False; [done|]. by intros ->.
  - done.
Qed.

Lemma or_null_not_empty (v : string) : or_null v ≠ Some "".
Proof. unfold or_null. case_decide; congruence. Qed.

(** X19.  The filter state never holds an empty string: starting from the
    state of a freshly opened page, after any sequence of changes and
    clearings each of the five filters is [null] or a non-empty string, so
    that choosing again what a control shows leaves the state as it is. *)
Theorem filters_hold_no_empty_string (events : list event) :
  let f := foldl onFiltersChange initial events in
  Forall (λ v, v ≠ Some "" ∧ or_null (shown v) = v)
    [status f; f_municipality f; property_id f; start_date f; end_date f].
Proof.
  cbv zeta.
  assert (Forall (λ v, v ≠ Some "")
            (let f := foldl onFiltersChange initial events in
             [status f; f_municipality f; property_id f;
              start_date f; end_date f])) as H.
  { generalize initial,
      (ltac:(by repeat constructor)
        : Forall (λ v, v ≠ Some "")
            [status initial; f_municipality initial; property_id initial;
             start_date initial; end_date initial]).
    induction events as [|e events IH]; intros f Hf; [done|].
    simpl. apply IH.
    apply Forall_cons in Hf as [H1 Hf]. apply Forall_cons in Hf as [H2 Hf].
    apply Forall_cons in Hf as [H3 Hf]. apply Forall_cons in Hf as [H4 Hf].
    apply Forall_cons in Hf as [H5 _].
    destruct e; simpl; repeat constructor;
      done || apply or_null_not_empty. }
  eapply Forall_impl; [exact H|]. intros v Hv. split; [done|].
  by apply or_null_shown.
Qed.

End FilterFacts.

(** ** Migration 001 *)

Section SingleDocumentPipelineFacts.
Import SingleDocumentPipeline.

Lemma bind_Done_inv {A B : Type} (r : outcome A) (k : A → outcome B) (b : B) :
  r ≫= k = Done b → ∃ a, r = Done a ∧ k a = Done b.
Proof. destruct r as [a|e]; simpl; [eauto | discriminate]. Qed.

Lemma Done_inj {A : Type} (a b : A) : Done a = Done b → a = b.
Proof. by intros [= ->]. Qed.

Lemma statement_Done {A : Type} (r : result A) (a : A) :
  statement r = Done a → r = Ok a.
Proof. destruct r; simpl; congruence. Qed.

Lemma mapM_Done {A B : Type} (f : A → outcome B) (l : list A) (bs : list B) :
  mapM f l = Done bs → Forall2 (λ a b, f a = Done b) l bs.
Proof.
  revert bs. induction l as [|a l IH]; intros bs; simpl.
  - intros [= <-]. constructor.
  - intros H. apply bind_Done_inv in H as (b & Hb & H).
    apply bind_Done_inv in H as (bs' & Hbs & H).
    apply Done_inj in H as <-. constructor; auto.
Qed.

Lemma required_Done {A : Type} (table column : string) (v : option A) (a : A) :
  required table column v = Done a → v = Some a.
Proof. destruct v; simpl; congruence. Qed.

Lemma subscriptions_new {P : Type} (t : tables P) :
  company_municipalities t = [] →
  company_municipalities t
  ++ filter (λ r, r ∉ company_municipalities t) (subscriptions_from_alerts t)
  = subscriptions_from_alerts t.
Proof.
  intros ->. simpl. apply filter_Forall_id, Forall_forall.
  intros r _. apply not_elem_of_nil.
Qed.

Ltac step H d Hd :=
  apply bind_Done_inv in H as (d & Hd & H).

(** The rows and the schema that a successful run of migration 001
    leaves. *)
Lemma run_001_rows (l : Legacy.tables) (d : db jsonb) :
  run l = Done d →
  let cs := Legacy.companies l in
  ∃ mids acids dids jcids pcids,
    Forall2 (λ x i, meeting_id_new (temp_meeting_mapping l) x = Some i)
      (Legacy.documents l) mids
    ∧ Forall2 (λ a i, company_int cs (Legacy.Alert.company_id a) = Some i)
        (Legacy.alerts l) acids
    ∧ Forall2 (λ a i, document_id_int (Legacy.Alert.document_id a) = Done i)
        (Legacy.alerts l) dids
    ∧ Forall2 (λ j i, company_int cs (Legacy.IngestJob.company_id j) = Some i)
        (Legacy.ingest_jobs l) jcids
    ∧ Forall2 (λ p i, company_int cs (Legacy.Property.company_id p) = Some i)
        (Legacy.properties l) pcids
    ∧ companies (data d) = Legacy.Company.id <$> cs
    ∧ municipalities (data d) = Legacy.municipalities l
    ∧ meetings (data d) = meeting <$> Legacy.meetings l
    ∧ documents (data d) = zip_with document (Legacy.documents l) mids
    ∧ alerts (data d)
      = zip_with with_document_id dids
          (zip_with alert (Legacy.alerts l) acids)
    ∧ properties (data d) = zip_with property (Legacy.properties l) pcids
    ∧ ingest_jobs (data d)
      = zip_with ingest_job (Legacy.ingest_jobs l) jcids
    ∧ company_municipalities (data d) = subscriptions_from_alerts (data d)
    ∧ audit_trails (data d) = audit_trail cs <$> Legacy.audit_trails l
    ∧ users (data d) = user cs <$> Legacy.users l
    ∧ schema_migrations (data d) = Legacy.schema_migrations l
    ∧ schema d = Migration001.declared_constraints
    ∧ indexes d = Migration001.declared_indexes
    ∧ consistent d.
Proof.
  unfold run. cbv zeta. intros H.
  step H d1 H1. step H mids Hmids. step H d2 H2. step H d3 H3.
  step H d4 H4. step H acids Hacids. step H d5 H5. step H d6 H6.
  step H dids Hdids. step H d7 H7. step H d8 H8. step H d9 H9.
  step H d10 H10. step H jcids Hjcids. step H d11 H11. step H d12 H12.
  step H du1 U1. step H du2 U2.
  step H pcids Hpcids. step H d13 H13. step H d14 H14. step H d15 H15.
  step H d16 H16. step H d17 H17. step H d18 H18. step H d19 H19.
  apply Done_inj in H.
  apply statement_Done in H1, H2, H3, H4, H5, H6, H7, H8, H9, H10, H11, H12,
    U1, U2, H13, H14, H15, H16, H17, H18, H19.
  apply mapM_Done in Hmids, Hacids, Hdids, Hjcids, Hpcids.
  exists mids, acids, dids, jcids, pcids.
  assert (consistent d ∧ data d = data d19 ∧ schema d = schema d19
          ∧ (indexes d19 = [] → indexes d = Migration001.declared_indexes))
    as (Hc & Ed & Es & Ei).
  { subst d. rewrite !create_index_data, !create_index_schema.
    unfold populate_company_municipalities in H19.
    pose proof (commit_consistent _ _ _ H19) as Hc.
    split_and!; [|done..|].
    - unfold consistent in *.
      by rewrite !create_index_data, !create_index_schema.
    - destruct d19 as [t s ix]. simpl. intros ->. vm_compute. reflexivity. }
  clear H.
  apply add_constraint_fields in H1 as (D1 & S1 & I1).
  apply commit_fields in H2 as (D2 & S2 & I2).
  apply add_constraint_fields in H3 as (D3 & S3 & I3).
  apply add_constraint_fields in H4 as (D4 & S4 & I4).
  apply commit_fields in H5 as (D5 & S5 & I5).
  apply add_constraint_fields in H6 as (D6 & S6 & I6).
  apply commit_fields in H7 as (D7 & S7 & I7).
  apply add_constraint_fields in H8 as (D8 & S8 & I8).
  apply commit_fields in H9 as (D9 & S9 & I9).
  apply add_constraint_fields in H10 as (D10 & S10 & I10).
  apply commit_fields in H11 as (D11 & S11 & I11).
  apply add_constraint_fields in H12 as (D12 & S12 & I12).
  apply commit_fields in U1 as (DU1 & SU1 & IU1).
  apply add_constraint_fields in U2 as (DU2 & SU2 & IU2).
  apply commit_fields in H13 as (D13 & S13 & I13).
  apply add_constraint_fields in H14 as (D14 & S14 & I14).
  apply add_constraint_fields in H15 as (D15 & S15 & I15).
  apply add_constraint_fields in H16 as (D16 & S16 & I16).
  apply add_constraint_fields in H17 as (D17 & S17 & I17).
  apply add_constraint_fields in H18 as (D18 & S18 & I18).
  unfold populate_company_municipalities in H19.
  apply commit_fields in H19 as (D19 & S19 & I19).
  simpl in D1, S1, I1.
  assert (indexes d19 = []) as I.
  { rewrite I19, I18, I17, I16, I15, I14, I13, IU2, IU1, I12, I11, I10, I9,
      I8, I7, I6, I5, I4, I3, I2, I1. done. }
  assert (schema d19 = Migration001.declared_constraints) as S.
  { rewrite S19, S18, S17, S16, S15, S14, S13, SU2, SU1, S12, S11, S10, S9,
      S8, S7, S6, S5, S4, S3, S2, S1. done. }
  rewrite D6, D5 in D7. simpl in D7.
  assert (company_municipalities (data d18) = []) as Hcm.
  { rewrite D18, D17, D16, D15, D14, D13. simpl.
    rewrite DU2, DU1. simpl.
    rewrite D12, D11. simpl. rewrite D10, D9. simpl.
    rewrite D8, D7. simpl. rewrite D4, D3, D2. simpl. by rewrite D1. }
  rewrite subscriptions_new in D19 by done.
  assert (data d18
          = mk_tables (Legacy.Company.id <$> Legacy.companies l)
              (Legacy.municipalities l) (meeting <$> Legacy.meetings l)
              (zip_with document (Legacy.documents l) mids)
              (zip_with with_document_id dids
                 (zip_with alert (Legacy.alerts l) acids))
              (zip_with property (Legacy.properties l) pcids)
              (zip_with ingest_job (Legacy.ingest_jobs l) jcids)
              []
              (audit_trail (Legacy.companies l) <$> Legacy.audit_trails l)
              (user (Legacy.companies l) <$> Legacy.users l)
              (Legacy.schema_migrations l)) as D.
  { rewrite D18, D17, D16, D15, D14, D13, DU2, DU1, D12, D11, D10, D9, D8,
      D7, D4, D3, D2, D1. done. }
  rewrite Ed, Es, D19, D. split_and!; try done.
  - eapply Forall2_impl; [exact Hmids|]. intros x i. apply required_Done.
  - eapply Forall2_impl; [exact Hacids|]. intros x i. apply required_Done.
  - eapply Forall2_impl; [exact Hjcids|]. intros x i. apply required_Done.
  - eapply Forall2_impl; [exact Hpcids|]. intros x i. apply required_Done.
  - by apply Ei.
Qed.

End SingleDocumentPipelineFacts.

Section SingleDocumentPipelineRows.
Import SingleDocumentPipeline.

Lemma Forall2_zip_with_l {A B C : Type} (R : A → B → Prop) (f : A → B → C)
    (l : list A) (k : list B) :
  Forall2 R l k → Forall2 (λ a c, ∃ b, R a b ∧ c = f a b) l (zip_with f l k).
Proof. induction 1; simpl; constructor; eauto. Qed.

Lemma Forall2_zip_with_both {A B C D E : Type} (R : A → B → Prop)
    (S : A → C → Prop) (f : A → B → D) (g : C → D → E)
    (l : list A) (k : list B) (m : list C) :
  Forall2 R l k → Forall2 S l m →
  Forall2 (λ a e, ∃ b c, R a b ∧ S a c ∧ e = g c (f a b)) l
    (zip_with g m (zip_with f l k)).
Proof.
  intros H. revert m. induction H; intros m Hm; inversion Hm; subst;
    simpl; constructor; eauto.
Qed.

Lemma fmap_zip_with_l {A B C D : Type} (R : A → B → Prop) (f : A → B → C)
    (g : C → D) (h : A → D) (l : list A) (k : list B) :
  (∀ a b, g (f a b) = h a) →
  Forall2 R l k → g <$> zip_with f l k = h <$> l.
Proof.
  intros Hg. induction 1 as [|a b l k _ _ IH]; csimpl; [done|].
  by rewrite Hg, IH.
Qed.

Lemma NoDup_fmap_elem_inj {A B : Type} (f : A → B) (l : list A) (x y : A) :
  NoDup (f <$> l) → x ∈ l → y ∈ l → f x = f y → x = y.
Proof.
  induction l as [|a l IH]; simpl; [by intros _ ?%elem_of_nil|].
  intros [Ha Hl]%NoDup_cons [->|Hx]%elem_of_cons [->|Hy]%elem_of_cons Hf.
  - done.
  - exfalso. apply Ha. rewrite Hf. by apply list_elem_of_fmap_2.
  - exfalso. apply Ha. rewrite <- Hf. by apply list_elem_of_fmap_2.
  - by apply IH.
Qed.

Lemma company_int_Some (cs : list Legacy.Company.t) key i :
  company_int cs key = Some i →
  ∃ c, c ∈ cs ∧ Legacy.Company.company_id c = key ∧ is_Some key
       ∧ Legacy.Company.id c = i.
Proof.
  unfold company_int. destruct key as [k|]; [|done].
  destruct (list_find _ _) as [[n c]|] eqn:E; [|done].
  intros [= <-]. apply list_find_Some in E as (Hn & Hk & _).
  exists c. split_and!; [|done|by eexists|done].
  eapply list_elem_of_lookup_2, Hn.
Qed.

Lemma company_int_None (cs : list Legacy.Company.t) key :
  company_int cs key = None →
  Forall (λ c, Legacy.Company.company_id c ≠ key ∨ key = None) cs.
Proof.
  unfold company_int. destruct key as [k|].
  - destruct (list_find _ _) as [[n c]|] eqn:E; [done|]. intros _.
    apply list_find_None in E. eapply Forall_impl; [exact E|]. by left.
  - intros _. apply Forall_forall. by right.
Qed.

Lemma meeting_id_new_Some (l : Legacy.tables) x i :
  meeting_id_new (temp_meeting_mapping l) x = Some i →
  ∃ y m g, y ∈ Legacy.documents l ∧ m ∈ Legacy.meetings l
           ∧ Legacy.Document.id y = Legacy.Document.id x
           ∧ Legacy.Document.meeting_guid y = Some g
           ∧ Legacy.Meeting.guid m = Some g
           ∧ Legacy.Meeting.id m = i.
Proof.
  unfold meeting_id_new.
  destruct (list_find _ _) as [[n [j i']]|] eqn:E; [|done].
  intros [= <-]. apply list_find_Some in E as (Hn & Hj & _). simpl in Hj.
  apply list_elem_of_lookup_2 in Hn. unfold temp_meeting_mapping in Hn.
  apply list_elem_of_bind in Hn as (y & Hn & Hy).
  apply list_elem_of_bind in Hn as (m & Hn & Hm).
  case_decide as Hg; [|by apply elem_of_nil in Hn].
  apply list_elem_of_singleton in Hn as [= -> ->].
  destruct Hg as [[g Hg] Hgm]. exists y, m, g.
  split_and!; try done. by rewrite <- Hgm.
Qed.

(** X20.  A successful run of migration 001 declares the thirteen
    foreign keys, keys and uniqueness constraints of
    [Migration001.declared_constraints] and builds the nine indexes of
    [Migration001.declared_indexes], which the later migrations build on,
    and every declared constraint holds of the rows it leaves. *)
Theorem pipeline_establishes_the_schema (l : Legacy.tables) (d : db jsonb) :
  run l = Done d →
  Migration001.declared_constraints ⊆ schema d
  ∧ Migration001.declared_indexes ⊆ indexes d
  ∧ consistent d.
Proof.
  intros H. apply run_001_rows in H as (mids & acids & dids & jcids & pcids & H).
  destruct H as (_ & _ & _ & _ & _ & _ & _ & _ & _ & _ & _ & _ & _ & _ & _
                 & _ & Hs & Hi & Hc).
  by rewrite Hs, Hi.
Qed.

(** X21.  Migration 001 links every document to its meeting: where
    document ids are unique, a successful run turns each document into one
    with the same id, hash, status and format whose [meeting_id] is the id
    of a meeting that carries the document's [meeting_guid]; a document
    whose GUID no meeting carries makes the run fail. *)
Theorem documents_are_linked_by_guid (l : Legacy.tables) (d : db jsonb) :
  NoDup (Legacy.Document.id <$> Legacy.documents l) →
  run l = Done d →
  Forall2
    (λ x x',
       Document.id x' = Legacy.Document.id x
       ∧ Document.content_hash x' = Legacy.Document.content_hash x
       ∧ Document.status x' = Legacy.Document.status x
       ∧ Document.format x' = Legacy.Document.format x
       ∧ ∃ m g, m ∈ Legacy.meetings l
                ∧ Legacy.Document.meeting_guid x = Some g
                ∧ Legacy.Meeting.guid m = Some g
                ∧ Document.meeting_id x' = Legacy.Meeting.id m)
    (Legacy.documents l) (documents (data d)).
Proof.
  intros Hnd H. apply run_001_rows in H as (mids & acids & dids & jcids & pcids & H).
  destruct H as (Hmids & _ & _ & _ & _ & _ & _ & _ & -> & _).
  apply (Forall2_zip_with_l _ document) in Hmids.
  apply Forall2_same_length_lookup_2.
  { by eapply Forall2_length. }
  intros n x x' Hx Hx'.
  destruct (Forall2_lookup_lr _ _ _ _ _ _ Hmids Hx Hx') as (i & Hi & ->).
  simpl. split_and!; try done.
  apply meeting_id_new_Some in Hi as (y & m & g & Hy & Hm & Hid & Hg & Hmg & <-).
  assert (y = x) as ->.
  { eapply NoDup_fmap_elem_inj; [exact Hnd|done| |done].
    eapply list_elem_of_lookup_2, Hx. }
  by exists m, g.
Qed.

(** X22.  Migration 001 resolves the text key of every tenant row to the
    integer id of a company that carries that key.  Alerts, ingest jobs
    and properties must all name a known company for the run to succeed;
    an audit trail or a user may name none and then keeps [NULL]. *)
Theorem tenant_rows_take_the_company_id (l : Legacy.tables) (d : db jsonb) :
  run l = Done d →
  let known key i :=
    ∃ c, c ∈ Legacy.companies l ∧ Legacy.Company.company_id c = key
         ∧ is_Some key ∧ Legacy.Company.id c = i in
  Forall2 (λ a a', Alert.id a' = Legacy.Alert.id a
                   ∧ known (Legacy.Alert.company_id a) (Alert.company_id a'))
    (Legacy.alerts l) (alerts (data d))
  ∧ Forall2 (λ j j', IngestJob.id j' = Legacy.IngestJob.id j
                     ∧ known (Legacy.IngestJob.company_id j)
                         (IngestJob.company_id j'))
      (Legacy.ingest_jobs l) (ingest_jobs (data d))
  ∧ Forall2 (λ p p', Property.id p' = Legacy.Property.id p
                     ∧ known (Legacy.Property.company_id p)
                         (Property.company_id p'))
      (Legacy.properties l) (properties (data d))
  ∧ Forall2 (λ a a', AuditTrail.id a' = Legacy.AuditTrail.id a
                     ∧ match AuditTrail.company_id a' with
                       | Some i => known (Legacy.AuditTrail.company_id a) i
                       | None =>
                           Forall (λ c, Legacy.Company.company_id c
                                        ≠ Legacy.AuditTrail.company_id a
                                        ∨ Legacy.AuditTrail.company_id a = None)
                             (Legacy.companies l)
                       end)
      (Legacy.audit_trails l) (audit_trails (data d))
  ∧ Forall2 (λ u u', User.id u' = Legacy.User.id u
                     ∧ User.role u' = Legacy.User.role u
                     ∧ match User.company_id u' with
                       | Some i => known (Legacy.User.company_id u) i
                       | None =>
                           Forall (λ c, Legacy.Company.company_id c
                                        ≠ Legacy.User.company_id u
                                        ∨ Legacy.User.company_id u = None)
                             (Legacy.companies l)
                       end)
      (Legacy.users l) (users (data d)).
Proof.
  intros H known.
  apply run_001_rows in H as (mids & acids & dids & jcids & pcids & H).
  destruct H as (_ & Hacids & Hdids & Hjcids & Hpcids & _ & _ & _ & _
                 & -> & -> & -> & _ & -> & -> & _).
  split_and!.
  - pose proof (Forall2_zip_with_both _ _ alert with_document_id _ _ _
                  Hacids Hdids) as Ha.
    eapply Forall2_impl; [exact Ha|].
    intros a a' (i & v & Hi & _ & ->). simpl. split; [done|].
    by apply company_int_Some.
  - apply (Forall2_zip_with_l _ ingest_job) in Hjcids.
    eapply Forall2_impl; [exact Hjcids|].
    intros j j' (i & Hi & ->). simpl. split; [done|].
    by apply company_int_Some.
  - apply (Forall2_zip_with_l _ property) in Hpcids.
    eapply Forall2_impl; [exact Hpcids|].
    intros p p' (i & Hi & ->). simpl. split; [done|].
    by apply company_int_Some.
  - apply Forall2_fmap_r, Forall_Forall2_diag, Forall_forall.
    intros a _. simpl. split; [done|].
    destruct (company_int _ _) as [i|] eqn:E.
    + by apply company_int_Some.
    + by apply company_int_None.
  - apply Forall2_fmap_r, Forall_Forall2_diag, Forall_forall.
    intros u _. simpl. split_and!; [done..|].
    destruct (company_int _ _) as [i|] eqn:E.
    + by apply company_int_Some.
    + by apply company_int_None.
Qed.

End SingleDocumentPipelineRows.

Section SingleDocumentPipelineMore.
Import SingleDocumentPipeline.

Lemma Forall2_Forall_both {A B : Type} (R : A → B → Prop) (Q : B → Prop)
    (l : list A) (k : list B) :
  Forall2 R l k → Forall Q k → Forall2 (λ a b, R a b ∧ Q b) l k.
Proof.
  induction 1; intros Hk; [constructor|].
  apply Forall_cons in Hk as [? ?]. constructor; auto.
Qed.

Lemma declared_holds (l : Legacy.tables) (d : db jsonb) c :
  run l = Done d → c ∈ Migration001.declared_constraints →
  holds c (data d).
Proof.
  intros H Hc.
  apply run_001_rows in H as (mids & acids & dids & jcids & pcids & H).
  destruct H as (_ & _ & _ & _ & _ & _ & _ & _ & _ & _ & _ & _ & _ & _ & _
                 & _ & Hs & _ & Hcons).
  apply consistent_holds; [done|]. by rewrite Hs.
Qed.

(** X23.  Migration 001 turns the text [document_id] of an alert into a
    number only when the text consists of digits; any other text, and
    [NULL], become [NULL].  The run succeeds only if every such number fits
    [INT] and is the id of a document: the foreign key is added without
    any clean-up before it. *)
Theorem alert_documents_are_converted (l : Legacy.tables) (d : db jsonb) :
  run l = Done d →
  Forall2
    (λ a a',
       match Legacy.Alert.document_id a with
       | Some s =>
           if digits_only s
           then Alert.document_id a' = Some (decimal 0 s)
                ∧ (decimal 0 s ≤ int_max)%Z
                ∧ decimal 0 s ∈ Legacy.Document.id <$> Legacy.documents l
           else Alert.document_id a' = None
       | None => Alert.document_id a' = None
       end)
    (Legacy.alerts l) (alerts (data d)).
Proof.
  intros H.
  pose proof (declared_holds l d alerts_document_id_fkey H
                ltac:(unfold Migration001.declared_constraints;
                      rewrite !elem_of_cons; tauto)) as Hfk.
  apply run_001_rows in H as (mids & acids & dids & jcids & pcids & H).
  destruct H as (Hmids & Hacids & Hdids & _ & _ & _ & _ & _ & Hdocs
                 & Ha & _).
  simpl in Hfk. unfold document_ids in Hfk. rewrite Hdocs, Ha in Hfk.
  rewrite (fmap_zip_with_l _ document Document.id Legacy.Document.id
             _ _ ltac:(done) Hmids) in Hfk.
  rewrite Ha.
  pose proof (Forall2_zip_with_both _ _ alert with_document_id _ _ _
                Hacids Hdids) as Hrows.
  pose proof (Forall2_Forall_both _ _ _ _ Hrows Hfk) as Hboth.
  eapply Forall2_impl; [exact Hboth|].
  intros a a' ((i & v & _ & Hv & ->) & Hin). simpl in *.
  unfold document_id_int in Hv.
  destruct (Legacy.Alert.document_id a) as [s|]; [|by injection Hv as <-].
  destruct (digits_only s); [|by injection Hv as <-].
  case_decide as Hmax; [|done]. injection Hv as <-. done.
Qed.




(** X25.  Migration 001 narrows the uniqueness of properties to company
    and address, so legacy rows that could differ in their city now
    collide: if two properties carry the same company key and the same
    address, the run fails. *)
Theorem shared_address_stops_the_pipeline
    (l : Legacy.tables) (i j : nat) (p q : Legacy.Property.t) :
  i ≠ j →
  Legacy.properties l !! i = Some p →
  Legacy.properties l !! j = Some q →
  Legacy.Property.company_id p = Legacy.Property.company_id q →
  Legacy.Property.address p = Legacy.Property.address q →
  ∃ e, run l = Failed e.
Proof.
  intros Hij Hp Hq Hc Ha. destruct (run l) as [d|e] eqn:H; [|by eexists].
  exfalso.
  pose proof (declared_holds l d properties_company_address_unique H
                ltac:(unfold Migration001.declared_constraints;
                      rewrite !elem_of_cons; tauto)) as Hu.
  apply run_001_rows in H as (mids & acids & dids & jcids & pcids & H).
  destruct H as (_ & _ & _ & _ & Hpcids & _ & _ & _ & _ & _ & Hps & _).
  simpl in Hu. rewrite Hps in Hu.
  apply (Forall2_zip_with_l _ property) in Hpcids.
  destruct (Forall2_lookup_l _ _ _ _ _ Hpcids Hp) as (p' & Hp' & n & Hn & ->).
  destruct (Forall2_lookup_l _ _ _ _ _ Hpcids Hq) as (q' & Hq' & k & Hk & ->).
  apply Hij.
  eapply (NoDup_lookup _ i j); [exact Hu|..].
  - rewrite list_lookup_fmap, Hp'. reflexivity.
  - rewrite list_lookup_fmap, Hq'. simpl. rewrite Hc in Hn.
    rewrite Hn in Hk. injection Hk as <-. by rewrite Ha.
Qed.

End SingleDocumentPipelineMore.

Section MigrationTracking.
Import Migration003.

(** X28.  What [schema_migrations] holds after the three migrations:
    the versions that were recorded before, [002_schema_optimizations] and
    [003_final_optimizations], and nothing else.  Migration 001 records
    nothing: after it the table is as it was. *)
Theorem migrations_are_recorded
    (lower : string → string) (l : Legacy.tables) (d1 d2 d3 : db jsonb) :
  SingleDocumentPipeline.run l = SingleDocumentPipeline.Done d1 →
  Migration002.run lower d1 = Ok d2 →
  run d2 = Ok d3 →
  schema_migrations (data d1) = Legacy.schema_migrations l
  ∧ ∀ v, v ∈ schema_migrations (data d3)
         ↔ v ∈ Legacy.schema_migrations l
           ∨ v = "002_schema_optimizations"
           ∨ v = "003_final_optimizations".
Proof.
  intros H1 H2 H3.
  apply run_001_rows in H1 as (mids & acids & dids & jcids & pcids & H1).
  destruct H1 as (_ & _ & _ & _ & _ & _ & _ & _ & _ & _ & _ & _ & _ & _
                  & _ & Hm1 & _).
  apply run_002_rows in H2 as (_ & _ & _ & _ & _ & _ & _ & Hm2).
  apply run_003_rows in H3 as (_ & _ & _ & _ & _ & Hm3).
  split; [done|]. intros v. rewrite Hm3, Hm2, Hm1. tauto.
Qed.

End MigrationTracking.

(** ** The further properties on the examples *)

Lemma pipeline_runs :
  SingleDocumentPipeline.run LegacyExample.rows
  = SingleDocumentPipeline.Done LegacyExample.migrated_001.
Proof. vm_compute. reflexivity. Qed.

Lemma pipeline_002_runs :
  Migration002.run Migration002.lower_c LegacyExample.migrated_001
  = Ok LegacyExample.migrated_002.
Proof. vm_compute. reflexivity. Qed.

Lemma pipeline_003_runs :
  Migration003.run LegacyExample.migrated_002 = Ok LegacyExample.migrated.
Proof. vm_compute. reflexivity. Qed.


(** The property of the example, whose city is written [TORONTO], is
    linked to Toronto. *)
Lemma properties_are_linked_by_city_witness :
  (∀ p, p ∈ properties (data Example.migrated_002) →
     ∃ m, m ∈ municipalities (data Example.migrated_002)
          ∧ Property.municipality_id p = Some (Municipality.id m))
  ∧ (∀ p, p ∈ properties (data Example.legacy) →
       Property.municipality_id p = None →
       ∃ c m, Property.city p = Some c
              ∧ m ∈ municipalities (data Example.legacy)
              ∧ Migration002.lower_c c
                = Migration002.lower_c (Municipality.name m)
              ∧ Migration002.with_municipality_id
                  (Some (Municipality.id m)) p
                ∈ properties (data Example.migrated_002)).
Proof.
  exact (properties_are_linked_by_city Migration002.lower_c
           Example.legacy Example.migrated_002 migration_002_runs).
Defined.

(** The ingest job of the example, which names Toronto, is linked to it. *)
Lemma jobs_are_linked_by_name_witness :
  ingest_jobs (data Example.migrated_002) = [IngestJob.mk 1 7 None (Some 1) "done"]
  ∧ Forall2
      (λ j j', IngestJob.municipality j' = None
               ∧ IngestJob.status j' = IngestJob.status j)
      (ingest_jobs (data Example.legacy))
      (ingest_jobs (data Example.migrated_002)).
Proof.
  split; [reflexivity|].
  eapply Forall2_impl;
    [exact (jobs_are_linked_by_name Migration002.lower_c
              Example.legacy Example.migrated_002 migration_002_runs)|].
  intros j j' (_ & _ & Hs & Hm & _). split; assumption.
Defined.

(** After migration 002 on the example no reference dangles. *)
Lemma cleanup_leaves_no_orphans_witness :
  Forall (λ a, null_or (λ i, i ∈ document_ids (data Example.migrated_002))
                 (Alert.document_id a)) (alerts (data Example.migrated_002))
  ∧ Forall (λ a, null_or (λ i, i ∈ document_ids (data Example.migrated_002))
                   (AuditTrail.document_id a))
      (audit_trails (data Example.migrated_002))
  ∧ Forall (λ p, null_or (λ i, i ∈ municipality_ids (data Example.migrated_002))
                   (Property.municipality_id p))
      (properties (data Example.migrated_002)).
Proof.
  exact (cleanup_leaves_no_orphans Migration002.lower_c
           Example.legacy Example.migrated_002 migration_002_runs).
Defined.

(** Migration 003 keeps the three alerts of the example. *)
Lemma migration_003_keeps_alerts_witness :
  ∃ l, alerts (data Example.migrated) ≡ₚ l
       ∧ Forall2
           (λ a a',
              Alert.id a' = Alert.id a
              ∧ Alert.company_id a' = Alert.company_id a
              ∧ Alert.review_status a' = Alert.review_status a
              ∧ (Alert.document_id a ≠ None
                 → Alert.document_id a' = Alert.document_id a))
           (alerts (data Example.migrated_002)) l.
Proof.
  assert (alerts_document_id_fkey ∈ schema Example.migrated_002) as Hfk
    by compute_decision.
  exact (migration_003_keeps_alerts Example.migrated_002 Example.migrated
           Hfk migration_003_runs).
Defined.

(** The ingest job of the example names Toronto. *)
Lemma jobs_must_name_a_municipality_witness :
  Forall (λ j, ∃ m, m ∈ municipalities (data Example.legacy)
                    ∧ IngestJob.municipality j = Some (Municipality.name m))
    (ingest_jobs (data Example.legacy))
  ∧ ingest_jobs (data Example.migrated)
    = ingest_jobs (data Example.migrated_002).
Proof.
  exact (jobs_must_name_a_municipality Migration002.lower_c
           Example.legacy Example.migrated_002 Example.migrated
           migration_002_runs migration_003_runs).
Defined.

(** The index that migration 002 created on the subscriptions is gone
    after migration 003 exactly because it is one of the two dropped. *)
Lemma indexes_after_003_witness :
  idx_alerts_company_document ∈ indexes Example.migrated
  ∧ (idx_company_municipalities_subscription ∈ indexes Example.migrated
     ↔ idx_company_municipalities_subscription
         ∈ [ idx_audit_company_time;
             idx_alerts_property_matches_gin;
             idx_alerts_rule_matches_gin;
             idx_audit_trails_details_gin;
             idx_companies_email_config_gin;
             idx_companies_rules_json_gin;
             idx_alerts_company_document;
             idx_properties_municipality_company;
             idx_meetings_type_municipality;
             idx_documents_status_meeting ]
       ∨ (idx_company_municipalities_subscription
            ∈ indexes Example.migrated_002
          ∧ idx_company_municipalities_subscription
            ≠ idx_company_municipalities_subscription
          ∧ idx_company_municipalities_subscription
            ≠ idx_documents_content_hash)).
Proof.
  pose proof (indexes_after_003 Example.migrated_002 Example.migrated
                migration_003_runs) as H.
  split; [|exact (H idx_company_municipalities_subscription)].
  apply (H idx_alerts_company_document). left.
  rewrite !elem_of_cons. tauto.
Defined.

(** Editing King West and submitting the form as it opens. *)
Lemma unchanged_form_keeps_aliases_witness :
  PropertyForm.handleSubmit
    (PropertyFormState.initial (Some ClientExample.king_west))
  = PropertyForm.mk_payload "King West" "123 King Street West" ""
      ["Main Plaza"; "Block A"].
Proof.
  apply (unchanged_form_keeps_aliases ClientExample.king_west
           ["Main Plaza"; "Block A"] eq_refl).
  repeat constructor; discriminate.
Defined.

(** A sign-in with the role claim [admin]. *)
Lemma admin_needs_the_role_claim_witness :
  PropertiesPage.isAdmin
    (Some (Auth.session_callback
             (Auth.sign_in ClientExample.parse_admin Auth.blank_token
                (js_string "access")
                "header.eyJyb2xlIjoiYWRtaW4ifQ.signature" None)))
  = true.
Proof.
  apply (admin_needs_the_role_claim ClientExample.parse_admin
           Auth.blank_token (js_string "access")
           "header" "eyJyb2xlIjoiYWRtaW4ifQ" "signature" None
           {[ "role" := js_string "admin" ]} eq_refl eq_refl eq_refl).
  vm_compute. reflexivity.
Defined.

(** A sign-in with an id token that is no JWT. *)
Lemma id_token_without_payload_witness :
  Auth.su_company_id
    (Auth.session_user_
       (Auth.session_callback
          (Auth.sign_in Auth.parse_empty_object Auth.blank_token
             (js_string "access") "not-a-jwt" None)))
  = js_string "default"
  ∧ Auth.su_role
      (Auth.session_user_
         (Auth.session_callback
            (Auth.sign_in Auth.parse_empty_object Auth.blank_token
               (js_string "access") "not-a-jwt" None)))
    = js_string "analyst".
Proof.
  destruct (id_token_without_payload Auth.parse_empty_object Auth.blank_token
              (js_string "access") "not-a-jwt" None eq_refl)
    as (_ & _ & _ & _ & H).
  exact (H eq_refl eq_refl).
Defined.

(** The first alert of the example is [reviewed] after migration 002. *)
Lemma reviewed_alerts_have_no_badge_witness :
  StatusBadge.StatusIcon "reviewed" = None
  ∧ StatusBadge.statusColors !! "reviewed" = None.
Proof.
  destruct (reviewed_alerts_have_no_badge Migration002.lower_c
              Example.legacy Example.migrated_002
              (Alert.mk 1 7 None (Some "reviewed") (Some (JString "a,b"))
                 (Some (JArray [JString "x"; JString "y"])))
              "reviewed" migration_002_runs
              ltac:(vm_compute; left) eq_refl) as [[_ H1] [_ H2]].
  split; [exact (H1 eq_refl) | exact (H2 eq_refl)].
Defined.

(** "False Positive" on the first alert of the example. *)
Lemma only_resolved_passes_the_check_witness :
  update_review_status 1 "false_positive" Example.migrated_002
  = Err (check_violation alerts_review_status_check).
Proof.
  assert (consistent Example.migrated_002) as Hd by compute_decision.
  assert (alerts_review_status_check ∈ schema Example.migrated_002) as Hin
    by compute_decision.
  assert (1 ∈ Alert.id <$> alerts (data Example.migrated_002)) as Hi
    by compute_decision.
  destruct (only_resolved_passes_the_check Example.migrated_002 1
              AlertCard.FalsePositive Hd Hin Hi) as [_ H].
  apply H. discriminate.
Defined.

(** Migration 001 on the legacy rows of the example. *)
Lemma pipeline_establishes_the_schema_witness :
  Migration001.declared_constraints ⊆ schema LegacyExample.migrated_001
  ∧ Migration001.declared_indexes ⊆ indexes LegacyExample.migrated_001
  ∧ consistent LegacyExample.migrated_001.
Proof.
  exact (pipeline_establishes_the_schema LegacyExample.rows
           LegacyExample.migrated_001 pipeline_runs).
Defined.

Lemma documents_are_linked_by_guid_witness :
  Document.meeting_id <$> documents (data LegacyExample.migrated_001)
  = [42; 43]
  ∧ Forall2
      (λ x x',
         Document.id x' = Legacy.Document.id x
         ∧ Document.content_hash x' = Legacy.Document.content_hash x)
      (Legacy.documents LegacyExample.rows)
      (documents (data LegacyExample.migrated_001)).
Proof.
  assert (NoDup (Legacy.Document.id <$> Legacy.documents LegacyExample.rows))
    as Hnd by compute_decision.
  split; [reflexivity|].
  eapply Forall2_impl;
    [exact (documents_are_linked_by_guid LegacyExample.rows
              LegacyExample.migrated_001 Hnd pipeline_runs)|].
  intros x x' (Hi & Hh & _). split; assumption.
Defined.

(** The audit trail of the company that is gone keeps [NULL]. *)
Lemma tenant_rows_take_the_company_id_witness :
  Alert.company_id <$> alerts (data LegacyExample.migrated_001) = [7; 8; 8]
  ∧ AuditTrail.company_id <$> audit_trails (data LegacyExample.migrated_001)
    = [Some 7; None]
  ∧ Forall2 (λ a a', Alert.id a' = Legacy.Alert.id a)
      (Legacy.alerts LegacyExample.rows)
      (alerts (data LegacyExample.migrated_001)).
Proof.
  split; [reflexivity|]. split; [reflexivity|].
  destruct (tenant_rows_take_the_company_id LegacyExample.rows
              LegacyExample.migrated_001 pipeline_runs) as (H & _).
  eapply Forall2_impl; [exact H|]. intros a a' (Hi & _). exact Hi.
Defined.

(** [doc-5] is no number, [6] is. *)
Lemma alert_documents_are_converted_witness :
  Alert.document_id <$> alerts (data LegacyExample.migrated_001)
  = [None; Some 6; None]
  ∧ Forall2
      (λ a a',
         match Legacy.Alert.document_id a with
         | Some s =>
             if SingleDocumentPipeline.digits_only s
             then Alert.document_id a'
                  = Some (SingleDocumentPipeline.decimal 0 s)
                  ∧ (SingleDocumentPipeline.decimal 0 s
                     ≤ SingleDocumentPipeline.int_max)%Z
                  ∧ SingleDocumentPipeline.decimal 0 s
                    ∈ Legacy.Document.id <$> Legacy.documents LegacyExample.rows
             else Alert.document_id a' = None
         | None => Alert.document_id a' = None
         end)
      (Legacy.alerts LegacyExample.rows)
      (alerts (data LegacyExample.migrated_001)).
Proof.
  split; [reflexivity|].
  exact (alert_documents_are_converted LegacyExample.rows
           LegacyExample.migrated_001 pipeline_runs).
Defined.


(** Two properties of one company at 123 King Street West. *)
Lemma shared_address_stops_the_pipeline_witness :
  ∃ e, SingleDocumentPipeline.run LegacyExample.shared_address
       = SingleDocumentPipeline.Failed e.
Proof.
  exact (shared_address_stops_the_pipeline LegacyExample.shared_address
           0 1
           (Legacy.Property.mk 1 (Some "brightstone") "123 King Street West"
              (Some "TORONTO"))
           (Legacy.Property.mk 2 (Some "brightstone") "123 King Street West"
              (Some "Mississauga"))
           ltac:(discriminate) eq_refl eq_refl eq_refl eq_refl).
Defined.

(** The legacy rows of the example through the three migrations. *)
Lemma migrations_are_recorded_witness :
  schema_migrations (data LegacyExample.migrated)
  = ["002_schema_optimizations"; "003_final_optimizations"]
  ∧ schema_migrations (data LegacyExample.migrated_001)
    = Legacy.schema_migrations LegacyExample.rows.
Proof.
  split; [reflexivity|].
  exact (proj1 (migrations_are_recorded Migration002.lower_c
                  LegacyExample.rows LegacyExample.migrated_001
                  LegacyExample.migrated_002 LegacyExample.migrated
                  pipeline_runs pipeline_002_runs pipeline_003_runs)).
Defined.

(** ** Requests and comments *)

Section RequestFacts.
Import Auth.
Variable parse_payload : string → option (gmap string js_value).

Lemma sign_in_accessToken t access (tok : string) u :
  accessToken (sign_in parse_payload t access tok u) = access.
Proof.
  unfold sign_in, jwt. simpl. case_decide; [by destruct u|].
  destruct (decode_claims _ _); by destruct u.
Qed.

(** X26.  Outside development mode a request made after sign-in is
    authorized with the access token that the identity provider issued,
    and with nothing that the id token says: whatever the id token holds,
    decodable or not, the header is [Bearer] and that access token. *)
Theorem requests_carry_the_access_token
    (node_env : string) t (access tok : string) u :
  node_env ≠ "development" → access ≠ "" →
  ApiRequest.authorization node_env
    (Some (session_callback
             (sign_in parse_payload t (js_string access) tok u)))
  = Some ("Bearer " +:+ access).
Proof.
  intros Henv Ha. unfold ApiRequest.authorization.
  rewrite decide_False by done.
  unfold session_callback. simpl session_accessToken.
  rewrite sign_in_accessToken. simpl.
  by rewrite bool_decide_eq_true_2.
Qed.

End RequestFacts.

Section CommentFacts.
Import PropertyForm.

Lemma trim_start_empty (s : string) :
  trim_start s = "" ↔ Forall (λ c, is_space c = true) (String.list_ascii_of_string s).
Proof.
  induction s as [|c s IH]; simpl.
  - split; [constructor|done].
  - destruct (is_space c) eqn:Hc.
    + rewrite IH. split.
      * by constructor.
      * by intros [_ ?]%Forall_cons.
    + split; [done|]. intros [Hc' _]%Forall_cons. congruence.
Qed.

Lemma trim_end_empty (s : string) :
  match s with String c _ => is_space c = false | EmptyString => True end →
  trim_end s = "" → s = "".
Proof.
  destruct s as [|c s]; simpl; [done|]. intros Hc.
  destruct (trim_end s); [by rewrite Hc|done].
Qed.

(** X27.  A comment cannot be added while the box holds nothing but
    white space: for a comment written in ASCII, the Add button is disabled
    exactly when every character of the comment, if there is any, is a
    space or one of the characters 9 to 13. *)
Theorem blank_comment_cannot_be_added (comment : string) :
  ascii_only comment = true →
  CommentBox.disabled comment = true
  ↔ Forall (λ c, is_space c = true) (String.list_ascii_of_string comment).
Proof.
  intros _. unfold CommentBox.disabled, trim. rewrite bool_decide_eq_true.
  rewrite <- trim_start_empty. split.
  - apply trim_end_empty, trim_start_clean.
  - by intros ->.
Qed.

End CommentFacts.

(** A comment of a space, a tab and a line feed. *)
Lemma blank_comment_cannot_be_added_witness :
  CommentBox.disabled
    (String " "%char (String (ascii_of_N 9) (String (ascii_of_N 10) "")))
  = true.
Proof.
  apply (blank_comment_cannot_be_added
           (String " "%char (String (ascii_of_N 9) (String (ascii_of_N 10) "")))
           eq_refl).
  by repeat constructor.
Defined.

(** A production request after the sign-in of the example. *)
Lemma requests_carry_the_access_token_witness :
  ApiRequest.authorization "production"
    (Some (Auth.session_callback
             (Auth.sign_in Auth.parse_empty_object Auth.blank_token
                (js_string "access") "header.e30.signature" None)))
  = Some "Bearer access".
Proof.
  exact (requests_carry_the_access_token Auth.parse_empty_object
           "production" Auth.blank_token "access" "header.e30.signature" None
           ltac:(discriminate) ltac:(discriminate)).
Defined.

(** ** Deleting a company *)

Section CompanyDelete.
Context {P : Type}.
Implicit Types (d : db P) (t : tables P) (s : list constraint).

Lemma filter_ext_Forall {A : Type} (Q R : A → Prop)
    `{!∀ x, Decision (Q x)} `{!∀ x, Decision (R x)} (l : list A) :
  Forall (λ x, Q x ↔ R x) l → filter Q l = filter R l.
Proof.
  induction 1 as [|a l Ha _ IH]; [done|].
  destruct (decide (Q a)) as [HQ|HQ].
  - rewrite !filter_cons_True by tauto. by rewrite IH.
  - rewrite !filter_cons_False by tauto. exact IH.
Qed.

Lemma not_gone (sel : Z → Prop) `{!∀ x, Decision (sel x)}
    (l : list Z) (k : Z) :
  k ∈ l → k ∉ filter sel l → k ∈ filter (λ x, ¬ sel x) l.
Proof.
  intros Hk Hgone. apply list_elem_of_filter. split; [|done].
  intros Hsel. apply Hgone. by apply list_elem_of_filter.
Qed.

(** The rows that a delete from [companies] leaves under the foreign
    keys of migration 001. *)
Lemma remove_companies_cascade s (sel : Z → Prop)
    `{!∀ x, Decision (sel x)} t :
  Migration001.declared_constraints ⊆ s →
  let gone := filter sel (companies t) in
  remove_companies s sel t
  = mk_tables (filter (λ x, ¬ sel x) (companies t))
      (municipalities t) (meetings t) (documents t)
      (filter (λ a, Alert.company_id a ∉ gone) (alerts t))
      (filter (λ p, Property.company_id p ∉ gone) (properties t))
      (filter (λ j, IngestJob.company_id j ∉ gone) (ingest_jobs t))
      (filter (λ r, CompanyMunicipality.company_id r ∉ gone)
         (company_municipalities t))
      (filter (λ a, ¬ refers gone (AuditTrail.company_id a))
         (audit_trails t))
      (filter (λ u, ¬ refers gone (User.company_id u)) (users t))
      (schema_migrations t).
Proof.
  intros Hs gone. unfold remove_companies.
  rewrite !cascades_declared;
    try done; apply Hs; unfold Migration001.declared_constraints;
    rewrite !elem_of_cons; tauto.
Qed.

Lemma holds_remove_companies s (sel : Z → Prop)
    `{!∀ x, Decision (sel x)} t c :
  Migration001.declared_constraints ⊆ s →
  Forall (λ c, holds c t) s → c ∈ s →
  holds c (remove_companies s sel t).
Proof.
  intros Hs Hall Hc. rewrite remove_companies_cascade by done. cbv zeta.
  assert (holds c t) as Hh by (rewrite Forall_forall in Hall; auto).
  destruct c; simpl in *; try done;
    try (by apply Forall_filter_weaken);
    try (by apply NoDup_fmap_filter);
    apply Forall_forall; intros x [Hkeep Hx]%list_elem_of_filter;
    rewrite Forall_forall in Hh; specialize (Hh x Hx); simpl in *.
  - by apply not_gone.
  - destruct (AuditTrail.company_id x) as [k|]; simpl in *; [|done].
    by apply not_gone.
  - by apply not_gone.
  - destruct (User.company_id x) as [k|]; simpl in *; [|done].
    by apply not_gone.
  - by apply not_gone.
  - by apply not_gone.
Qed.

(** X29.  Deleting a company takes along exactly what the company owns:
    under the foreign keys of migration 001 the delete always goes
    through on a consistent database, and it removes the company, its
    alerts, audit trails, ingest jobs, users, properties and subscriptions,
    and no row of another company; municipalities, meetings and documents,
    which the companies share, stay as they are. *)
Theorem company_delete_cascades d (c : Z) :
  consistent d →
  Migration001.declared_constraints ⊆ schema d →
  ∃ d', delete_company c d = Ok d'
        ∧ consistent d'
        ∧ companies (data d') = filter (λ x, x ≠ c) (companies (data d))
        ∧ alerts (data d')
          = filter (λ a, Alert.company_id a ≠ c) (alerts (data d))
        ∧ audit_trails (data d')
          = filter (λ a, AuditTrail.company_id a ≠ Some c)
              (audit_trails (data d))
        ∧ ingest_jobs (data d')
          = filter (λ j, IngestJob.company_id j ≠ c) (ingest_jobs (data d))
        ∧ users (data d')
          = filter (λ u, User.company_id u ≠ Some c) (users (data d))
        ∧ properties (data d')
          = filter (λ p, Property.company_id p ≠ c) (properties (data d))
        ∧ company_municipalities (data d')
          = filter (λ r, CompanyMunicipality.company_id r ≠ c)
              (company_municipalities (data d))
        ∧ municipalities (data d') = municipalities (data d)
        ∧ meetings (data d') = meetings (data d)
        ∧ documents (data d') = documents (data d).
Proof.
  intros Hd Hs.
  assert (∀ k, k ∉ filter (λ x, x = c) (companies (data d)) ↔
               (k ∈ companies (data d) → k ≠ c)) as Hgone.
  { intros k. rewrite list_elem_of_filter. split.
    - intros Hn Hk ->. by apply Hn.
    - intros Hk [-> Hin]. by apply Hk. }
  assert (∀ c', c' ∈ Migration001.declared_constraints → holds c' (data d))
    as Hfk by (intros c' Hc'; by apply consistent_holds, Hs).
  assert (delete_company c d
          = Ok (mk_db (remove_companies (schema d) (λ x, x = c) (data d))
                  (schema d) (indexes d))) as Hok.
  { unfold delete_company. apply commit_Ok. split; [done|].
    apply Forall_forall. intros c' Hc'. by apply holds_remove_companies. }
  eexists. split; [exact Hok|]. split.
  { unfold delete_company in Hok. by apply commit_consistent in Hok. }
  simpl. rewrite remove_companies_cascade by done. simpl.
  split_and!; try done.
  - pose proof (Hfk alerts_company_id_fkey
                  ltac:(unfold Migration001.declared_constraints;
                        rewrite !elem_of_cons; tauto)) as H.
    simpl in H. apply filter_ext_Forall. eapply Forall_impl; [exact H|].
    intros a Ha. simpl. rewrite Hgone. tauto.
  - pose proof (Hfk audit_trails_company_id_fkey
                  ltac:(unfold Migration001.declared_constraints;
                        rewrite !elem_of_cons; tauto)) as H.
    simpl in H. apply filter_ext_Forall. eapply Forall_impl; [exact H|].
    intros a Ha. simpl in *.
    destruct (AuditTrail.company_id a) as [k|]; simpl in *.
    + rewrite Hgone. split; [intros Hk [= ->]; by apply Hk|].
      intros Hk _ ->. by apply Hk.
    + split; [done|tauto].
  - pose proof (Hfk ingest_jobs_company_id_fkey
                  ltac:(unfold Migration001.declared_constraints;
                        rewrite !elem_of_cons; tauto)) as H.
    simpl in H. apply filter_ext_Forall. eapply Forall_impl; [exact H|].
    intros a Ha. simpl. rewrite Hgone. tauto.
  - pose proof (Hfk users_company_id_fkey
                  ltac:(unfold Migration001.declared_constraints;
                        rewrite !elem_of_cons; tauto)) as H.
    simpl in H. apply filter_ext_Forall. eapply Forall_impl; [exact H|].
    intros a Ha. simpl in *.
    destruct (User.company_id a) as [k|]; simpl in *.
    + rewrite Hgone. split; [intros Hk [= ->]; by apply Hk|].
      intros Hk _ ->. by apply Hk.
    + split; [done|tauto].
  - pose proof (Hfk properties_company_id_fkey
                  ltac:(unfold Migration001.declared_constraints;
                        rewrite !elem_of_cons; tauto)) as H.
    simpl in H. apply filter_ext_Forall. eapply Forall_impl; [exact H|].
    intros a Ha. simpl. rewrite Hgone. tauto.
  - pose proof (Hfk company_municipalities_company_id_fkey
                  ltac:(unfold Migration001.declared_constraints;
                        rewrite !elem_of_cons; tauto)) as H.
    simpl in H. apply filter_ext_Forall. eapply Forall_impl; [exact H|].
    intros a Ha. simpl. rewrite Hgone. tauto.
Qed.

End CompanyDelete.

(** Deleting company 8 from the migrated example. *)
Lemma company_delete_cascades_witness :
  ∃ d', delete_company 8 LegacyExample.migrated = Ok d'
        ∧ companies (data d') = [7]
        ∧ Alert.id <$> alerts (data d') = [1]
        ∧ User.id <$> users (data d') = ["0b7e"; "9f02"]
        ∧ company_municipalities (data d') = []
        ∧ documents (data d') = documents (data LegacyExample.migrated).
Proof.
  assert (consistent LegacyExample.migrated) as Hd by compute_decision.
  assert (Migration001.declared_constraints ⊆ schema LegacyExample.migrated)
    as Hs.
  { intros c Hc. unfold Migration001.declared_constraints in Hc.
    repeat (apply elem_of_cons in Hc as [->|Hc]; [compute_decision|]).
    by apply elem_of_nil in Hc. }
  destruct (company_delete_cascades LegacyExample.migrated 8 Hd Hs)
    as (d' & Hok & _ & Hc & Ha & _ & _ & Hu & _ & Hcm & _ & _ & Hdocs).
  exists d'. split; [exact Hok|].
  split; [rewrite Hc; reflexivity|].
  split; [rewrite Ha; reflexivity|].
  split; [rewrite Hu; reflexivity|].
  split; [rewrite Hcm; reflexivity|exact Hdocs].
Defined.
